(** * database-iteration: the list endpoint and its continuation tokens

    A shallow embedding of [database-iteration/main.go]: the two token
    types with their [MarshalJSON]/[UnmarshalJSON] methods, and
    [listHandler].  The Go standard library functions the program calls
    ([encoding/base64], [encoding/json], [strconv], [net/url], [time])
    are modelled first, each in a module named after its package; the
    program itself follows, and then the theorems.

    Conventions.  Go's [int] is the 64-bit one, and integers are [Z] with
    the wrap-around written out.  Byte slices and strings are lists of
    [ascii].  A function that returns an [error] returns a [result].
    The clock and the database are arguments of the handler: the clock
    as the readings of [time.Now()] in the order they are taken, the
    database as the rows a statement yields.  The local time zone is an
    argument as well, given by what [Location.lookup] returns. *)

From Stdlib Require Import ZArith List Ascii String Bool Lia.
Import ListNotations.
Open Scope Z_scope.

(** ** Bytes and errors *)

(** A Go [[]byte] (and a Go [string], which the program converts freely). *)
Abbreviation bytes := (list ascii) (only parsing).

Definition B (s : string) : bytes := list_ascii_of_string s.

(** The double quote, and text written with ['] standing for it. *)
Definition dquote : ascii := "034"%char.
Definition Q (s : string) : bytes :=
  map (fun c => if Ascii.eqb c "'" then dquote else c) (B s).

Definition byteZ (c : ascii) : Z := Z.of_N (N_of_ascii c).

(** Go's conversion [byte(x)] of an unsigned integer: the low eight bits. *)
Definition Zbyte (z : Z) : ascii := ascii_of_N (Z.to_N (Z.land z 255)).

Definition in_range (lo hi c : ascii) : bool :=
  (byteZ lo <=? byteZ c) && (byteZ c <=? byteZ hi).

Definition isDigit (c : ascii) : bool := in_range "0" "9" c.
Definition isLower (c : ascii) : bool := in_range "a" "z" c.
Definition isUpper (c : ascii) : bool := in_range "A" "Z" c.
Definition isHex (c : ascii) : bool :=
  isDigit c || in_range "a" "f" c || in_range "A" "F" c.

Definition unhex (c : ascii) : Z :=
  if isDigit c then byteZ c - 48
  else if in_range "a" "f" c then byteZ c - 97 + 10
  else byteZ c - 65 + 10.

Fixpoint bytes_eqb (x y : bytes) : bool :=
  match x, y with
  | [], [] => true
  | a :: x', b :: y' => Ascii.eqb a b && bytes_eqb x' y'
  | _, _ => false
  end.

(** The error values the program can meet.  Only their identity matters:
    the handler prints them and stops. *)
Inductive error : Type :=
| CorruptInputError     (* encoding/base64 *)
| SyntaxError           (* encoding/json: invalid document *)
| UnmarshalTypeError    (* encoding/json: value does not fit the Go type *)
| QueryError.           (* database/sql: Query, Scan or rows.Err failed *)

Inductive result (A : Type) : Type :=
| Ok (a : A)
| Err (e : error).
Arguments Ok {A} a.
Arguments Err {A} e.

Definition bind {A C : Type} (r : result A) (k : A -> result C) : result C :=
  match r with
  | Ok a => k a
  | Err e => Err e
  end.

Notation "x <- r ;; k" := (bind r (fun x => k))
  (at level 61, r at next level, right associativity).

(** Go's [int] and [int64] (a 64-bit platform): two's complement wrap. *)
Definition min_int64 : Z := - 2 ^ 63.
Definition max_int64 : Z := 2 ^ 63 - 1.
Definition in_int64 (z : Z) : Prop := min_int64 <= z <= max_int64.
Definition wrap64 (z : Z) : Z := (z + 2 ^ 63) mod 2 ^ 64 - 2 ^ 63.

(** ** Package strconv *)
Module strconv.

Definition digit (d : Z) : ascii := Zbyte (48 + d).

(** [formatBits] in base 10: the digits of [u], least significant first,
    pushed in front of [acc].  A number [u >= 0] has at most
    [log2 u + 1] decimal digits, which bounds the loop. *)
Fixpoint formatBits (fuel : nat) (u : Z) (acc : bytes) : bytes :=
  match fuel with
  | O => acc
  | S fuel' =>
      if u <? 10 then digit u :: acc
      else formatBits fuel' (u / 10) (digit (u mod 10) :: acc)
  end.

Definition FormatUint (u : Z) : bytes :=
  formatBits (S (Z.to_nat (Z.log2 u))) u [].

(** [strconv.FormatInt(i, 10)], which is how encoding/json prints an
    integer. *)
Definition FormatInt (i : Z) : bytes :=
  if i <? 0 then "-"%char :: FormatUint (- i) else FormatUint i.

(** The value of a run of decimal digits; [None] at a byte that is not
    a digit. *)
Fixpoint parseDigits (s : bytes) (acc : Z) : option Z :=
  match s with
  | [] => Some acc
  | c :: r => if isDigit c then parseDigits r (10 * acc + (byteZ c - 48))
              else None
  end.

(** [strconv.ParseInt(s, 10, 64)]: an optional sign, at least one digit,
    and the value within int64. *)
Definition ParseInt (s : bytes) : option Z :=
  let '(neg, ds) :=
    match s with
    | c :: r => if Ascii.eqb c "-" then (true, r)
                else if Ascii.eqb c "+" then (false, r)
                else (false, s)
    | [] => (false, s)
    end in
  match ds with
  | [] => None
  | _ :: _ =>
      match parseDigits ds 0 with
      | None => None
      | Some n =>
          let v := if neg then - n else n in
          if (min_int64 <=? v) && (v <=? max_int64) then Some v else None
      end
  end.

(** [strconv.Atoi]: the same syntax and range on a 64-bit platform. *)
Definition Atoi (s : bytes) : option Z := ParseInt s.

End strconv.

(** ** Package encoding/base64, [StdEncoding] *)
Module base64.

Definition encodeStd : bytes :=
  B "ABCDEFGHIJKLMNOPQRSTUVWXYZabcdefghijklmnopqrstuvwxyz0123456789+/".

Definition padChar : ascii := "="%char.

(** [enc.encode[i]] *)
Definition encode (i : Z) : ascii := nth (Z.to_nat i) encodeStd "000"%char.

Fixpoint index_of (c : ascii) (l : bytes) (i : Z) : option Z :=
  match l with
  | [] => None
  | x :: l' => if Ascii.eqb x c then Some i else index_of c l' (i + 1)
  end.

(** [enc.decodeMap[c]]; [None] stands for the entry 0xff. *)
Definition decodeMap (c : ascii) : option Z := index_of c encodeStd 0.

Definition sextet (val shift : Z) : ascii :=
  encode (Z.land (Z.shiftr val shift) 63).

(** [Encoding.Encode]: three source bytes give four characters; a
    remainder of one or two bytes is padded with [=]. *)
Fixpoint Encode (src : bytes) : bytes :=
  match src with
  | [] => []
  | [a] =>
      let val := Z.shiftl (byteZ a) 16 in
      [sextet val 18; sextet val 12; padChar; padChar]
  | [a; b] =>
      let val := Z.lor (Z.shiftl (byteZ a) 16) (Z.shiftl (byteZ b) 8) in
      [sextet val 18; sextet val 12; sextet val 6; padChar]
  | a :: b :: c :: rest =>
      let val := Z.lor (Z.lor (Z.shiftl (byteZ a) 16) (Z.shiftl (byteZ b) 8))
                       (byteZ c) in
      sextet val 18 :: sextet val 12 :: sextet val 6 :: sextet val 0
        :: Encode rest
  end.

Definition isNewline (c : ascii) : bool :=
  Ascii.eqb c "010" || Ascii.eqb c "013".

Fixpoint skipNewlines (s : bytes) : bytes :=
  match s with
  | c :: r => if isNewline c then skipNewlines r else s
  | [] => []
  end.

(** The end of [decodeQuantum]: [dbuf] holds the [dlen] six-bit values
    read (missing ones are 0) and yields [dlen - 1] bytes. *)
Definition quantum (dbuf : list Z) (dlen : nat) : bytes :=
  let d i := nth i dbuf 0 in
  let val := Z.lor (Z.lor (Z.lor (Z.shiftl (d 0%nat) 18) (Z.shiftl (d 1%nat) 12))
                          (Z.shiftl (d 2%nat) 6)) (d 3%nat) in
  firstn (dlen - 1)
    [Zbyte (Z.shiftr val 16); Zbyte (Z.shiftr val 8); Zbyte (Z.shiftr val 0)].

(** [Encoding.Decode] as a loop over the input; [dbuf] is the part
    of the current quantum already read.  Newlines are skipped, padding
    must complete the last quantum and nothing may follow it. *)
Fixpoint decodeLoop (src : bytes) (dbuf : list Z) : result bytes :=
  match src with
  | [] =>
      match dbuf with
      | [] => Ok []
      | _ :: _ => Err CorruptInputError
      end
  | c :: rest =>
      match decodeMap c with
      | Some out =>
          let dbuf' := dbuf ++ [out] in
          if (List.length dbuf' =? 4)%nat
          then tl <- decodeLoop rest [] ;; Ok (quantum dbuf' 4 ++ tl)
          else decodeLoop rest dbuf'
      | None =>
          if isNewline c then decodeLoop rest dbuf
          else if negb (Ascii.eqb c padChar) then Err CorruptInputError
          else
            match List.length dbuf with
            | 0%nat | 1%nat => Err CorruptInputError
            | 2%nat =>
                match skipNewlines rest with
                | [] => Err CorruptInputError
                | c2 :: rest2 =>
                    if Ascii.eqb c2 padChar then
                      match skipNewlines rest2 with
                      | [] => Ok (quantum dbuf 2)
                      | _ :: _ => Err CorruptInputError
                      end
                    else Err CorruptInputError
                end
            | _ =>
                match skipNewlines rest with
                | [] => Ok (quantum dbuf 3)
                | _ :: _ => Err CorruptInputError
                end
            end
      end
  end.

Definition Decode (src : bytes) : result bytes := decodeLoop src [].

End base64.



(** ** Package encoding/json *)
Module json.

(** A parsed document.  Numbers and strings keep their source text: a
    number is converted when it is stored in a Go value, a string is
    unquoted when it is used (as an object key). *)
#[local] Unset Elimination Schemes.
Inductive value : Type :=
| Null
| Bool (b : bool)
| Number (lit : bytes)
| String (raw : bytes)
| Array (elems : list value)
| Object (members : list (bytes * value)).
#[local] Set Elimination Schemes.

(** Result of a parsing function: a value and the input left, a syntax
    error, or a recursion budget used up (which the budget of [parse]
    rules out: [parse_never_out_of_budget]). *)
Inductive pres (A : Type) : Type :=
| POk (a : A) (rest : bytes)
| PSyntax
| PFuel.
Arguments POk {A} a rest.
Arguments PSyntax {A}.
Arguments PFuel {A}.

Definition isSpace (c : ascii) : bool :=
  Ascii.eqb c " " || Ascii.eqb c "009" || Ascii.eqb c "013" || Ascii.eqb c "010".

Fixpoint skipSpace (s : bytes) : bytes :=
  match s with
  | c :: r => if isSpace c then skipSpace r else s
  | [] => []
  end.

Definition isSimpleEscape (c : ascii) : bool :=
  existsb (Ascii.eqb c) (dquote :: B "\/bfnrt").

(** The scanner inside a string, after the opening quote: up to the
    closing quote.  Control characters and malformed escapes are errors.
    Returns the text between the quotes and the input after them. *)
Fixpoint scanString (s : bytes) (acc : bytes) : option (bytes * bytes) :=
  match s with
  | [] => None
  | c :: r =>
      if Ascii.eqb c dquote then Some (rev acc, r)
      else if Ascii.eqb c "\" then
        match r with
        | [] => None
        | e :: r1 =>
            if isSimpleEscape e then scanString r1 (e :: c :: acc)
            else if Ascii.eqb e "u" then
              match r1 with
              | h1 :: h2 :: h3 :: h4 :: r2 =>
                  if isHex h1 && isHex h2 && isHex h3 && isHex h4
                  then scanString r2 (h4 :: h3 :: h2 :: h1 :: e :: c :: acc)
                  else None
              | _ => None
              end
            else None
        end
      else if byteZ c <? 32 then None
      else scanString r (c :: acc)
  end.

Fixpoint scanDigits (s : bytes) : bytes * bytes :=
  match s with
  | c :: r => if isDigit c then let '(ds, r') := scanDigits r in (c :: ds, r')
              else ([], s)
  | [] => ([], [])
  end.

(** The scanner on a number: an optional minus sign; a lone 0 or a
    nonzero digit followed by digits; optionally a dot and at least one
    digit; optionally e or E, a sign and at least one digit.  Each part
    returns its text and the input after it. *)
Definition scanSign (s : bytes) : bytes * bytes :=
  match s with
  | c :: r => if Ascii.eqb c "-" then ([c], r) else ([], s)
  | [] => ([], s)
  end.

Definition scanInt (s : bytes) : option (bytes * bytes) :=
  match s with
  | [] => None
  | c :: r =>
      if Ascii.eqb c "0" then Some ([c], r)
      else if in_range "1" "9" c
           then let '(ds, r') := scanDigits r in Some (c :: ds, r')
           else None
  end.

Definition scanFrac (s : bytes) : option (bytes * bytes) :=
  match s with
  | d :: r =>
      if Ascii.eqb d "." then
        match scanDigits r with
        | ([], _) => None
        | (ds, r') => Some (d :: ds, r')
        end
      else Some ([], s)
  | [] => Some ([], s)
  end.

Definition scanExp (s : bytes) : option (bytes * bytes) :=
  match s with
  | e :: r =>
      if Ascii.eqb e "e" || Ascii.eqb e "E" then
        let '(sg, r1) :=
          match r with
          | g :: r1 =>
              if Ascii.eqb g "+" || Ascii.eqb g "-"
              then ([g], r1) else ([], r)
          | [] => ([], r)
          end in
        match scanDigits r1 with
        | ([], _) => None
        | (ds, r2) => Some (e :: sg ++ ds, r2)
        end
      else Some ([], s)
  | [] => Some ([], s)
  end.

Definition scanNumber (s : bytes) : option (bytes * bytes) :=
  let '(sign, s1) := scanSign s in
  match scanInt s1 with
  | None => None
  | Some (ip, s2) =>
      match scanFrac s2 with
      | None => None
      | Some (fp, s3) =>
          match scanExp s3 with
          | None => None
          | Some (ep, s4) => Some (sign ++ ip ++ fp ++ ep, s4)
          end
      end
  end.

Fixpoint stripPrefix (p s : bytes) : option bytes :=
  match p, s with
  | [], _ => Some s
  | a :: p', b :: s' => if Ascii.eqb a b then stripPrefix p' s' else None
  | _ :: _, [] => None
  end.

Definition maxNestingDepth : Z := 10000.

(** One JSON value at the head of [s] (no leading space), at nesting
    depth [depth]; then the elements of an array after an element is
    due, and the members of an object after a key is due. *)
Fixpoint parseValue (fuel : nat) (depth : Z) (s : bytes) : pres value :=
  match fuel with
  | O => PFuel
  | S fuel' =>
      match s with
      | [] => PSyntax
      | c :: r =>
          if Ascii.eqb c "{" then
            if maxNestingDepth <=? depth then PSyntax
            else
              match skipSpace r with
              | c1 :: r1 =>
                  if Ascii.eqb c1 "}" then POk (Object []) r1
                  else parseMembers fuel' (depth + 1) (c1 :: r1) []
              | [] => PSyntax
              end
          else if Ascii.eqb c "[" then
            if maxNestingDepth <=? depth then PSyntax
            else
              match skipSpace r with
              | c1 :: r1 =>
                  if Ascii.eqb c1 "]" then POk (Array []) r1
                  else parseElems fuel' (depth + 1) (c1 :: r1) []
              | [] => PSyntax
              end
          else if Ascii.eqb c dquote then
            match scanString r [] with
            | Some (raw, r1) => POk (String raw) r1
            | None => PSyntax
            end
          else if Ascii.eqb c "-" || isDigit c then
            match scanNumber s with
            | Some (lit, r1) => POk (Number lit) r1
            | None => PSyntax
            end
          else if Ascii.eqb c "t" then
            match stripPrefix (B "true") s with
            | Some r1 => POk (Bool true) r1
            | None => PSyntax
            end
          else if Ascii.eqb c "f" then
            match stripPrefix (B "false") s with
            | Some r1 => POk (Bool false) r1
            | None => PSyntax
            end
          else if Ascii.eqb c "n" then
            match stripPrefix (B "null") s with
            | Some r1 => POk Null r1
            | None => PSyntax
            end
          else PSyntax
      end
  end

with parseElems (fuel : nat) (depth : Z) (s : bytes) (acc : list value)
  : pres value :=
  match fuel with
  | O => PFuel
  | S fuel' =>
      match parseValue fuel' depth s with
      | POk v r =>
          match skipSpace r with
          | c :: r1 =>
              if Ascii.eqb c "," then
                parseElems fuel' depth (skipSpace r1) (v :: acc)
              else if Ascii.eqb c "]" then POk (Array (rev (v :: acc))) r1
              else PSyntax
          | [] => PSyntax
          end
      | PSyntax => PSyntax
      | PFuel => PFuel
      end
  end

with parseMembers (fuel : nat) (depth : Z) (s : bytes)
                  (acc : list (bytes * value)) : pres value :=
  match fuel with
  | O => PFuel
  | S fuel' =>
      match s with
      | [] => PSyntax
      | q :: r =>
          if Ascii.eqb q dquote then
            match scanString r [] with
            | None => PSyntax
            | Some (key, r1) =>
                match skipSpace r1 with
                | c :: r2 =>
                    if Ascii.eqb c ":" then
                      match parseValue fuel' depth (skipSpace r2) with
                      | POk v r3 =>
                          match skipSpace r3 with
                          | c' :: r4 =>
                              if Ascii.eqb c' "," then
                                parseMembers fuel' depth (skipSpace r4)
                                             ((key, v) :: acc)
                              else if Ascii.eqb c' "}" then
                                POk (Object (rev ((key, v) :: acc))) r4
                              else PSyntax
                          | [] => PSyntax
                          end
                      | PSyntax => PSyntax
                      | PFuel => PFuel
                      end
                    else PSyntax
                | [] => PSyntax
                end
            end
          else PSyntax
      end
  end.

(** [checkValid] and the reading of the document: optional space, one
    value, optional space, end of input.  Every level of recursion
    consumes input, so twice the input length is budget enough. *)
Definition parse (data : bytes) : result value :=
  match parseValue (2 * List.length data + 2) 0 (skipSpace data) with
  | POk v r =>
      match skipSpace r with
      | [] => Ok v
      | _ :: _ => Err SyntaxError
      end
  | _ => Err SyntaxError
  end.

(** [unquote] of the text between the quotes of a string.  Escapes
    are decoded; a [\u] escape below 0x80 gives that byte, a larger one
    its UTF-8 bytes.  (Go also pairs surrogates and replaces invalid
    UTF-8; both only ever produce bytes above 0x7f, which no field name
    of this program contains.) *)
Definition unescape (e : ascii) : ascii :=
  if Ascii.eqb e "b" then "008"%char
  else if Ascii.eqb e "f" then "012"%char
  else if Ascii.eqb e "n" then "010"%char
  else if Ascii.eqb e "r" then "013"%char
  else if Ascii.eqb e "t" then "009"%char
  else e.

Definition encodeRune (r : Z) : bytes :=
  if r <? 128 then [Zbyte r]
  else if r <? 2048 then
    [Zbyte (Z.lor 192 (Z.shiftr r 6)); Zbyte (Z.lor 128 (Z.land r 63))]
  else
    [Zbyte (Z.lor 224 (Z.shiftr r 12));
     Zbyte (Z.lor 128 (Z.land (Z.shiftr r 6) 63));
     Zbyte (Z.lor 128 (Z.land r 63))].

Fixpoint unquote (raw : bytes) : bytes :=
  match raw with
  | [] => []
  | c :: r =>
      if Ascii.eqb c "\" then
        match r with
        | [] => []
        | e :: r1 =>
            if Ascii.eqb e "u" then
              match r1 with
              | h1 :: h2 :: h3 :: h4 :: r2 =>
                  encodeRune (4096 * unhex h1 + 256 * unhex h2
                              + 16 * unhex h3 + unhex h4) ++ unquote r2
              | _ => []
              end
            else unescape e :: unquote r1
        end
      else c :: unquote r
  end.

(** [foldName] on ASCII: lower-case letters to upper case.  A key and a
    field name match when they are equal or have the same folding. *)
Definition foldName (s : bytes) : bytes :=
  map (fun c => if isLower c then Zbyte (byteZ c - 32) else c) s.

Definition keyMatches (name key : bytes) : bool :=
  bytes_eqb (foldName (unquote key)) (foldName name).

(** Storing a JSON value in a Go [int64] or [int] field: a number must
    be an integer literal within range, [null] leaves the field alone,
    anything else is a type error. *)
Definition storeInt (v : value) (old : Z) : result Z :=
  match v with
  | Number lit =>
      match strconv.ParseInt lit with
      | Some n => Ok n
      | None => Err UnmarshalTypeError
      end
  | Null => Ok old
  | _ => Err UnmarshalTypeError
  end.

(** Storing in a [*int64] field: [null] makes the pointer nil, a number
    allocates. *)
Definition storeIntPtr (v : value) : result (option Z) :=
  match v with
  | Number lit =>
      match strconv.ParseInt lit with
      | Some n => Ok (Some n)
      | None => Err UnmarshalTypeError
      end
  | Null => Ok None
  | _ => Err UnmarshalTypeError
  end.

(** Printing: [json.Marshal] of a [map[string]any] of integers writes
    the entries in increasing key order, of a struct in field order. *)
Fixpoint bytes_leb (x y : bytes) : bool :=
  match x, y with
  | [], _ => true
  | _ :: _, [] => false
  | a :: x', b :: y' =>
      if byteZ a <? byteZ b then true
      else if byteZ b <? byteZ a then false
      else bytes_leb x' y'
  end.

Fixpoint insertKey (e : bytes * Z) (l : list (bytes * Z)) : list (bytes * Z) :=
  match l with
  | [] => [e]
  | x :: l' => if bytes_leb (fst e) (fst x) then e :: l else x :: insertKey e l'
  end.

Definition sortKeys (m : list (bytes * Z)) : list (bytes * Z) :=
  fold_right insertKey [] m.

Definition marshalEntry (e : bytes * Z) : bytes :=
  dquote :: fst e ++ dquote :: ":"%char :: strconv.FormatInt (snd e).

Fixpoint marshalEntries (l : list (bytes * Z)) : bytes :=
  match l with
  | [] => []
  | [e] => marshalEntry e
  | e :: l' => marshalEntry e ++ ","%char :: marshalEntries l'
  end.

Definition MarshalStruct (fields : list (bytes * Z)) : bytes :=
  "{"%char :: marshalEntries fields ++ ["}"%char].

Definition MarshalMap (m : list (bytes * Z)) : bytes :=
  MarshalStruct (sortKeys m).

End json.

(** ** Package net/url: the query string *)
Module url.

(** [QueryUnescape]: [%XX] is a byte, [+] a space; a malformed escape
    is an error. *)
Fixpoint QueryUnescape (s : bytes) : option bytes :=
  match s with
  | [] => Some []
  | c :: r =>
      if Ascii.eqb c "%" then
        match r with
        | h1 :: h2 :: r' =>
            if isHex h1 && isHex h2
            then option_map (cons (Zbyte (16 * unhex h1 + unhex h2)))
                            (QueryUnescape r')
            else None
        | _ => None
        end
      else if Ascii.eqb c "+" then option_map (cons " "%char) (QueryUnescape r)
      else option_map (cons c) (QueryUnescape r)
  end.

(** [strings.Cut(s, sep)] on a one-byte separator: the text before
    the first [sep] and the text after it ([s] and nothing when [sep]
    does not occur). *)
Fixpoint cut (sep : ascii) (s : bytes) : bytes * bytes :=
  match s with
  | [] => ([], [])
  | c :: r => if Ascii.eqb c sep then ([], r)
              else let '(a, b) := cut sep r in (c :: a, b)
  end.

(** The pieces of [s] between occurrences of [sep]. *)
Fixpoint split (sep : ascii) (s : bytes) (cur : bytes) : list bytes :=
  match s with
  | [] => [rev cur]
  | c :: r => if Ascii.eqb c sep then rev cur :: split sep r []
              else split sep r (c :: cur)
  end.

(** One [key=value] setting of [parseQuery]; settings that are empty,
    contain a semicolon or do not unescape are dropped (the handler
    ignores the error of [Query]). *)
Definition parseSetting (kv : bytes) : option (bytes * bytes) :=
  if existsb (Ascii.eqb ";") kv then None
  else
    match kv with
    | [] => None
    | _ :: _ =>
        let '(k, v) := cut "=" kv in
        match QueryUnescape k, QueryUnescape v with
        | Some k', Some v' => Some (k', v')
        | _, _ => None
        end
    end.

Fixpoint collect (l : list bytes) : list (bytes * bytes) :=
  match l with
  | [] => []
  | kv :: l' =>
      match parseSetting kv with
      | Some e => e :: collect l'
      | None => collect l'
      end
  end.

(** [u.Query()]: the settings of the raw query in order. *)
Definition Query (rawQuery : bytes) : list (bytes * bytes) :=
  collect (split "&" rawQuery []).

(** [Values.Get]: the first value of [key], or the empty string. *)
Fixpoint Get (vs : list (bytes * bytes)) (key : bytes) : bytes :=
  match vs with
  | [] => []
  | (k, v) :: vs' => if bytes_eqb k key then v else Get vs' key
  end.

End url.


(** ** Package time *)
Module time.

Inductive Location : Type := UTC | Local.

(** A [time.Time] without monotonic reading: the seconds since
    January 1 of year 1, 00:00:00 UTC (an int64), the nanoseconds within
    the second, and the location used for display. *)
Record Time : Type := mkTime { sec : Z; nsec : Z; loc : Location }.

Definition wf (t : Time) : Prop :=
  in_int64 (sec t) /\ 0 <= nsec t <= 999999999.

Definition unixToInternal : Z :=
  (1969 * 365 + 1969 / 4 - 1969 / 100 + 1969 / 400) * 86400.
Definition internalToUnix : Z := - unixToInternal.

(** The zero value [time.Time{}]. *)
Definition zero : Time := mkTime 0 0 UTC.

(** [time.Unix(sec, nsec)]: a local time. *)
Definition Unix (s ns : Z) : Time :=
  let '(s1, ns1) :=
    if (ns <? 0) || (1000000000 <=? ns) then
      let n := Z.quot ns 1000000000 in
      let s' := wrap64 (s + n) in
      let ns' := ns - n * 1000000000 in
      if ns' <? 0 then (wrap64 (s' - 1), ns' + 1000000000) else (s', ns')
    else (s, ns) in
  mkTime (wrap64 (s1 + unixToInternal)) ns1 Local.

(** Methods of [Time]. *)
Definition Time_Unix (t : Time) : Z := wrap64 (sec t + internalToUnix).

Definition Time_IsZero (t : Time) : bool := (sec t =? 0) && (nsec t =? 0).

Definition Time_Before (t u : Time) : bool :=
  (sec t <? sec u) || ((sec t =? sec u) && (nsec t <? nsec u)).

Definition Time_Equal (t u : Time) : bool :=
  (sec t =? sec u) && (nsec t =? nsec u).

Definition Time_UTC (t : Time) : Time := mkTime (sec t) (nsec t) UTC.

(** A zone period as [Location.lookup] returns it for a Unix instant:
    the offset of the zone in force, in seconds east of UTC, and the
    bounds of the period in which it is in force. *)
Record Zone : Type := mkZone { offset : Z; start : Z; end_ : Z }.

(** A [*Location] by its [lookup]. *)
Definition Lookup : Type := Z -> Zone.

(** The location UTC has no zone: offset 0 from [alpha] to [omega]. *)
Definition lookupUTC : Lookup := fun _ => mkZone 0 min_int64 max_int64.

(** The lookup of a location, [local] being that of [time.Local]. *)
Definition lookupIn (local : Lookup) (l : Location) : Lookup :=
  match l with
  | UTC => lookupUTC
  | Local => local
  end.

(** [t.abs()], counted from 1970: the seconds of the wall clock that
    [t] shows in its location. *)
Definition Time_abs (local : Lookup) (t : Time) : Z :=
  let unix := Time_Unix t in
  wrap64 (unix + offset (lookupIn local (loc t) unix)).

(** The end of [time.Date], from the seconds [unix] of the wall clock
    asked for: the zone is looked up at [unix] itself, and looked up
    again when the instant that this zone gives lies outside its
    period. *)
Definition Date_abs (local : Lookup) (l : Location) (unix ns : Z) : Time :=
  let z := lookupIn local l unix in
  let unix :=
    if negb (offset z =? 0) then
      let utc := wrap64 (unix - offset z) in
      let off := if (utc <? start z) || (end_ z <=? utc)
                 then offset (lookupIn local l utc)
                 else offset z in
      wrap64 (unix - off)
    else unix in
  mkTime (wrap64 (unix + unixToInternal)) ns l.

(** [t.AddDate(0, 0, days)]: the date and the clock of [t] in its
    location, [days] days later, are handed to [time.Date]; a day of the
    calendar moves the wall clock by 86400 seconds. *)
Definition Time_AddDate_days (local : Lookup) (t : Time) (days : Z) : Time :=
  Date_abs local (loc t) (wrap64 (Time_abs local t + 86400 * days)) (nsec t).

End time.

(** * The program *)

(** ** type NextPageToken *)
Module NextPageToken.

Record t : Type := mk {
  Timestamp : time.Time;
  UpdatedAfter : time.Time;
  Offset : Z;
  ValidUntil : time.Time
}.

(** [&NextPageToken{}] *)
Definition zero : t := mk time.zero time.zero 0 time.zero.

(** The receiver is a pointer: [None] is nil. *)
Definition MarshalJSON (tok : option t) : result bytes :=
  match tok with
  | None => Ok [dquote; dquote]
  | Some t =>
      let m := [ (B "t", time.Time_Unix (Timestamp t));
                 (B "o", Offset t);
                 (B "v", time.Time_Unix (ValidUntil t)) ] in
      let m := if negb (time.Time_IsZero (UpdatedAfter t))
               then m ++ [ (B "u", time.Time_Unix (UpdatedAfter t)) ]
               else m in
      let src := json.MarshalMap m in
      Ok (dquote :: base64.Encode src ++ [dquote])
  end.

(** The local struct [v] of [UnmarshalJSON]. *)
Record wire : Type := mkWire {
  v_Timestamp : Z;        (* json:"t" *)
  v_Offset : Z;           (* json:"o" *)
  v_UpdatedAfter : option Z;  (* json:"u", a pointer *)
  v_ValidUntil : Z        (* json:"v" *)
}.

Definition wire_zero : wire := mkWire 0 0 None 0.

(** [json.Unmarshal] on an object: each member in turn is stored in
    the field its key matches, or skipped. *)
Fixpoint storeMembers (ms : list (bytes * json.value)) (v : wire)
  : result wire :=
  match ms with
  | [] => Ok v
  | (key, x) :: ms' =>
      if json.keyMatches (B "t") key then
        n <- json.storeInt x (v_Timestamp v) ;;
        storeMembers ms' (mkWire n (v_Offset v) (v_UpdatedAfter v) (v_ValidUntil v))
      else if json.keyMatches (B "o") key then
        n <- json.storeInt x (v_Offset v) ;;
        storeMembers ms' (mkWire (v_Timestamp v) n (v_UpdatedAfter v) (v_ValidUntil v))
      else if json.keyMatches (B "u") key then
        p <- json.storeIntPtr x ;;
        storeMembers ms' (mkWire (v_Timestamp v) (v_Offset v) p (v_ValidUntil v))
      else if json.keyMatches (B "v") key then
        n <- json.storeInt x (v_ValidUntil v) ;;
        storeMembers ms' (mkWire (v_Timestamp v) (v_Offset v) (v_UpdatedAfter v) n)
      else storeMembers ms' v
  end.

(** [json.Unmarshal(data, &v)] with [v] zero. *)
Definition Unmarshal (data : bytes) : result wire :=
  doc <- json.parse data ;;
  match doc with
  | json.Object ms => storeMembers ms wire_zero
  | json.Null => Ok wire_zero
  | _ => Err UnmarshalTypeError
  end.

(** Returns the receiver after the call, or the error; on an error
    the receiver has not been written. *)
Definition UnmarshalJSON (tok : t) (data : bytes) : result t :=
  buf <- base64.Decode data ;;
  v <- Unmarshal buf ;;
  Ok (mk (time.Unix (v_Timestamp v) 0)
         (match v_UpdatedAfter v with
          | Some u => time.Unix u 0
          | None => UpdatedAfter tok
          end)
         (v_Offset v)
         (time.Unix (v_ValidUntil v) 0)).

End NextPageToken.

(** ** type SyncToken *)
Module SyncToken.

Record t : Type := mk {
  Timestamp : time.Time;
  ValidUntil : time.Time
}.

Definition zero : t := mk time.zero time.zero.

Definition MarshalJSON (tok : option t) : result bytes :=
  match tok with
  | None => Ok [dquote; dquote]
  | Some t =>
      let src := json.MarshalStruct
                   [ (B "t", time.Time_Unix (Timestamp t));
                     (B "v", time.Time_Unix (ValidUntil t)) ] in
      Ok (dquote :: base64.Encode src ++ [dquote])
  end.

Record wire : Type := mkWire {
  v_Timestamp : Z;   (* json:"t" *)
  v_ValidUntil : Z   (* json:"v" *)
}.

Definition wire_zero : wire := mkWire 0 0.

Fixpoint storeMembers (ms : list (bytes * json.value)) (v : wire)
  : result wire :=
  match ms with
  | [] => Ok v
  | (key, x) :: ms' =>
      if json.keyMatches (B "t") key then
        n <- json.storeInt x (v_Timestamp v) ;;
        storeMembers ms' (mkWire n (v_ValidUntil v))
      else if json.keyMatches (B "v") key then
        n <- json.storeInt x (v_ValidUntil v) ;;
        storeMembers ms' (mkWire (v_Timestamp v) n)
      else storeMembers ms' v
  end.

Definition Unmarshal (data : bytes) : result wire :=
  doc <- json.parse data ;;
  match doc with
  | json.Object ms => storeMembers ms wire_zero
  | json.Null => Ok wire_zero
  | _ => Err UnmarshalTypeError
  end.

Definition UnmarshalJSON (tok : t) (data : bytes) : result t :=
  buf <- base64.Decode data ;;
  v <- Unmarshal buf ;;
  Ok (mk (time.Unix (v_Timestamp v) 0) (time.Unix (v_ValidUntil v) 0)).

End SyncToken.

(** ** The list endpoint *)

Record User : Type := mkUser {
  ID : bytes; Name : bytes; Email : bytes; CreatedAt : bytes; UpdatedAt : bytes
}.

(** The fields NextPageToken and SyncToken carry an underscore here,
    the names being those of the modules. *)
Record ListResponse : Type := mkListResponse {
  Users : list User;
  NextPageToken_ : option NextPageToken.t;   (* json:"next_page_token" *)
  SyncToken_ : option SyncToken.t            (* json:"sync_token" *)
}.

(** The two statements [listHandler] sends, with their arguments.  The
    first argument travels as text ([Format(time.DateTime)]); the
    statement here keeps the instant it is made from. *)
Inductive Statement : Type :=
| SelectAsOf (asOf : time.Time) (limit offset : Z)
    (* SELECT * FROM users FOR SYSTEM_TIME AS OF TIMESTAMP ?
       ORDER BY name LIMIT ? OFFSET ? *)
| SelectAsOfUpdatedAfter (asOf updatedAfter : time.Time) (limit offset : Z).
    (* ... WHERE updated_at > ? ORDER BY name LIMIT ? OFFSET ? *)

(** The database: the rows a statement yields, or the failure of
    [db.Query], [rows.Scan] or [rows.Err]. *)
Definition DB : Type := Statement -> result (list User).

(** The readings of [time.Now()] during one request: at line 92, at the
    expiry check (line 106 or 122) and when the continuation is built
    (line 183 or 189); and the local time zone of the server, which
    [AddDate] consults. *)
Record Clock : Type := mkClock {
  now_start : time.Time;
  now_check : time.Time;
  now_issue : time.Time;
  local_zone : time.Lookup
}.

Record Request : Type := mkRequest { RawQuery : bytes }.

Inductive Body : Type :=
| BodyError (e : error)          (* fmt.Fprintf(w, "%+v", err) *)
| BodyText (s : bytes)
| BodyJSON (l : ListResponse).

Record Response : Type := mkResponse { StatusCode : Z; Body_ : Body }.

Definition StatusOK : Z := 200.
Definition StatusBadRequest : Z := 400.
Definition StatusInternalServerError : Z := 500.

Definition isEmpty (s : bytes) : bool :=
  match s with [] => true | _ :: _ => false end.

(** The local variables of [listHandler] after the cursor has been read
    (line 132). *)
Record Vars : Type := mkVars {
  tableInPointOfTime : time.Time;
  onlyNewerThan : time.Time;
  offset : Z;
  nextPageToken : option NextPageToken.t;
  syncToken : option SyncToken.t
}.

(** Lines 92-132: either the early response, or the variables. *)
Definition listHandler_cursor (clock : Clock) (r : Request)
  : Response + Vars :=
  let tableInPointOfTime := time.Time_UTC (now_start clock) in
  let onlyNewerThan := time.zero in
  let offset := 0 in
  let v := url.Get (url.Query (RawQuery r)) (B "sync_token") in
  if negb (isEmpty v) then
    match SyncToken.UnmarshalJSON SyncToken.zero v with
    | Err err => inl (mkResponse StatusBadRequest (BodyError err))
    | Ok syncToken =>
        if time.Time_Before (SyncToken.ValidUntil syncToken) (now_check clock)
        then inl (mkResponse StatusBadRequest (BodyText (B "sync token expired")))
        else inr (mkVars tableInPointOfTime (SyncToken.Timestamp syncToken) 0
                         None None)
    end
  else
    let v := url.Get (url.Query (RawQuery r)) (B "next_page_token") in
    if negb (isEmpty v) then
      match NextPageToken.UnmarshalJSON NextPageToken.zero v with
      | Err err => inl (mkResponse StatusBadRequest (BodyError err))
      | Ok nextPageToken =>
          if time.Time_Before (NextPageToken.ValidUntil nextPageToken)
                              (now_check clock)
          then inl (mkResponse StatusBadRequest
                               (BodyText (B "next page token expired")))
          else inr (mkVars (NextPageToken.Timestamp nextPageToken)
                           (NextPageToken.UpdatedAfter nextPageToken)
                           (NextPageToken.Offset nextPageToken)
                           None None)
      end
    else inr (mkVars tableInPointOfTime onlyNewerThan offset None None).

(** Lines 134-139. *)
Definition listHandler_maxResults (r : Request) : Z :=
  let v := url.Get (url.Query (RawQuery r)) (B "max_results") in
  if negb (isEmpty v) then
    match strconv.Atoi v with
    | Some n => n
    | None => 10
    end
  else 10.

(** Lines 143-158: the statement sent. *)
Definition listHandler_statement (vars : Vars) (maxResults : Z) : Statement :=
  if time.Time_IsZero (onlyNewerThan vars)
  then SelectAsOf (tableInPointOfTime vars) maxResults (offset vars)
  else SelectAsOfUpdatedAfter (tableInPointOfTime vars) (onlyNewerThan vars)
                              maxResults (offset vars).

Definition len {A : Type} (l : list A) : Z := Z.of_nat (List.length l).

(** Lines 182-191: the continuation; the two token variables are still
    as the cursor stage left them. *)
Definition listHandler_continuation (clock : Clock) (vars : Vars)
           (maxResults : Z) (users : list User)
  : option NextPageToken.t * option SyncToken.t :=
  if (len users =? 0) || (len users <? maxResults) then
    (nextPageToken vars,
     Some (SyncToken.mk (tableInPointOfTime vars)
                        (time.Time_AddDate_days (local_zone clock)
                                                (now_issue clock) 1)))
  else
    (Some (NextPageToken.mk (tableInPointOfTime vars)
                            (onlyNewerThan vars)
                            (wrap64 (offset vars + len users))
                            (time.Time_AddDate_days (local_zone clock)
                                                    (now_issue clock) 1)),
     syncToken vars).

Definition listHandler (db : DB) (clock : Clock) (r : Request) : Response :=
  match listHandler_cursor clock r with
  | inl early => early
  | inr vars =>
      let maxResults := listHandler_maxResults r in
      match db (listHandler_statement vars maxResults) with
      | Err err => mkResponse StatusInternalServerError (BodyError err)
      | Ok users =>
          let '(nextPageToken, syncToken) :=
            listHandler_continuation clock vars maxResults users in
          mkResponse StatusOK
                     (BodyJSON (mkListResponse users nextPageToken syncToken))
      end
  end.

(** ** What a client sees and sends *)

(** A token as it stands in the response body: the encoder writes null
    for a nil pointer and the bytes of [MarshalJSON] otherwise; the client
    reads the JSON string. *)
Definition clientString (field : result bytes) : result bytes :=
  js <- field ;;
  doc <- json.parse js ;;
  match doc with
  | json.String raw => Ok (json.unquote raw)
  | _ => Err UnmarshalTypeError
  end.

Definition NextPageToken_text (t : NextPageToken.t) : result bytes :=
  clientString (NextPageToken.MarshalJSON (Some t)).

Definition SyncToken_text (t : SyncToken.t) : result bytes :=
  clientString (SyncToken.MarshalJSON (Some t)).


(** ** Notions used in the statements *)

(** [u] is the instant [t] cut to whole seconds. *)
Definition truncated (t u : time.Time) : Prop :=
  time.sec u = time.sec t /\ time.nsec u = 0.

Definition whole_seconds (t : time.Time) : Prop := time.nsec t = 0.

(** Cursor states are compared as Go's [Time.Equal] compares instants. *)
Definition NextPageToken_same (a b : NextPageToken.t) : Prop :=
  time.Time_Equal (NextPageToken.Timestamp a) (NextPageToken.Timestamp b) = true
  /\ time.Time_Equal (NextPageToken.UpdatedAfter a)
                     (NextPageToken.UpdatedAfter b) = true
  /\ NextPageToken.Offset a = NextPageToken.Offset b
  /\ time.Time_Equal (NextPageToken.ValidUntil a)
                     (NextPageToken.ValidUntil b) = true.

Definition SyncToken_same (a b : SyncToken.t) : Prop :=
  time.Time_Equal (SyncToken.Timestamp a) (SyncToken.Timestamp b) = true
  /\ time.Time_Equal (SyncToken.ValidUntil a) (SyncToken.ValidUntil b) = true.

(** Values a Go program can hold. *)
Definition NextPageToken_wf (t : NextPageToken.t) : Prop :=
  time.wf (NextPageToken.Timestamp t) /\ time.wf (NextPageToken.UpdatedAfter t)
  /\ in_int64 (NextPageToken.Offset t) /\ time.wf (NextPageToken.ValidUntil t).

Definition SyncToken_wf (t : SyncToken.t) : Prop :=
  time.wf (SyncToken.Timestamp t) /\ time.wf (SyncToken.ValidUntil t).

(** Exactly one continuation in a response body. *)
Definition exactly_one (l : ListResponse) : Prop :=
  (NextPageToken_ l <> None /\ SyncToken_ l = None)
  \/ (NextPageToken_ l = None /\ SyncToken_ l <> None).

(** Letters, digits and the padding sign. *)
Definition alnum_or_pad (c : ascii) : bool :=
  isDigit c || isLower c || isUpper c || Ascii.eqb c base64.padChar.

(** A JSON value that a Go integer field accepts. *)
Definition intValue (x : json.value) : bool :=
  match x with
  | json.Null => true
  | json.Number lit =>
      match strconv.ParseInt lit with Some _ => true | None => false end
  | _ => false
  end.

(** The keys that name a field of the next-page token, of the sync token. *)
Definition NextPageToken_field (key : bytes) : bool :=
  json.keyMatches (B "t") key || json.keyMatches (B "o") key
  || json.keyMatches (B "u") key || json.keyMatches (B "v") key.

Definition SyncToken_field (key : bytes) : bool :=
  json.keyMatches (B "t") key || json.keyMatches (B "v") key.

Definition badMember (field : bytes -> bool) (m : bytes * json.value) : bool :=
  field (fst m) && negb (intValue (snd m)).

(** ** Concrete values *)

(** A zone one hour east of UTC all year. *)
Definition ex_zone : time.Lookup :=
  fun _ => time.mkZone 3600 min_int64 max_int64.

(** 2023-11-14 22:13:20.123456789 UTC and two later readings. *)
Definition ex_clock : Clock :=
  mkClock (time.mkTime 63835596800 123456789 time.Local)
          (time.mkTime 63835596800 123460000 time.Local)
          (time.mkTime 63835596800 123470000 time.Local)
          ex_zone.

(** A next-page token as [listHandler] builds it on a first request that
    returned a full page of ten rows. *)
Definition ex_np : NextPageToken.t :=
  NextPageToken.mk (time.Time_UTC (now_start ex_clock)) time.zero 10
                   (time.Time_AddDate_days (local_zone ex_clock)
                                            (now_issue ex_clock) 1).

(** A sync token as [listHandler] builds it. *)
Definition ex_sync : SyncToken.t :=
  SyncToken.mk (time.Time_UTC (now_start ex_clock))
               (time.Time_AddDate_days (local_zone ex_clock)
                                            (now_issue ex_clock) 1).

(** The same states on whole seconds, with an updated_after. *)
Definition ex_np_whole : NextPageToken.t :=
  NextPageToken.mk (time.Unix 1700000000 0) (time.Unix 1699990000 0) 20
                   (time.Unix 1700086400 0).

Definition ex_sync_whole : SyncToken.t :=
  SyncToken.mk (time.Unix 1700000000 0) (time.Unix 1700086400 0).

(** A database with twelve rows that ignores the time and the filter:
    rows [offset .. offset + limit) of the table. *)
Definition ex_user (n : nat) : User :=
  mkUser (B "id") (strconv.FormatInt (Z.of_nat n)) (B "e") (B "c") (B "u").

Definition ex_db : DB :=
  fun st =>
    let '(limit, offset) :=
      match st with
      | SelectAsOf _ l o => (l, o)
      | SelectAsOfUpdatedAfter _ _ l o => (l, o)
      end in
    if (limit <? 0) || (offset <? 0) then Err QueryError
    else Ok (firstn (Z.to_nat limit)
                    (skipn (Z.to_nat offset) (map ex_user (seq 0 12)))).

(** Requests: the first one, and ones carrying a token. *)
Definition ex_first : Request := mkRequest (B "max_results=5").

Definition with_token (param : string) (doc : string) : Request :=
  mkRequest (B param ++ "="%char :: base64.Encode (Q doc)).

Definition ex_sync_request : Request :=
  with_token "sync_token" "{'t':1699990000,'v':99999999999}".

Definition ex_next_request : Request :=
  with_token "next_page_token" "{'o':5,'t':1699990000,'v':99999999999}".

Definition ex_sync_expired : Request :=
  with_token "sync_token" "{'t':1699000000,'v':1699086400}".

Definition ex_next_expired : Request :=
  with_token "next_page_token" "{'o':5,'t':1699000000,'v':1699086400}".

(** Cursors whose filter instant is the zero time: a sync token whose
    timestamp is January 1 of year 1, a next-page token without u. *)
Definition ex_sync_zero : Request :=
  with_token "sync_token" "{'t':-62135596800,'v':99999999999}".

Definition ex_next_zero : Request := ex_next_request.

(** The next-page request with a page size. *)
Definition ex_next_page5 : Request :=
  mkRequest (RawQuery ex_next_request ++ B "&max_results=5").

(** Token texts that do not decode, one for each cause, and texts with
    fields missing. *)
Definition ex_bad_base64 : bytes := B "eyJ0Ijox!".
Definition ex_bad_json : bytes := base64.Encode (Q "{'t':1,").
Definition ex_bad_shape : bytes := base64.Encode (Q "[1700000000,1700086400]").
Definition ex_bad_member : bytes := base64.Encode (Q "{'t':'now','v':99999999999}").
Definition ex_no_fields : bytes := B "e30=".
Definition ex_no_timestamp : Request :=
  with_token "sync_token" "{'v':99999999999}".

(** A document of a shape no token has. *)
Definition wrongShape (doc : json.value) : bool :=
  match doc with
  | json.Object _ | json.Null => false
  | _ => true
  end.

(** The texts [UnmarshalJSON] must refuse: the base64 text is invalid,
    or what it decodes to is not a JSON document, or the document is
    neither an object nor null, or a member that names a field does not
    hold an integer of the machine (or null).  A missing field is none
    of these. *)
Definition undecodable (field : bytes -> bool) (data : bytes) : bool :=
  match base64.Decode data with
  | Err _ => true
  | Ok buf =>
      match json.parse buf with
      | Err _ => true
      | Ok (json.Object ms) => existsb (badMember field) ms
      | Ok doc => wrongShape doc
      end
  end.

(** The bytes of the JSON inside a token. *)
Definition jsonAlphabet : bytes := B "0123456789-{}:,otuv" ++ [dquote].

Definition jsonByte (c : ascii) : bool := existsb (Ascii.eqb c) jsonAlphabet.

(** Bytes that [url.Query] takes as they are, inside a key or a value. *)
Definition queryByte (c : ascii) : bool :=
  negb (existsb (Ascii.eqb c) (B "&;%+")).

(** A parsing result that is not a lack of budget and leaves less input
    than [s]. *)
Definition consumed {A : Type} (res : json.pres A) (s : bytes) : Prop :=
  match res with
  | json.PFuel => False
  | json.PSyntax => True
  | json.POk _ r => (List.length r < List.length s)%nat
  end.

(** ** Notions used in the proofs *)

(** A byte that ends a number. *)
Definition terminator (c : ascii) : Prop :=
  isDigit c = false /\ Ascii.eqb c "." = false
  /\ Ascii.eqb c "e" = false /\ Ascii.eqb c "E" = false.

(** Keys without quote, backslash or control character. *)
Definition plain (c : ascii) : bool :=
  negb (Ascii.eqb c dquote) && negb (Ascii.eqb c "\") && negb (byteZ c <? 32).

(** The document that [MarshalStruct] prints for a list of entries. *)
Definition entries_doc (l : list (bytes * Z)) : list (bytes * json.value) :=
  map (fun e => (fst e, json.Number (strconv.FormatInt (snd e)))) l.

(** The characters of base64 text. *)
Definition b64char (c : ascii) : bool :=
  existsb (Ascii.eqb c) (base64.padChar :: base64.encodeStd).

(** The JSON text inside each token. *)
Definition NextPageToken_json (t : NextPageToken.t) : bytes :=
  json.MarshalStruct
    ((B "o", NextPageToken.Offset t)
     :: (B "t", time.Time_Unix (NextPageToken.Timestamp t))
     :: (if time.Time_IsZero (NextPageToken.UpdatedAfter t) then []
         else [(B "u", time.Time_Unix (NextPageToken.UpdatedAfter t))])
     ++ [(B "v", time.Time_Unix (NextPageToken.ValidUntil t))]).

Definition SyncToken_json (t : SyncToken.t) : bytes :=
  json.MarshalStruct
    [(B "t", time.Time_Unix (SyncToken.Timestamp t));
     (B "v", time.Time_Unix (SyncToken.ValidUntil t))].

(** * More of the program *)

(** ** The instant of a statement *)

Definition statement_asOf (st : Statement) : time.Time :=
  match st with
  | SelectAsOf a _ _ => a
  | SelectAsOfUpdatedAfter a _ _ _ => a
  end.

(** ** Requests a client makes with what it received *)

Definition first_request (m : Z) : Request :=
  mkRequest (B "max_results=" ++ strconv.FormatInt m).

Definition next_request (m : Z) (tok : bytes) : Request :=
  mkRequest (B "next_page_token=" ++ tok
             ++ B "&max_results=" ++ strconv.FormatInt m).

Definition sync_request (m : Z) (tok : bytes) : Request :=
  mkRequest (B "sync_token=" ++ tok
             ++ B "&max_results=" ++ strconv.FormatInt m).

(** An instant cut to whole seconds, as [time.Unix] returns it. *)
Definition seconds (t : time.Time) : time.Time :=
  time.mkTime (time.sec t) 0 time.Local.

(** What a token comes back as. *)
Definition NextPageToken_seconds (t : NextPageToken.t) : NextPageToken.t :=
  NextPageToken.mk (seconds (NextPageToken.Timestamp t))
                   (if time.Time_IsZero (NextPageToken.UpdatedAfter t)
                    then time.zero
                    else seconds (NextPageToken.UpdatedAfter t))
                   (NextPageToken.Offset t)
                   (seconds (NextPageToken.ValidUntil t)).

Definition SyncToken_seconds (t : SyncToken.t) : SyncToken.t :=
  SyncToken.mk (seconds (SyncToken.Timestamp t))
               (seconds (SyncToken.ValidUntil t)).

(** ** A client that reads the list to its end *)

(** The page a table holding [rows], in the order of the statement,
    gives for LIMIT [limit] OFFSET [offset]. *)
Definition page (rows : list User) (limit offset : Z) : list User :=
  firstn (Z.to_nat limit) (skipn (Z.to_nat offset) rows).

(** The flow in the comment of [listHandler] (lines 60-84): the client
    sends a request, keeps the users of the response and, as long as the
    response holds a next-page token, sends that token back with the same
    page size; it stops at the sync token.  A response without status 200
    ends the reading without result, and so does a lack of [budget], the
    number of requests the client is willing to send.  Request number
    [step] meets the clock readings [clocks step]. *)
Fixpoint traverse (db : DB) (clocks : nat -> Clock) (m : Z)
         (budget step : nat) (r : Request)
  : option (list User * SyncToken.t) :=
  match budget with
  | O => None
  | S budget' =>
      let resp := listHandler db (clocks step) r in
      if StatusCode resp =? StatusOK then
        match Body_ resp with
        | BodyJSON l =>
            match NextPageToken_ l, SyncToken_ l with
            | Some n, _ =>
                match NextPageToken_text n with
                | Ok tok =>
                    match traverse db clocks m budget' (S step)
                                   (next_request m tok) with
                    | Some (rest, s) => Some (Users l ++ rest, s)
                    | None => None
                    end
                | Err _ => None
                end
            | None, Some s => Some (Users l, s)
            | None, None => None
            end
        | _ => None
        end
      else None
  end.

(** A filter instant that a next-page token carries unchanged. *)
Definition carried (f : time.Time) : Prop :=
  time.wf f
  /\ (if time.Time_IsZero f then time.zero else seconds f) = f.

(** The seconds from the whole second in which a token is made to its
    expiry, a day of the calendar later in the local zone. *)
Definition lifetime (local : time.Lookup) (issue : time.Time) : Z :=
  time.sec (time.Time_AddDate_days local issue 1) - time.sec issue.

(** The reading [check] is later than [n] seconds after the whole second
    of [issue]. *)
Definition passed (n : Z) (issue check : time.Time) : Prop :=
  time.sec issue + n < time.sec check
  \/ (time.sec issue + n = time.sec check /\ 0 < time.nsec check).

(** The wall clock of the local zone a day after [issue], which
    [AddDate] hands to [time.Date]. *)
Definition nextDay (local : time.Lookup) (issue : time.Time) : Z :=
  wrap64 (time.Time_abs local issue + 86400).

(** Numbers far from the ends of int64, as instants and zone offsets
    are. *)
Definition moderate (x : Z) : Prop := - 2 ^ 61 <= x <= 2 ^ 61.

(** The zone of Central Europe around 2023: two hours east of UTC from
    March 26 to October 29, 01:00 UTC, one hour otherwise. *)
Definition ex_zone_dst : time.Lookup :=
  fun unix =>
    if unix <? 1679792400 then time.mkZone 3600 min_int64 1679792400
    else if unix <? 1698541200 then time.mkZone 7200 1679792400 1698541200
    else time.mkZone 3600 1698541200 max_int64.

(** A request on 2023-10-28 at 22:13:20 UTC, the evening before the
    clocks go back; and one 24 hours and 30 minutes later. *)
Definition ex_clock_dst : Clock :=
  mkClock (time.mkTime 63834128000 123456789 time.Local)
          (time.mkTime 63834128000 123460000 time.Local)
          (time.mkTime 63834128000 123470000 time.Local)
          ex_zone_dst.

Definition ex_clock_dst_later : Clock :=
  mkClock (time.mkTime 63834216200 0 time.Local)
          (time.mkTime 63834216200 100 time.Local)
          (time.mkTime 63834216200 200 time.Local)
          ex_zone_dst.

(** The first page of [ex_first] over [ex_db]. *)
Definition ex_first_page : ListResponse :=
  mkListResponse (map ex_user (seq 0 5))
                 (Some (NextPageToken.mk (time.Time_UTC (now_start ex_clock))
                                         time.zero 5
                                         (time.Time_AddDate_days
                                            (local_zone ex_clock)
                                            (now_issue ex_clock) 1)))
                 None.

(** The same page on the evening before the clocks go back. *)
Definition ex_first_page_dst : ListResponse :=
  mkListResponse (map ex_user (seq 0 5))
                 (Some (NextPageToken.mk
                          (time.Time_UTC (now_start ex_clock_dst))
                          time.zero 5
                          (time.Time_AddDate_days
                             (local_zone ex_clock_dst)
                             (now_issue ex_clock_dst) 1)))
                 None.

(** The test [strconv.Atoi] makes on the value it has read. *)
Definition in_int64b (n : Z) : bool := (min_int64 <=? n) && (n <=? max_int64).

(** A database that is down. *)
Definition ex_db_down : DB := fun _ => Err QueryError.

(** The members of the JSON object inside each token. *)
Definition NextPageToken_members (t : NextPageToken.t)
  : list (bytes * json.value) :=
  (B "o", json.Number (strconv.FormatInt (NextPageToken.Offset t)))
  :: (B "t", json.Number
               (strconv.FormatInt (time.Time_Unix (NextPageToken.Timestamp t))))
  :: (if time.Time_IsZero (NextPageToken.UpdatedAfter t) then []
      else [(B "u", json.Number
                      (strconv.FormatInt
                         (time.Time_Unix (NextPageToken.UpdatedAfter t))))])
  ++ [(B "v", json.Number
                (strconv.FormatInt
                   (time.Time_Unix (NextPageToken.ValidUntil t))))].

Definition SyncToken_members (s : SyncToken.t) : list (bytes * json.value) :=
  [(B "t", json.Number
             (strconv.FormatInt (time.Time_Unix (SyncToken.Timestamp s))));
   (B "v", json.Number
             (strconv.FormatInt (time.Time_Unix (SyncToken.ValidUntil s))))].

(** * Rows *)

(** The table of migrations/00002_users.sql.  [SELECT *] and
    [RETURNING *] give the columns of a row in the order of the table:
    id, name, email, created_at, updated_at (the columns of the system
    versioning are not declared and stay hidden). *)
Module users.

Record Row : Type := mkRow {
  id : bytes;
  name : bytes;
  email : bytes;
  created_at : bytes;
  updated_at : bytes
}.

Definition columns (r : Row) : list bytes :=
  [id r; name r; email r; created_at r; updated_at r].

End users.

(** [Scan(&user.ID, &user.Name, &user.Email, &user.UpdatedAt,
    &user.CreatedAt)] (lines 169 and 218): the columns go to the
    destinations one by one, in order; it is an error when their numbers
    differ.  The destinations are strings, which take every column
    value. *)
Definition Scan (user : User) (cols : list bytes) : result User :=
  match cols with
  | [c1; c2; c3; c4; c5] =>
      let user := mkUser c1 (Name user) (Email user)
                         (CreatedAt user) (UpdatedAt user) in
      let user := mkUser (ID user) c2 (Email user)
                         (CreatedAt user) (UpdatedAt user) in
      let user := mkUser (ID user) (Name user) c3
                         (CreatedAt user) (UpdatedAt user) in
      let user := mkUser (ID user) (Name user) (Email user)
                         (CreatedAt user) c4 in
      let user := mkUser (ID user) (Name user) (Email user)
                         c5 (UpdatedAt user) in
      Ok user
  | _ => Err QueryError
  end.

(** [var user User], the zero value. *)
Definition User_zero : User := mkUser [] [] [] [] [].

(** The loop of lines 166-175 over the rows of a result. *)
Fixpoint scanRows (rows : list (list bytes)) : result (list User) :=
  match rows with
  | [] => Ok []
  | cols :: rows' =>
      user <- Scan User_zero cols ;;
      users <- scanRows rows' ;;
      Ok (user :: users)
  end.

(** The database as the driver shows it: the rows of a statement, each
    a list of column values, or the failure of [db.Query] or
    [rows.Err]. *)
Definition RowDB : Type := Statement -> result (list (list bytes)).

Definition DB_of_rows (rdb : RowDB) : DB :=
  fun st => rows <- rdb st ;; scanRows rows.

(** What [Scan] makes of a row of the table. *)
Definition scanned (row : users.Row) : User :=
  mkUser (users.id row) (users.name row) (users.email row)
         (users.updated_at row) (users.created_at row).

Definition ex_row (n : nat) : users.Row :=
  users.mkRow (B "6f1c") (strconv.FormatInt (Z.of_nat n)) (B "joe@example.com")
              (B "2023-11-14 22:13:20") (B "2023-11-15 08:00:00").

Definition ex_rowdb : RowDB :=
  fun st => Ok (map users.columns (map ex_row (seq 0 3))).

(** * The insert endpoint *)

(** ** Package unicode/utf8 *)
Module utf8.

Definition RuneError : Z := 65533.      (* U+FFFD *)
Definition MaxRune : Z := 1114111.      (* U+10FFFF *)

(** The table [first] with [acceptRanges] for a first byte from 0x80
    on: the size of the sequence and the bounds of its second byte.
    [None] is the entry [xx], a byte that begins no sequence. *)
Definition first (p0 : Z) : option (nat * (Z * Z)) :=
  if p0 <? 194 then None                            (* 0x80-0xC1 *)
  else if p0 <? 224 then Some (2%nat, (128, 191))   (* 0xC2-0xDF *)
  else if p0 =? 224 then Some (3%nat, (160, 191))   (* 0xE0 *)
  else if p0 <? 237 then Some (3%nat, (128, 191))   (* 0xE1-0xEC *)
  else if p0 =? 237 then Some (3%nat, (128, 159))   (* 0xED *)
  else if p0 <? 240 then Some (3%nat, (128, 191))   (* 0xEE-0xEF *)
  else if p0 =? 240 then Some (4%nat, (144, 191))   (* 0xF0 *)
  else if p0 <? 244 then Some (4%nat, (128, 191))   (* 0xF1-0xF3 *)
  else if p0 =? 244 then Some (4%nat, (128, 143))   (* 0xF4 *)
  else None.                                        (* 0xF5-0xFF *)

(** [utf8.DecodeRune]: the rune at the head of [p] and the number of
    bytes it takes; [(RuneError, 1)] where the encoding is invalid. *)
Definition DecodeRune (p : bytes) : Z * nat :=
  match p with
  | [] => (RuneError, 0%nat)
  | c0 :: _ =>
      let p0 := byteZ c0 in
      if p0 <? 128 then (p0, 1%nat)
      else
        match first p0 with
        | None => (RuneError, 1%nat)
        | Some (sz, (lo, hi)) =>
            if (List.length p <? sz)%nat then (RuneError, 1%nat)
            else
              let b1 := byteZ (nth 1 p "000"%char) in
              if (b1 <? lo) || (hi <? b1) then (RuneError, 1%nat)
              else if (sz <=? 2)%nat then
                (Z.lor (Z.shiftl (Z.land p0 31) 6) (Z.land b1 63), 2%nat)
              else
                let b2 := byteZ (nth 2 p "000"%char) in
                if (b2 <? 128) || (191 <? b2) then (RuneError, 1%nat)
                else if (sz <=? 3)%nat then
                  (Z.lor (Z.lor (Z.shiftl (Z.land p0 15) 12)
                                (Z.shiftl (Z.land b1 63) 6))
                         (Z.land b2 63), 3%nat)
                else
                  let b3 := byteZ (nth 3 p "000"%char) in
                  if (b3 <? 128) || (191 <? b3) then (RuneError, 1%nat)
                  else
                    (Z.lor (Z.lor (Z.lor (Z.shiftl (Z.land p0 7) 18)
                                         (Z.shiftl (Z.land b1 63) 12))
                                  (Z.shiftl (Z.land b2 63) 6))
                           (Z.land b3 63), 4%nat)
        end
  end.

(** [utf8.EncodeRune]: the bytes written; a surrogate or a value beyond
    [MaxRune] is written as [RuneError]. *)
Definition EncodeRune (r : Z) : bytes :=
  let i := r mod 2 ^ 32 in
  if i <=? 127 then [Zbyte r]
  else if i <=? 2047 then
    [Zbyte (Z.lor 192 (Z.shiftr r 6)); Zbyte (Z.lor 128 (Z.land r 63))]
  else
    let invalid := (MaxRune <? i) || ((55296 <=? i) && (i <=? 57343)) in
    let r := if invalid then RuneError else r in
    if invalid || (i <=? 65535) then
      [Zbyte (Z.lor 224 (Z.shiftr r 12));
       Zbyte (Z.lor 128 (Z.land (Z.shiftr r 6) 63));
       Zbyte (Z.lor 128 (Z.land r 63))]
    else
      [Zbyte (Z.lor 240 (Z.shiftr r 18));
       Zbyte (Z.lor 128 (Z.land (Z.shiftr r 12) 63));
       Zbyte (Z.lor 128 (Z.land (Z.shiftr r 6) 63));
       Zbyte (Z.lor 128 (Z.land r 63))].

End utf8.

(** ** Package unicode/utf16 *)
Module utf16.

Definition IsSurrogate (r : Z) : bool := (55296 <=? r) && (r <? 57344).

(** [utf16.DecodeRune]: the code point of a surrogate pair, U+FFFD for
    anything else. *)
Definition DecodeRune (r1 r2 : Z) : Z :=
  if (55296 <=? r1) && (r1 <? 56320) && (56320 <=? r2) && (r2 <? 57344)
  then Z.lor (Z.shiftl (r1 - 55296) 10) (r2 - 56320) + 65536
  else 65533.

End utf16.

(** ** Package encoding/json: decoding into a [User] *)
Module decode.

(** [getu4]: the number of a \uXXXX escape at the head of [s], or -1. *)
Definition getu4 (s : bytes) : Z :=
  match s with
  | b :: u :: h1 :: h2 :: h3 :: h4 :: _ =>
      if Ascii.eqb b "\" && Ascii.eqb u "u"
         && isHex h1 && isHex h2 && isHex h3 && isHex h4
      then ((unhex h1 * 16 + unhex h2) * 16 + unhex h3) * 16 + unhex h4
      else -1
  | _ => -1
  end.

(** [unquoteBytes] works on the text between the quotes.  Its first
    loop: the length of the longest prefix free of backslash, quote,
    control character and invalid UTF-8. *)
Fixpoint plainPrefix (fuel : nat) (s : bytes) : nat :=
  match fuel with
  | O => 0%nat
  | S fuel' =>
      match s with
      | [] => 0%nat
      | c :: r =>
          if Ascii.eqb c "\" || Ascii.eqb c dquote || (byteZ c <? 32)
          then 0%nat
          else if byteZ c <? 128 then S (plainPrefix fuel' r)
          else
            let '(rr, size) := utf8.DecodeRune s in
            if (rr =? utf8.RuneError) && (size =? 1)%nat then 0%nat
            else (size + plainPrefix fuel' (skipn size s))%nat
      end
  end.

(** Its second loop, from the first unusual character on: escapes are
    replaced, a surrogate pair becomes one rune, a lone surrogate and
    invalid UTF-8 become U+FFFD.  [None] is the return with [ok] false;
    every turn takes at least one byte, so the length of [s] is fuel
    enough. *)
Fixpoint unquoteLoop (fuel : nat) (s : bytes) : option bytes :=
  match s with
  | [] => Some []
  | c :: r =>
      match fuel with
      | O => None
      | S fuel' =>
          if Ascii.eqb c "\" then
            match r with
            | [] => None
            | e :: r1 =>
                if Ascii.eqb e dquote || Ascii.eqb e "\" || Ascii.eqb e "/"
                   || Ascii.eqb e "'"
                then option_map (cons e) (unquoteLoop fuel' r1)
                else if Ascii.eqb e "b"
                then option_map (cons "008"%char) (unquoteLoop fuel' r1)
                else if Ascii.eqb e "f"
                then option_map (cons "012"%char) (unquoteLoop fuel' r1)
                else if Ascii.eqb e "n"
                then option_map (cons "010"%char) (unquoteLoop fuel' r1)
                else if Ascii.eqb e "r"
                then option_map (cons "013"%char) (unquoteLoop fuel' r1)
                else if Ascii.eqb e "t"
                then option_map (cons "009"%char) (unquoteLoop fuel' r1)
                else if Ascii.eqb e "u" then
                  let rr := getu4 s in
                  if rr <? 0 then None
                  else
                    let s6 := skipn 6 s in
                    if utf16.IsSurrogate rr then
                      let rr1 := getu4 s6 in
                      let dec := utf16.DecodeRune rr rr1 in
                      if negb (dec =? 65533) then
                        option_map (app (utf8.EncodeRune dec))
                                   (unquoteLoop fuel' (skipn 6 s6))
                      else
                        option_map (app (utf8.EncodeRune 65533))
                                   (unquoteLoop fuel' s6)
                    else
                      option_map (app (utf8.EncodeRune rr))
                                 (unquoteLoop fuel' s6)
                else None
            end
          else if Ascii.eqb c dquote || (byteZ c <? 32) then None
          else if byteZ c <? 128 then
            option_map (cons c) (unquoteLoop fuel' r)
          else
            let '(rr, size) := utf8.DecodeRune s in
            option_map (app (utf8.EncodeRune rr))
                       (unquoteLoop fuel' (skipn size s))
      end
  end.

Definition unquoteBytes (s : bytes) : option bytes :=
  let r := plainPrefix (List.length s) s in
  if (r =? List.length s)%nat then Some s
  else option_map (app (firstn r s)) (unquoteLoop (List.length s) (skipn r s)).

(** [d.saveError]: the first error is kept. *)
Definition saveError (saved : option error) (e : error) : option error :=
  match saved with
  | Some _ => saved
  | None => Some e
  end.

(** Storing a JSON value in a string field: a string is unquoted,
    [null] leaves the field alone, anything else is a type error, which
    is saved while the decoding goes on.  [None] is the panic of
    [literalStore] on a string that does not unquote. *)
Definition storeString (v : json.value) (old : bytes) (saved : option error)
  : option (bytes * option error) :=
  match v with
  | json.String raw =>
      match unquoteBytes raw with
      | Some t => Some (t, saved)
      | None => None
      end
  | json.Null => Some (old, saved)
  | _ => Some (old, saveError saved UnmarshalTypeError)
  end.

(** A key names a field when both are equal or have the same folding.
    The folding is that of [json.foldName], on ASCII: Go also folds the
    two letters U+017F and U+212A, to S and K, which no field name of
    [User] holds. *)
Definition fieldIs (name : string) (key : bytes) : bool :=
  bytes_eqb key (B name)
  || bytes_eqb (json.foldName key) (json.foldName (B name)).

(** [d.object] on a [User]: every key is unquoted, the member of a field
    is stored, the others are skipped. *)
Fixpoint storeUserMembers (ms : list (bytes * json.value)) (user : User)
         (saved : option error) : option (User * option error) :=
  match ms with
  | [] => Some (user, saved)
  | (rawkey, x) :: ms' =>
      match unquoteBytes rawkey with
      | None => None
      | Some key =>
          if fieldIs "id" key then
            match storeString x (ID user) saved with
            | None => None
            | Some (t, saved') =>
                storeUserMembers ms'
                  (mkUser t (Name user) (Email user)
                          (CreatedAt user) (UpdatedAt user)) saved'
            end
          else if fieldIs "name" key then
            match storeString x (Name user) saved with
            | None => None
            | Some (t, saved') =>
                storeUserMembers ms'
                  (mkUser (ID user) t (Email user)
                          (CreatedAt user) (UpdatedAt user)) saved'
            end
          else if fieldIs "email" key then
            match storeString x (Email user) saved with
            | None => None
            | Some (t, saved') =>
                storeUserMembers ms'
                  (mkUser (ID user) (Name user) t
                          (CreatedAt user) (UpdatedAt user)) saved'
            end
          else if fieldIs "created_at" key then
            match storeString x (CreatedAt user) saved with
            | None => None
            | Some (t, saved') =>
                storeUserMembers ms'
                  (mkUser (ID user) (Name user) (Email user)
                          t (UpdatedAt user)) saved'
            end
          else if fieldIs "updated_at" key then
            match storeString x (UpdatedAt user) saved with
            | None => None
            | Some (t, saved') =>
                storeUserMembers ms'
                  (mkUser (ID user) (Name user) (Email user)
                          (CreatedAt user) t) saved'
            end
          else storeUserMembers ms' user saved
      end
  end.

(** [d.unmarshal] into a [*User]: an object fills the fields, [null]
    changes nothing, every other value is a type error. *)
Definition unmarshalUser (v : json.value) (user : User)
  : option (result User) :=
  match v with
  | json.Object ms =>
      match storeUserMembers ms user None with
      | None => None
      | Some (user', None) => Some (Ok user')
      | Some (_, Some e) => Some (Err e)
      end
  | json.Null => Some (Ok user)
  | json.String raw =>
      match unquoteBytes raw with
      | None => None
      | Some _ => Some (Err UnmarshalTypeError)
      end
  | _ => Some (Err UnmarshalTypeError)
  end.

(** [json.NewDecoder(body).Decode(&user)], the body read to its end: the
    first JSON value of the body, after white space, is decoded; what
    follows that value is not looked at.  A body without such a value
    gives [io.EOF], [io.ErrUnexpectedEOF] or a [*SyntaxError], all
    written [SyntaxError] here. *)
Definition Decode (body : bytes) (user : User) : option (result User) :=
  match json.parseValue (2 * List.length body + 2) 0 (json.skipSpace body) with
  | json.POk v _ => unmarshalUser v user
  | _ => Some (Err SyntaxError)
  end.

End decode.

(** ** insertHandler *)

(** The database behind [db.QueryRow]: the row that
    [INSERT INTO users (name, email) VALUES (?, ?) RETURNING *] returns
    for its two arguments, or the failure that [row.Scan] reports (of the
    statement, or [sql.ErrNoRows]). *)
Definition InsertDB : Type := bytes -> bytes -> result (list bytes).

Inductive InsertBody : Type :=
| InsertError (e : error)       (* fmt.Fprintf(w, "%+v", err) *)
| InsertUser (user : User).     (* json.NewEncoder(w).Encode(user) *)

Record InsertResponse : Type :=
  mkInsertResponse { InsertStatus : Z; InsertBody_ : InsertBody }.

(** Lines 205-235.  [None]: the decoder panicked and the server sent no
    response. *)
Definition insertHandler (db : InsertDB) (body : bytes)
  : option InsertResponse :=
  match decode.Decode body User_zero with
  | None => None
  | Some (Err err) => Some (mkInsertResponse StatusBadRequest (InsertError err))
  | Some (Ok user) =>
      match db (Name user) (Email user) with
      | Err err =>
          Some (mkInsertResponse StatusInternalServerError (InsertError err))
      | Ok cols =>
          match Scan user cols with
          | Err err =>
              Some (mkInsertResponse StatusInternalServerError
                                     (InsertError err))
          | Ok user => Some (mkInsertResponse StatusOK (InsertUser user))
          end
      end
  end.

(** The body the client of bruno/database-iteration posts. *)
Definition insert_body (name email : bytes) : bytes :=
  Q "{'name':'" ++ name ++ Q "','email':'" ++ email ++ Q "'}".

(** ASCII text without quote, backslash or control character. *)
Definition printable (c : ascii) : bool := plain c && (byteZ c <? 128).

(** An insert that returns the row it made. *)
Definition ex_insertdb : InsertDB :=
  fun name email =>
    Ok (users.columns
          (users.mkRow (B "6f1c") name email
                       (B "2023-11-14 22:13:20") (B "2023-11-14 22:13:20"))).

(** The text between the quotes of a string the scanner has accepted:
    bytes other than quote, backslash and control characters, the
    two-byte escapes, and \u with four hexadecimal digits. *)
Inductive stringText : bytes -> Prop :=
| text_end : stringText []
| text_byte c s :
    Ascii.eqb c dquote = false -> Ascii.eqb c "\" = false ->
    (byteZ c <? 32) = false ->
    stringText s -> stringText (c :: s)
| text_escape e s :
    json.isSimpleEscape e = true ->
    stringText s -> stringText ("\"%char :: e :: s)
| text_unicode h1 h2 h3 h4 s :
    isHex h1 && isHex h2 && isHex h3 && isHex h4 = true ->
    stringText s ->
    stringText ("\"%char :: "u"%char :: h1 :: h2 :: h3 :: h4 :: s).

(** The strings of the members of an object are such texts. *)
Definition memberText (m : bytes * json.value) : Prop :=
  stringText (fst m)
  /\ match snd m with
     | json.String raw => stringText raw
     | _ => True
     end.

(** ** What a body makes of the fields *)

(** The first value of a body, as [Decode] reads it. *)
Definition firstValue (body : bytes) : option json.value :=
  match json.parseValue (2 * List.length body + 2) 0 (json.skipSpace body) with
  | json.POk v _ => Some v
  | _ => None
  end.

Definition knownField (key : bytes) : bool :=
  decode.fieldIs "id" key || decode.fieldIs "name" key
  || decode.fieldIs "email" key || decode.fieldIs "created_at" key
  || decode.fieldIs "updated_at" key.

(** A member that names a field of [User] and holds neither a string
    nor null. *)
Definition badUserMember (m : bytes * json.value) : bool :=
  match decode.unquoteBytes (fst m) with
  | Some key =>
      knownField key
      && match snd m with
         | json.String _ | json.Null => false
         | _ => true
         end
  | None => false
  end.

(** The field [name] after the member [m], [old] being its content
    before. *)
Definition takes (name : string) (old : bytes) (m : bytes * json.value)
  : bytes :=
  match decode.unquoteBytes (fst m) with
  | Some key =>
      if decode.fieldIs name key then
        match snd m with
        | json.String raw =>
            match decode.unquoteBytes raw with
            | Some t => t
            | None => old
            end
        | _ => old
        end
      else old
  | None => old
  end.

(** The last string that the members give to the field [name]; empty
    when there is none. *)
Definition lastString (name : string) (ms : list (bytes * json.value))
  : bytes :=
  fold_left (takes name) ms [].

(** Lines 213-234: the insert and the answer, for a name and an email. *)
Definition insertRow (db : InsertDB) (name email : bytes) : InsertResponse :=
  match db name email with
  | Err err => mkInsertResponse StatusInternalServerError (InsertError err)
  | Ok [c1; c2; c3; c4; c5] =>
      mkInsertResponse StatusOK (InsertUser (mkUser c1 c2 c3 c5 c4))
  | Ok _ => mkInsertResponse StatusInternalServerError (InsertError QueryError)
  end.

(** The user after the members of an object. *)
Definition afterMembers (ms : list (bytes * json.value)) (user : User) : User :=
  mkUser (fold_left (takes "id") ms (ID user))
         (fold_left (takes "name") ms (Name user))
         (fold_left (takes "email") ms (Email user))
         (fold_left (takes "created_at") ms (CreatedAt user))
         (fold_left (takes "updated_at") ms (UpdatedAt user)).

(** ** The wall clock of an instant *)

(** [Format(time.DateTime)] prints the wall clock of the instant in its
    location: the seconds moved by the offset of the location
    ([Time.abs]), [localOffset] being the offset of the local zone. *)
Definition wallClock (localOffset : Z) (t : time.Time) : Z :=
  time.sec t + match time.loc t with
               | time.UTC => 0
               | time.Local => localOffset
               end.

(** * Properties *)

(** ** Bytes *)

Lemma byteZ_range c : 0 <= byteZ c < 256.
Proof.
  unfold byteZ. pose proof (N_ascii_bounded c). lia.
Qed.

Lemma land255 x : Z.land x 255 = x mod 256.
Proof. change 255 with (Z.ones 8). rewrite Z.land_ones by lia. reflexivity. Qed.

Lemma land63 x : Z.land x 63 = x mod 64.
Proof. change 63 with (Z.ones 6). rewrite Z.land_ones by lia. reflexivity. Qed.

Lemma Zbyte_byteZ c : Zbyte (byteZ c) = c.
Proof.
  unfold Zbyte. rewrite land255, Z.mod_small by apply byteZ_range.
  unfold byteZ. rewrite N2Z.id. apply ascii_N_embedding.
Qed.

Lemma byteZ_Zbyte z : 0 <= z < 256 -> byteZ (Zbyte z) = z.
Proof.
  intros H. unfold Zbyte, byteZ. rewrite land255, Z.mod_small by lia.
  rewrite N_ascii_embedding by lia. lia.
Qed.

Lemma bytes_eqb_eq x y : bytes_eqb x y = true <-> x = y.
Proof.
  revert y. induction x as [|a x IH]; destruct y as [|b y]; simpl;
    try (split; [discriminate | congruence]); [tauto|].
  rewrite andb_true_iff, Ascii.eqb_eq, IH. split.
  - intros [-> ->]. reflexivity.
  - intros E. inversion E. auto.
Qed.

Lemma bytes_eqb_refl x : bytes_eqb x x = true.
Proof. apply bytes_eqb_eq. reflexivity. Qed.

(** ** Bit arithmetic of a base64 quantum *)

Ltac pow2_consts :=
  repeat match goal with
         | |- context [2 ^ ?k] =>
             let v := eval compute in (2 ^ k) in change (2 ^ k) with v
         | H : context [2 ^ ?k] |- _ =>
             let v := eval compute in (2 ^ k) in change (2 ^ k) with v in H
         end.

Ltac pow2_arith := pow2_consts; try lia; Z.div_mod_to_equations; lia.

Lemma land_mult_small hi lo k :
  0 <= k -> hi mod 2 ^ k = 0 -> 0 <= lo < 2 ^ k -> Z.land hi lo = 0.
Proof.
  intros Hk Hhi Hlo. apply Z.bits_inj'. intros n Hn.
  rewrite Z.land_spec, Z.bits_0.
  destruct (Z.ltb_spec n k).
  - rewrite <- (Z.mod_pow2_bits_low hi k n) by lia.
    rewrite Hhi, Z.bits_0. reflexivity.
  - rewrite <- (Z.mod_small lo (2 ^ k)) by lia.
    rewrite Z.mod_pow2_bits_high by lia. apply andb_false_r.
Qed.

Lemma lor_add hi lo k :
  0 <= k -> hi mod 2 ^ k = 0 -> 0 <= lo < 2 ^ k -> Z.lor hi lo = hi + lo.
Proof.
  intros. pose proof (Z.add_lor_land hi lo) as E.
  rewrite (land_mult_small hi lo k) in E by assumption. lia.
Qed.

Lemma val3_add a b c :
  0 <= a < 256 -> 0 <= b < 256 -> 0 <= c < 256 ->
  Z.lor (Z.lor (Z.shiftl a 16) (Z.shiftl b 8)) c = 65536 * a + 256 * b + c.
Proof.
  intros. rewrite !Z.shiftl_mul_pow2 by lia.
  rewrite (lor_add (a * 2 ^ 16) (b * 2 ^ 8) 16) by pow2_arith.
  rewrite (lor_add _ c 8) by pow2_arith.
  pow2_arith.
Qed.

Lemma val4_add v :
  0 <= v < 2 ^ 24 ->
  Z.lor (Z.lor (Z.lor (Z.shiftl (Z.land (Z.shiftr v 18) 63) 18)
                      (Z.shiftl (Z.land (Z.shiftr v 12) 63) 12))
               (Z.shiftl (Z.land (Z.shiftr v 6) 63) 6))
        (Z.land (Z.shiftr v 0) 63) = v.
Proof.
  intros Hv. rewrite !land63, !Z.shiftr_div_pow2, !Z.shiftl_mul_pow2 by lia.
  rewrite (lor_add _ (_ * 2 ^ 12) 18) by pow2_arith.
  rewrite (lor_add _ (_ * 2 ^ 6) 12) by pow2_arith.
  rewrite (lor_add _ ((v / 2 ^ 0) mod 64) 6) by pow2_arith.
  pow2_arith.
Qed.

Lemma Zbyte_mod z c : z mod 256 = byteZ c -> Zbyte z = c.
Proof.
  intros E. unfold Zbyte. rewrite land255, E. unfold byteZ.
  rewrite N2Z.id. apply ascii_N_embedding.
Qed.

(** The three bytes of a 24-bit value. *)
Lemma bytes_of_val3 a b c :
  let v := 65536 * byteZ a + 256 * byteZ b + byteZ c in
  [Zbyte (Z.shiftr v 16); Zbyte (Z.shiftr v 8); Zbyte (Z.shiftr v 0)] = [a; b; c].
Proof.
  intros v. subst v.
  pose proof (byteZ_range a). pose proof (byteZ_range b).
  pose proof (byteZ_range c).
  rewrite !Z.shiftr_div_pow2 by lia.
  repeat f_equal; apply Zbyte_mod; pow2_arith.
Qed.

(** ** base64: decoding inverts encoding *)

Lemma list_ind3 (P : bytes -> Prop) :
  P [] -> (forall a, P [a]) -> (forall a b, P [a; b]) ->
  (forall a b c r, P r -> P (a :: b :: c :: r)) ->
  forall l, P l.
Proof.
  intros H0 H1 H2 H3. fix IH 1. intros [|a [|b [|c r]]].
  - exact H0.
  - apply H1.
  - apply H2.
  - apply H3. apply IH.
Qed.

Lemma decodeMap_encode_nat n :
  (n < 64)%nat ->
  base64.decodeMap (nth n base64.encodeStd "000"%char) = Some (Z.of_nat n).
Proof.
  intros H.
  do 64 (destruct n as [|n]; [reflexivity|]). lia.
Qed.

Lemma decodeMap_encode i :
  0 <= i < 64 -> base64.decodeMap (base64.encode i) = Some i.
Proof.
  intros H. unfold base64.encode.
  rewrite decodeMap_encode_nat by lia. f_equal. lia.
Qed.

Lemma decodeMap_sextet v k :
  base64.decodeMap (base64.sextet v k) = Some (Z.land (Z.shiftr v k) 63).
Proof.
  unfold base64.sextet. apply decodeMap_encode.
  rewrite land63. apply Z.mod_pos_bound. lia.
Qed.

Lemma decodeLoop_full c0 c1 c2 c3 x0 x1 x2 x3 rest :
  base64.decodeMap c0 = Some x0 -> base64.decodeMap c1 = Some x1 ->
  base64.decodeMap c2 = Some x2 -> base64.decodeMap c3 = Some x3 ->
  base64.decodeLoop (c0 :: c1 :: c2 :: c3 :: rest) [] =
  (tl <- base64.decodeLoop rest [] ;; Ok (base64.quantum [x0; x1; x2; x3] 4 ++ tl)).
Proof.
  intros E0 E1 E2 E3. cbn [base64.decodeLoop].
  rewrite E0. cbn [app List.length Nat.eqb].
  rewrite E1. cbn [app List.length Nat.eqb].
  rewrite E2. cbn [app List.length Nat.eqb].
  rewrite E3. cbn [app List.length Nat.eqb].
  reflexivity.
Qed.

Lemma decodeLoop_pad1 c0 c1 c2 x0 x1 x2 :
  base64.decodeMap c0 = Some x0 -> base64.decodeMap c1 = Some x1 ->
  base64.decodeMap c2 = Some x2 ->
  base64.decodeLoop [c0; c1; c2; base64.padChar] [] =
  Ok (base64.quantum [x0; x1; x2] 3).
Proof.
  intros E0 E1 E2. cbn [base64.decodeLoop].
  rewrite E0. cbn [app List.length Nat.eqb].
  rewrite E1. cbn [app List.length Nat.eqb].
  rewrite E2. cbn [app List.length Nat.eqb].
  reflexivity.
Qed.

Lemma decodeLoop_pad2 c0 c1 x0 x1 :
  base64.decodeMap c0 = Some x0 -> base64.decodeMap c1 = Some x1 ->
  base64.decodeLoop [c0; c1; base64.padChar; base64.padChar] [] =
  Ok (base64.quantum [x0; x1] 2).
Proof.
  intros E0 E1. cbn [base64.decodeLoop].
  rewrite E0. cbn [app List.length Nat.eqb].
  rewrite E1. cbn [app List.length Nat.eqb].
  reflexivity.
Qed.

Lemma quantum_full a b c :
  let v := Z.lor (Z.lor (Z.shiftl (byteZ a) 16) (Z.shiftl (byteZ b) 8)) (byteZ c) in
  base64.quantum [Z.land (Z.shiftr v 18) 63; Z.land (Z.shiftr v 12) 63;
                  Z.land (Z.shiftr v 6) 63; Z.land (Z.shiftr v 0) 63] 4
  = [a; b; c].
Proof.
  intros v. pose proof (byteZ_range a). pose proof (byteZ_range b).
  pose proof (byteZ_range c).
  assert (Ev : v = 65536 * byteZ a + 256 * byteZ b + byteZ c)
    by (apply val3_add; assumption).
  clearbody v. unfold base64.quantum. cbn [nth Nat.sub firstn].
  rewrite val4_add by (rewrite Ev; pow2_arith).
  rewrite Ev. apply bytes_of_val3.
Qed.

Lemma quantum_two a b :
  let v := Z.lor (Z.shiftl (byteZ a) 16) (Z.shiftl (byteZ b) 8) in
  base64.quantum [Z.land (Z.shiftr v 18) 63; Z.land (Z.shiftr v 12) 63;
                  Z.land (Z.shiftr v 6) 63] 3
  = [a; b].
Proof.
  intros v. pose proof (byteZ_range a). pose proof (byteZ_range b).
  assert (Ev : v = 65536 * byteZ a + 256 * byteZ b + byteZ "000"%char).
  { rewrite <- val3_add by (try assumption; apply byteZ_range).
    change (byteZ "000") with 0. rewrite Z.lor_0_r. reflexivity. }
  clearbody v. change (byteZ "000") with 0 in Ev.
  unfold base64.quantum. cbn [nth Nat.sub firstn].
  match goal with
  | |- context [Z.shiftr ?X 16] =>
      assert (EX : X = v);
      [ etransitivity; [|apply (val4_add v); rewrite Ev; pow2_arith];
        f_equal; rewrite land63, Z.shiftr_div_pow2, Ev by lia; pow2_arith
      | rewrite EX ]
  end.
  rewrite Ev. pose proof (bytes_of_val3 a b "000"%char) as E. cbv zeta in E.
  change (byteZ "000") with 0 in E.
  exact (f_equal (firstn 2) E).
Qed.

Lemma quantum_one a :
  let v := Z.shiftl (byteZ a) 16 in
  base64.quantum [Z.land (Z.shiftr v 18) 63; Z.land (Z.shiftr v 12) 63] 2 = [a].
Proof.
  intros v. pose proof (byteZ_range a).
  assert (Ev : v = 65536 * byteZ a + 256 * byteZ "000"%char + byteZ "000"%char).
  { rewrite <- val3_add by (try assumption; apply byteZ_range).
    change (byteZ "000") with 0. rewrite Z.shiftl_0_l, !Z.lor_0_r. reflexivity. }
  clearbody v. change (byteZ "000") with 0 in Ev.
  unfold base64.quantum. cbn [nth Nat.sub firstn].
  match goal with
  | |- context [Z.shiftr ?X 16] =>
      assert (EX : X = v);
      [ etransitivity; [|apply (val4_add v); rewrite Ev; pow2_arith];
        f_equal; [f_equal; rewrite Z.shiftl_0_l, Z.shiftl_mul_pow2 by lia|];
        rewrite land63, Z.shiftr_div_pow2, Ev by lia; pow2_arith
      | rewrite EX ]
  end.
  rewrite Ev. pose proof (bytes_of_val3 a "000"%char "000"%char) as E.
  cbv zeta in E. change (byteZ "000") with 0 in E.
  exact (f_equal (firstn 1) E).
Qed.

(** [Decode] undoes [Encode] on every byte string. *)
Lemma Decode_Encode src : base64.Decode (base64.Encode src) = Ok src.
Proof.
  unfold base64.Decode. induction src as [|a|a b|a b c r IH] using list_ind3.
  - reflexivity.
  - cbn [base64.Encode].
    rewrite (decodeLoop_pad2 _ _ _ _ (decodeMap_sextet _ _) (decodeMap_sextet _ _)).
    f_equal. apply quantum_one.
  - cbn [base64.Encode].
    rewrite (decodeLoop_pad1 _ _ _ _ _ _ (decodeMap_sextet _ _)
               (decodeMap_sextet _ _) (decodeMap_sextet _ _)).
    f_equal. apply quantum_two.
  - cbn [base64.Encode].
    rewrite (decodeLoop_full _ _ _ _ _ _ _ _ _ (decodeMap_sextet _ _)
               (decodeMap_sextet _ _) (decodeMap_sextet _ _) (decodeMap_sextet _ _)).
    rewrite IH. cbn [bind]. f_equal.
    rewrite quantum_full. reflexivity.
Qed.

(** ** strconv: printing and reading decimal integers *)

Lemma log2_div10 u : 10 <= u -> Z.log2 (u / 10) < Z.log2 u.
Proof.
  intros H.
  assert (Z.log2 (u / 10) <= Z.log2 (u / 2))
    by (apply Z.log2_le_mono; Z.div_mod_to_equations; lia).
  assert (E : u / 2 = Z.shiftr u 1)
    by (rewrite Z.shiftr_div_pow2 by lia; reflexivity).
  rewrite E, Z.log2_shiftr in H0 by lia.
  assert (0 < Z.log2 u) by (apply Z.log2_pos; lia). lia.
Qed.

Lemma isDigit_digit d : 0 <= d < 10 -> isDigit (strconv.digit d) = true.
Proof.
  intros H.
  assert (C : d = 0 \/ d = 1 \/ d = 2 \/ d = 3 \/ d = 4 \/ d = 5 \/ d = 6
              \/ d = 7 \/ d = 8 \/ d = 9) by lia.
  repeat destruct C as [-> | C]; try subst d; reflexivity.
Qed.

Lemma byteZ_digit d : 0 <= d < 10 -> byteZ (strconv.digit d) - 48 = d.
Proof.
  intros H. unfold strconv.digit. rewrite byteZ_Zbyte by lia. lia.
Qed.

Lemma nonzero_digit d : 1 <= d < 10 -> in_range "1" "9" (strconv.digit d) = true.
Proof.
  intros H.
  assert (C : d = 1 \/ d = 2 \/ d = 3 \/ d = 4 \/ d = 5 \/ d = 6
              \/ d = 7 \/ d = 8 \/ d = 9) by lia.
  repeat destruct C as [-> | C]; try subst d; reflexivity.
Qed.

(** Reading what [formatBits] wrote continues from the value written. *)
Lemma parseDigits_formatBits fuel :
  forall u acc, 0 <= u -> Z.log2 u < Z.of_nat fuel ->
    strconv.parseDigits (strconv.formatBits fuel u acc) 0 =
    strconv.parseDigits acc u.
Proof.
  induction fuel as [|fuel IH]; intros u acc Hu Hf.
  - pose proof (Z.log2_nonneg u). lia.
  - cbn [strconv.formatBits]. destruct (Z.ltb_spec u 10) as [Hlt | Hge].
    + cbn [strconv.parseDigits].
      rewrite isDigit_digit, byteZ_digit by lia. f_equal.
    + rewrite IH.
      * cbn [strconv.parseDigits].
        rewrite isDigit_digit, byteZ_digit by (apply Z.mod_pos_bound; lia).
        f_equal. Z.div_mod_to_equations. lia.
      * Z.div_mod_to_equations. lia.
      * pose proof (log2_div10 u Hge). lia.
Qed.

(** The shape of a printed positive number: a nonzero digit, then digits. *)
Lemma formatBits_shape fuel :
  forall u acc, 0 < u -> Z.log2 u < Z.of_nat fuel ->
    exists c ds, strconv.formatBits fuel u acc = c :: ds ++ acc
                 /\ in_range "1" "9" c = true
                 /\ Forall (fun x => isDigit x = true) ds.
Proof.
  induction fuel as [|fuel IH]; intros u acc Hu Hf.
  - pose proof (Z.log2_nonneg u). lia.
  - cbn [strconv.formatBits]. destruct (Z.ltb_spec u 10) as [Hlt | Hge].
    + exists (strconv.digit u), []. repeat split.
      * apply nonzero_digit. lia.
      * constructor.
    + destruct (IH (u / 10) (strconv.digit (u mod 10) :: acc))
        as (c & ds & E & Hc & Hds).
      * Z.div_mod_to_equations. lia.
      * pose proof (log2_div10 u Hge). lia.
      * exists c, (ds ++ [strconv.digit (u mod 10)]). repeat split.
        -- rewrite E, <- app_assoc. reflexivity.
        -- exact Hc.
        -- apply Forall_app. split; [exact Hds|].
           constructor; [|constructor].
           apply isDigit_digit. apply Z.mod_pos_bound. lia.
Qed.

Lemma log2_fuel u : Z.log2 u < Z.of_nat (S (Z.to_nat (Z.log2 u))).
Proof. pose proof (Z.log2_nonneg u). lia. Qed.

Lemma FormatUint_shape u :
  0 <= u ->
  (u = 0 /\ strconv.FormatUint u = ["0"%char]) \/
  (exists c ds, strconv.FormatUint u = c :: ds
                /\ in_range "1" "9" c = true
                /\ Forall (fun x => isDigit x = true) ds).
Proof.
  intros Hu. destruct (Z.eq_dec u 0) as [-> | Hne].
  - left. split; reflexivity.
  - right. destruct (formatBits_shape _ u [] ltac:(lia) (log2_fuel u))
      as (c & ds & E & Hc & Hds).
    exists c, ds. rewrite app_nil_r in E. auto.
Qed.

Lemma parseDigits_FormatUint u :
  0 <= u -> strconv.parseDigits (strconv.FormatUint u) 0 = Some u.
Proof.
  intros Hu. unfold strconv.FormatUint.
  rewrite parseDigits_formatBits by (try assumption; apply log2_fuel).
  reflexivity.
Qed.

Lemma in_range_19_isDigit c : in_range "1" "9" c = true -> isDigit c = true.
Proof.
  unfold isDigit, in_range. rewrite !andb_true_iff, !Z.leb_le.
  change (byteZ "1") with 49. change (byteZ "0") with 48. lia.
Qed.

(** The first byte of a printed unsigned number is a digit. *)
Lemma FormatUint_head u :
  0 <= u ->
  exists c ds, strconv.FormatUint u = c :: ds /\ isDigit c = true
               /\ Forall (fun x => isDigit x = true) ds.
Proof.
  intros Hu. destruct (FormatUint_shape u Hu) as [[_ E] | (c & ds & E & Hc & Hds)].
  - exists "0"%char, []. rewrite E. repeat split. constructor.
  - exists c, ds. repeat split; auto using in_range_19_isDigit.
Qed.

Lemma isDigit_not_sign c :
  isDigit c = true -> Ascii.eqb c "-" = false /\ Ascii.eqb c "+" = false.
Proof.
  intros H. split; apply Ascii.eqb_neq; intros ->; discriminate.
Qed.

(** [ParseInt] reads back what [FormatInt] printed. *)
Lemma ParseInt_FormatInt i :
  in_int64 i -> strconv.ParseInt (strconv.FormatInt i) = Some i.
Proof.
  intros [Hlo Hhi]. unfold strconv.FormatInt.
  destruct (Z.ltb_spec i 0) as [Hneg | Hpos].
  - unfold strconv.ParseInt. cbn [Ascii.eqb Bool.eqb].
    destruct (FormatUint_head (- i) ltac:(lia)) as (c & ds & E & _ & _).
    rewrite parseDigits_FormatUint by lia. rewrite E.
    replace (- - i) with i by lia.
    destruct (Z.leb_spec min_int64 i); [|lia].
    destruct (Z.leb_spec i max_int64); [|lia]. reflexivity.
  - unfold strconv.ParseInt.
    destruct (FormatUint_head i Hpos) as (c & ds & E & Hc & _).
    pose proof (parseDigits_FormatUint i Hpos) as P. rewrite E in *.
    destruct (isDigit_not_sign c Hc) as [-> ->]. rewrite P.
    destruct (Z.leb_spec min_int64 i); [|lia].
    destruct (Z.leb_spec i max_int64); [|lia]. reflexivity.
Qed.

(** ** encoding/json: reading what Marshal printed *)

Lemma terminator_comma : terminator ","%char.
Proof. repeat split. Qed.

Lemma terminator_brace : terminator "}"%char.
Proof. repeat split. Qed.

Lemma scanDigits_app ds c rest :
  Forall (fun x => isDigit x = true) ds -> isDigit c = false ->
  json.scanDigits (ds ++ c :: rest) = (ds, c :: rest).
Proof.
  intros Hds Hc. induction Hds as [|x ds Hx _ IH]; cbn [app json.scanDigits].
  - rewrite Hc. reflexivity.
  - rewrite Hx, IH. reflexivity.
Qed.

Lemma in_range_19_not c :
  in_range "1" "9" c = true ->
  Ascii.eqb c "0" = false /\ Ascii.eqb c "-" = false.
Proof.
  intros H. split; apply Ascii.eqb_neq; intros ->; discriminate.
Qed.

Lemma scanFrac_terminator c rest :
  terminator c -> json.scanFrac (c :: rest) = Some ([], c :: rest).
Proof.
  intros (_ & Hdot & _). cbn [json.scanFrac]. rewrite Hdot. reflexivity.
Qed.

Lemma scanExp_terminator c rest :
  terminator c -> json.scanExp (c :: rest) = Some ([], c :: rest).
Proof.
  intros (_ & _ & He & HE). cbn [json.scanExp]. rewrite He, HE. reflexivity.
Qed.

Lemma scanInt_zero c rest :
  json.scanInt ("0"%char :: c :: rest) = Some (["0"%char], c :: rest).
Proof. reflexivity. Qed.

Lemma scanInt_digits h ds c rest :
  in_range "1" "9" h = true -> Forall (fun x => isDigit x = true) ds ->
  isDigit c = false ->
  json.scanInt (h :: ds ++ c :: rest) = Some (h :: ds, c :: rest).
Proof.
  intros Hh Hds Hc. destruct (in_range_19_not h Hh) as [H0 _].
  cbn [json.scanInt]. rewrite H0, Hh, scanDigits_app by assumption.
  reflexivity.
Qed.

Lemma scanNumber_FormatUint u c rest :
  0 <= u -> terminator c ->
  json.scanNumber (strconv.FormatUint u ++ c :: rest)
  = Some (strconv.FormatUint u, c :: rest).
Proof.
  intros Hu Hc. pose proof Hc as (Hd & _).
  destruct (FormatUint_shape u Hu) as [[_ E] | (h & ds & E & Hh & Hds)];
    rewrite E; unfold json.scanNumber.
  - cbn [app json.scanSign Ascii.eqb Bool.eqb].
    rewrite scanInt_zero, scanFrac_terminator, scanExp_terminator by assumption.
    reflexivity.
  - destruct (in_range_19_not h Hh) as [_ Hm].
    cbn [app json.scanSign]. rewrite Hm.
    rewrite scanInt_digits, scanFrac_terminator, scanExp_terminator
      by assumption.
    cbn [app]. rewrite !app_nil_r. reflexivity.
Qed.

Lemma scanNumber_FormatInt i c rest :
  terminator c ->
  json.scanNumber (strconv.FormatInt i ++ c :: rest)
  = Some (strconv.FormatInt i, c :: rest).
Proof.
  intros Hc. unfold strconv.FormatInt.
  destruct (Z.ltb_spec i 0) as [Hneg | Hpos].
  - pose proof Hc as (Hd & _).
    destruct (FormatUint_shape (- i) ltac:(lia))
      as [[Hz _] | (h & ds & E & Hh & Hds)]; [lia|].
    rewrite E. unfold json.scanNumber.
    cbn [app json.scanSign Ascii.eqb Bool.eqb].
    rewrite scanInt_digits, scanFrac_terminator, scanExp_terminator
      by assumption.
    cbn [app]. rewrite !app_nil_r. reflexivity.
  - apply scanNumber_FormatUint; assumption.
Qed.

(** The first byte of a printed integer: a minus sign or a digit. *)
Lemma FormatInt_head i :
  exists h t, strconv.FormatInt i = h :: t
              /\ (Ascii.eqb h "-" || isDigit h = true).
Proof.
  unfold strconv.FormatInt. destruct (Z.ltb_spec i 0) as [Hneg | Hpos].
  - eexists _, _. split; reflexivity.
  - destruct (FormatUint_head i Hpos) as (c & ds & E & Hc & _).
    exists c, ds. rewrite E, Hc. split; [reflexivity | apply orb_true_r].
Qed.

Lemma sign_or_digit_not_opener h :
  Ascii.eqb h "-" || isDigit h = true ->
  Ascii.eqb h "{" = false /\ Ascii.eqb h "[" = false
  /\ Ascii.eqb h dquote = false.
Proof.
  intros H. repeat split; apply Ascii.eqb_neq; intros ->; discriminate.
Qed.

Lemma parseValue_FormatInt fuel depth i c rest :
  terminator c ->
  json.parseValue (S fuel) depth (strconv.FormatInt i ++ c :: rest)
  = json.POk (json.Number (strconv.FormatInt i)) (c :: rest).
Proof.
  intros Hc. pose proof (scanNumber_FormatInt i c rest Hc) as E.
  destruct (FormatInt_head i) as (h & t & Eh & Hh). rewrite Eh in *.
  destruct (sign_or_digit_not_opener h Hh) as (H1 & H2 & H3).
  cbn [json.parseValue app]. rewrite H1, H2, H3, Hh.
  cbn [app] in E. rewrite E. reflexivity.
Qed.

Lemma scanString_plain key rest :
  forall acc, forallb plain key = true ->
    json.scanString (key ++ dquote :: rest) acc = Some (rev acc ++ key, rest).
Proof.
  induction key as [|c key IH]; intros acc H.
  - cbn [app json.scanString]. rewrite Ascii.eqb_refl, app_nil_r. reflexivity.
  - cbn [forallb] in H. apply andb_true_iff in H as [Hc Hk].
    unfold plain in Hc. rewrite !andb_true_iff, !negb_true_iff in Hc.
    destruct Hc as [[H1 H2] H3].
    cbn [app json.scanString]. rewrite H1, H2, H3, IH by assumption.
    cbn [rev]. rewrite <- app_assoc. reflexivity.
Qed.

Lemma marshalEntries_cons e l :
  l <> [] ->
  json.marshalEntries (e :: l)
  = json.marshalEntry e ++ ","%char :: json.marshalEntries l.
Proof. destruct l; [congruence | reflexivity]. Qed.

Lemma marshalEntries_head e l :
  exists t, json.marshalEntries (e :: l) = dquote :: t.
Proof.
  destruct l; cbn [json.marshalEntries]; unfold json.marshalEntry;
    eexists; reflexivity.
Qed.

Lemma marshalEntry_app e x :
  json.marshalEntry e ++ x
  = dquote :: fst e ++ dquote :: ":"%char :: strconv.FormatInt (snd e) ++ x.
Proof.
  unfold json.marshalEntry. cbn [app]. rewrite <- app_assoc. reflexivity.
Qed.

Lemma skipSpace_marshalEntries e l x :
  json.skipSpace (json.marshalEntries (e :: l) ++ x)
  = json.marshalEntries (e :: l) ++ x.
Proof.
  destruct (marshalEntries_head e l) as (t & ->). reflexivity.
Qed.

(** One member whose value is a printed integer. *)
Lemma parseMembers_step fuel depth key i c rest acc :
  forallb plain key = true -> terminator c -> json.isSpace c = false ->
  json.parseMembers (S (S fuel)) depth
    (dquote :: key ++ dquote :: ":"%char :: strconv.FormatInt i ++ c :: rest) acc
  = if Ascii.eqb c "," then
      json.parseMembers (S fuel) depth (json.skipSpace rest)
        ((key, json.Number (strconv.FormatInt i)) :: acc)
    else if Ascii.eqb c "}" then
      json.POk (json.Object
                  (rev ((key, json.Number (strconv.FormatInt i)) :: acc))) rest
    else json.PSyntax.
Proof.
  intros Hk Hc Hsp.
  destruct (FormatInt_head i) as (h & t & Eh & Hh).
  assert (Hskip : json.skipSpace (strconv.FormatInt i ++ c :: rest)
                  = strconv.FormatInt i ++ c :: rest).
  { rewrite Eh. cbn [app json.skipSpace].
    replace (json.isSpace h) with false; [reflexivity|].
    symmetry. unfold json.isSpace.
    destruct (Ascii.eqb_spec h " ") as [-> |]; [discriminate|].
    destruct (Ascii.eqb_spec h "009") as [-> |]; [discriminate|].
    destruct (Ascii.eqb_spec h "013") as [-> |]; [discriminate|].
    destruct (Ascii.eqb_spec h "010") as [-> |]; [discriminate|].
    reflexivity. }
  change (json.parseMembers (S (S fuel)) depth
            (dquote :: key ++ dquote :: ":"%char :: strconv.FormatInt i ++ c :: rest)
            acc)
    with (if Ascii.eqb dquote dquote then
            match json.scanString
                    (key ++ dquote :: ":"%char :: strconv.FormatInt i ++ c :: rest)
                    [] with
            | None => json.PSyntax
            | Some (key, r1) =>
                match json.skipSpace r1 with
                | c :: r2 =>
                    if Ascii.eqb c ":" then
                      match json.parseValue (S fuel) depth (json.skipSpace r2) with
                      | json.POk v r3 =>
                          match json.skipSpace r3 with
                          | c' :: r4 =>
                              if Ascii.eqb c' "," then
                                json.parseMembers (S fuel) depth (json.skipSpace r4)
                                  ((key, v) :: acc)
                              else if Ascii.eqb c' "}" then
                                json.POk (json.Object (rev ((key, v) :: acc))) r4
                              else json.PSyntax
                          | [] => json.PSyntax
                          end
                      | json.PSyntax => json.PSyntax
                      | json.PFuel => json.PFuel
                      end
                    else json.PSyntax
                | [] => json.PSyntax
                end
            end
          else json.PSyntax).
  rewrite Ascii.eqb_refl, scanString_plain by assumption.
  cbn [rev app]. cbn [json.skipSpace].
  replace (json.isSpace ":") with false by reflexivity.
  replace (Ascii.eqb ":" ":") with true by reflexivity.
  rewrite Hskip, parseValue_FormatInt by assumption.
  cbn [json.skipSpace]. rewrite Hsp. reflexivity.
Qed.

Lemma parseMembers_entries l :
  forall fuel depth rest acc,
    l <> [] -> (List.length l < fuel)%nat ->
    Forall (fun e => forallb plain (fst e) = true) l ->
    json.parseMembers fuel depth
      (json.marshalEntries l ++ "}"%char :: rest) acc
    = json.POk (json.Object (rev acc ++ entries_doc l)) rest.
Proof.
  induction l as [|e l IH]; intros fuel depth rest acc Hne Hf Hk;
    [congruence|].
  inversion Hk as [|? ? He Hl]; subst.
  destruct fuel as [|[|fuel]]; cbn [List.length] in Hf; try lia.
  destruct l as [|e' l].
  - cbn [json.marshalEntries]. rewrite marshalEntry_app.
    rewrite parseMembers_step
      by (try assumption; try reflexivity; apply terminator_brace).
    cbn [Ascii.eqb Bool.eqb rev entries_doc map]. reflexivity.
  - rewrite marshalEntries_cons by discriminate.
    rewrite <- app_assoc, marshalEntry_app, <- app_comm_cons.
    rewrite parseMembers_step
      by (try assumption; try reflexivity; apply terminator_comma).
    cbn [Ascii.eqb Bool.eqb].
    rewrite skipSpace_marshalEntries, IH; try assumption; try discriminate.
    + cbn [rev entries_doc map]. rewrite <- app_assoc. reflexivity.
    + cbn [List.length] in *. lia.
Qed.

Lemma length_marshalEntries l :
  (List.length l <= List.length (json.marshalEntries l))%nat.
Proof.
  induction l as [|e l IH]; [cbn; lia|].
  destruct l as [|e' l].
  - cbn [json.marshalEntries]. unfold json.marshalEntry. cbn [List.length]. lia.
  - rewrite marshalEntries_cons by discriminate. unfold json.marshalEntry.
    cbn [List.length app]. rewrite !length_app. cbn [List.length] in *. lia.
Qed.

Lemma parseValue_object fuel depth t :
  depth < json.maxNestingDepth ->
  json.parseValue (S fuel) depth ("{"%char :: dquote :: t)
  = json.parseMembers fuel (depth + 1) (dquote :: t) [].
Proof.
  intros Hd. cbn [json.parseValue Ascii.eqb Bool.eqb].
  destruct (Z.leb_spec json.maxNestingDepth depth); [lia|].
  reflexivity.
Qed.

(** [json.parse] reads a printed struct or map back as the entries. *)
Lemma parse_MarshalStruct l :
  l <> [] -> Forall (fun e => forallb plain (fst e) = true) l ->
  json.parse (json.MarshalStruct l) = Ok (json.Object (entries_doc l)).
Proof.
  intros Hne Hk. unfold json.parse, json.MarshalStruct.
  pose proof (length_marshalEntries l) as Hlen.
  destruct l as [|e l]; [congruence|].
  match goal with
  | |- context [(2 * ?n + 2)%nat] =>
      assert (Hfuel : exists f, (2 * n + 2)%nat = S f
                                /\ (List.length (e :: l) < f)%nat)
  end.
  { eexists. split; [rewrite Nat.add_succ_r; reflexivity|].
    cbn [List.length] in *. rewrite length_app. cbn [List.length]. lia. }
  destruct Hfuel as (f & -> & Hf).
  change (json.skipSpace ("{"%char :: json.marshalEntries (e :: l) ++ ["}"%char]))
    with ("{"%char :: json.marshalEntries (e :: l) ++ ["}"%char]).
  destruct (marshalEntries_head e l) as (t & Et).
  pose proof (parseMembers_entries (e :: l) f (0 + 1) [] [] Hne Hf Hk) as P.
  rewrite Et in P |- *. cbn [app] in P |- *.
  rewrite parseValue_object by reflexivity.
  rewrite P. reflexivity.
Qed.

(** ** The token a client reads *)

Lemma b64char_encode i : 0 <= i < 64 -> b64char (base64.encode i) = true.
Proof.
  intros H. unfold base64.encode.
  assert (Hn : (Z.to_nat i < 64)%nat) by lia.
  generalize dependent (Z.to_nat i). intros n Hn.
  do 64 (destruct n as [|n]; [reflexivity|]). lia.
Qed.

Lemma b64char_sextet v k : b64char (base64.sextet v k) = true.
Proof.
  unfold base64.sextet. apply b64char_encode.
  rewrite land63. apply Z.mod_pos_bound. lia.
Qed.

Lemma Encode_b64chars src : forallb b64char (base64.Encode src) = true.
Proof.
  induction src as [|a|a b|a b c r IH] using list_ind3;
    cbn [base64.Encode forallb]; rewrite ?b64char_sextet, ?IH; reflexivity.
Qed.

Lemma forallb_impl (p q : ascii -> bool) l :
  (forall c, p c = true -> q c = true) ->
  forallb p l = true -> forallb q l = true.
Proof.
  intros Hpq. rewrite !forallb_forall. auto.
Qed.

Lemma b64char_cases (q : ascii -> bool) :
  forallb q (base64.padChar :: base64.encodeStd) = true ->
  forall c, b64char c = true -> q c = true.
Proof.
  intros Hq c Hc. unfold b64char in Hc. apply existsb_exists in Hc.
  destruct Hc as (x & Hin & Hx). apply Ascii.eqb_eq in Hx. subst x.
  rewrite forallb_forall in Hq. auto.
Qed.

Lemma b64char_plain c : b64char c = true -> plain c = true.
Proof. apply b64char_cases. reflexivity. Qed.

Lemma unquote_plain s : forallb plain s = true -> json.unquote s = s.
Proof.
  induction s as [|c s IH]; [reflexivity|]. cbn [forallb].
  rewrite andb_true_iff. intros [Hc Hs]. unfold plain in Hc.
  rewrite !andb_true_iff, !negb_true_iff in Hc. destruct Hc as [[_ H2] _].
  cbn [json.unquote]. rewrite H2, IH by assumption. reflexivity.
Qed.

(** A quoted plain text is the JSON string of that text. *)
Lemma parse_quoted s :
  forallb plain s = true ->
  json.parse (dquote :: s ++ [dquote]) = Ok (json.String s).
Proof.
  intros Hs. unfold json.parse.
  match goal with
  | |- context [(2 * ?n + 2)%nat] =>
      replace (2 * n + 2)%nat with (S (2 * n + 1)) by lia
  end.
  change (json.skipSpace (dquote :: s ++ [dquote])) with (dquote :: s ++ [dquote]).
  cbn [json.parseValue]. change (Ascii.eqb dquote "{") with false.
  change (Ascii.eqb dquote "[") with false. rewrite Ascii.eqb_refl.
  rewrite scanString_plain by assumption. reflexivity.
Qed.

Lemma clientString_quoted s :
  forallb plain s = true ->
  clientString (Ok (dquote :: s ++ [dquote])) = Ok s.
Proof.
  intros Hs. unfold clientString. cbn [bind].
  rewrite parse_quoted by assumption. cbn [bind].
  rewrite unquote_plain by assumption. reflexivity.
Qed.

Lemma NextPageToken_MarshalJSON_eq t :
  NextPageToken.MarshalJSON (Some t)
  = Ok (dquote :: base64.Encode (NextPageToken_json t) ++ [dquote]).
Proof.
  unfold NextPageToken.MarshalJSON, NextPageToken_json.
  destruct (time.Time_IsZero (NextPageToken.UpdatedAfter t)); reflexivity.
Qed.

(** The client reads the base64 text of the token's JSON. *)
Lemma NextPageToken_text_eq t :
  NextPageToken_text t = Ok (base64.Encode (NextPageToken_json t)).
Proof.
  unfold NextPageToken_text. rewrite NextPageToken_MarshalJSON_eq.
  apply clientString_quoted.
  apply (forallb_impl b64char); [exact b64char_plain | apply Encode_b64chars].
Qed.

Lemma SyncToken_text_eq t :
  SyncToken_text t = Ok (base64.Encode (SyncToken_json t)).
Proof.
  unfold SyncToken_text, SyncToken.MarshalJSON. fold (SyncToken_json t).
  apply clientString_quoted.
  apply (forallb_impl b64char); [exact b64char_plain | apply Encode_b64chars].
Qed.

(** The bytes [MarshalJSON] returns begin with a quote, which is not
    base64: [UnmarshalJSON] takes the text between the quotes, that is
    the string the client reads, and refuses the bytes themselves. *)
Lemma UnmarshalJSON_refuses_quoted x :
  (forall tok, NextPageToken.UnmarshalJSON tok (dquote :: x)
               = Err CorruptInputError)
  /\ (forall tok, SyncToken.UnmarshalJSON tok (dquote :: x)
                  = Err CorruptInputError).
Proof. split; intros tok; reflexivity. Qed.

(** ** time: seconds survive the trip through Unix time *)

Lemma wrap64_range z : in_int64 (wrap64 z).
Proof.
  unfold in_int64, wrap64, min_int64, max_int64. pow2_arith.
Qed.

Lemma wrap64_id z : in_int64 z -> wrap64 z = z.
Proof.
  unfold in_int64, wrap64, min_int64, max_int64. intros H. pow2_arith.
Qed.

Lemma wrap64_shift z k : in_int64 z -> wrap64 (wrap64 (z - k) + k) = z.
Proof.
  unfold in_int64, wrap64, min_int64, max_int64. intros H. pow2_arith.
Qed.

Lemma Unix_Time_Unix t :
  time.wf t ->
  time.Unix (time.Time_Unix t) 0 = time.mkTime (time.sec t) 0 time.Local.
Proof.
  intros [Hs _]. unfold time.Unix, time.Time_Unix. cbn [Z.ltb Z.leb orb Z.compare].
  f_equal. unfold time.internalToUnix.
  replace (time.sec t + - time.unixToInternal)
    with (time.sec t - time.unixToInternal) by lia.
  apply wrap64_shift. exact Hs.
Qed.

Lemma Unix_wf s : time.wf (time.Unix s 0).
Proof.
  unfold time.Unix. cbn [Z.ltb Z.leb orb Z.compare]. split; cbn.
  - apply wrap64_range.
  - lia.
Qed.

Lemma Time_Unix_range t : in_int64 (time.Time_Unix t).
Proof. apply wrap64_range. Qed.

Lemma Time_Equal_refl t : time.Time_Equal t t = true.
Proof. unfold time.Time_Equal. rewrite !Z.eqb_refl. reflexivity. Qed.

Lemma Time_Equal_iff t u :
  time.Time_Equal t u = true <-> time.sec t = time.sec u /\ time.nsec t = time.nsec u.
Proof.
  unfold time.Time_Equal. rewrite andb_true_iff, !Z.eqb_eq. tauto.
Qed.

(** ** Decoding the JSON of a token *)

Lemma storeInt_FormatInt i old :
  in_int64 i -> json.storeInt (json.Number (strconv.FormatInt i)) old = Ok i.
Proof.
  intros H. cbn [json.storeInt]. rewrite ParseInt_FormatInt by assumption.
  reflexivity.
Qed.

Lemma storeIntPtr_FormatInt i :
  in_int64 i -> json.storeIntPtr (json.Number (strconv.FormatInt i)) = Ok (Some i).
Proof.
  intros H. cbn [json.storeIntPtr]. rewrite ParseInt_FormatInt by assumption.
  reflexivity.
Qed.

Opaque strconv.FormatInt strconv.ParseInt.

Lemma NextPageToken_Unmarshal_json t :
  in_int64 (NextPageToken.Offset t) ->
  NextPageToken.Unmarshal (NextPageToken_json t)
  = Ok (NextPageToken.mkWire
          (time.Time_Unix (NextPageToken.Timestamp t))
          (NextPageToken.Offset t)
          (if time.Time_IsZero (NextPageToken.UpdatedAfter t) then None
           else Some (time.Time_Unix (NextPageToken.UpdatedAfter t)))
          (time.Time_Unix (NextPageToken.ValidUntil t))).
Proof.
  intros Ho. unfold NextPageToken.Unmarshal, NextPageToken_json.
  pose proof (Time_Unix_range (NextPageToken.Timestamp t)).
  pose proof (Time_Unix_range (NextPageToken.UpdatedAfter t)).
  pose proof (Time_Unix_range (NextPageToken.ValidUntil t)).
  destruct (time.Time_IsZero (NextPageToken.UpdatedAfter t));
    rewrite parse_MarshalStruct by (try discriminate; repeat constructor);
    cbn; rewrite !ParseInt_FormatInt by assumption; reflexivity.
Qed.

Lemma SyncToken_Unmarshal_json t :
  SyncToken.Unmarshal (SyncToken_json t)
  = Ok (SyncToken.mkWire (time.Time_Unix (SyncToken.Timestamp t))
                         (time.Time_Unix (SyncToken.ValidUntil t))).
Proof.
  unfold SyncToken.Unmarshal, SyncToken_json.
  rewrite parse_MarshalStruct by (try discriminate; repeat constructor).
  cbn. rewrite !ParseInt_FormatInt by apply Time_Unix_range. reflexivity.
Qed.

Transparent strconv.FormatInt strconv.ParseInt.

(** What [UnmarshalJSON] makes of the text of a token. *)
Lemma NextPageToken_decode_text t :
  in_int64 (NextPageToken.Offset t) ->
  NextPageToken.UnmarshalJSON NextPageToken.zero
    (base64.Encode (NextPageToken_json t))
  = Ok (NextPageToken.mk
          (time.Unix (time.Time_Unix (NextPageToken.Timestamp t)) 0)
          (if time.Time_IsZero (NextPageToken.UpdatedAfter t) then time.zero
           else time.Unix (time.Time_Unix (NextPageToken.UpdatedAfter t)) 0)
          (NextPageToken.Offset t)
          (time.Unix (time.Time_Unix (NextPageToken.ValidUntil t)) 0)).
Proof.
  intros Ho. unfold NextPageToken.UnmarshalJSON.
  rewrite Decode_Encode. cbn [bind].
  rewrite NextPageToken_Unmarshal_json by assumption. cbn [bind].
  cbn [NextPageToken.v_Timestamp NextPageToken.v_Offset
       NextPageToken.v_UpdatedAfter NextPageToken.v_ValidUntil].
  destruct (time.Time_IsZero (NextPageToken.UpdatedAfter t)); reflexivity.
Qed.

Lemma SyncToken_decode_text t :
  SyncToken.UnmarshalJSON SyncToken.zero (base64.Encode (SyncToken_json t))
  = Ok (SyncToken.mk
          (time.Unix (time.Time_Unix (SyncToken.Timestamp t)) 0)
          (time.Unix (time.Time_Unix (SyncToken.ValidUntil t)) 0)).
Proof.
  unfold SyncToken.UnmarshalJSON.
  rewrite Decode_Encode. cbn [bind].
  rewrite SyncToken_Unmarshal_json. reflexivity.
Qed.

(** ** Round trip of the tokens *)

Lemma truncated_Unix t :
  time.wf t -> truncated t (time.Unix (time.Time_Unix t) 0).
Proof.
  intros H. rewrite Unix_Time_Unix by assumption. split; reflexivity.
Qed.

Lemma truncated_same t u :
  truncated t u -> (time.Time_Equal u t = true <-> whole_seconds t).
Proof.
  intros [Hs Hn]. rewrite Time_Equal_iff. unfold whole_seconds. split.
  - intros [_ E]. congruence.
  - intros E. split; congruence.
Qed.

Lemma IsZero_true t :
  time.Time_IsZero t = true -> time.sec t = 0 /\ time.nsec t = 0.
Proof.
  unfold time.Time_IsZero. rewrite andb_true_iff, !Z.eqb_eq. tauto.
Qed.

(** The next-page token a client sends back decodes to the state with
    every instant cut to whole seconds. *)
Lemma NextPageToken_roundtrip t :
  NextPageToken_wf t ->
  exists tok t',
    NextPageToken_text t = Ok tok
    /\ NextPageToken.UnmarshalJSON NextPageToken.zero tok = Ok t'
    /\ NextPageToken.Offset t' = NextPageToken.Offset t
    /\ truncated (NextPageToken.Timestamp t) (NextPageToken.Timestamp t')
    /\ truncated (NextPageToken.UpdatedAfter t) (NextPageToken.UpdatedAfter t')
    /\ truncated (NextPageToken.ValidUntil t) (NextPageToken.ValidUntil t')
    /\ (time.Time_IsZero (NextPageToken.UpdatedAfter t) = true ->
        NextPageToken.UpdatedAfter t' = time.zero).
Proof.
  intros (Ht & Hu & Ho & Hv).
  eexists _, _. split; [apply NextPageToken_text_eq|].
  split; [apply NextPageToken_decode_text; assumption|].
  cbn [NextPageToken.Offset NextPageToken.Timestamp NextPageToken.UpdatedAfter
       NextPageToken.ValidUntil].
  repeat split; try (apply truncated_Unix; assumption);
    destruct (time.Time_IsZero (NextPageToken.UpdatedAfter t)) eqn:Ez;
    try discriminate; try reflexivity;
    try (apply truncated_Unix; assumption).
  - cbn. apply IsZero_true in Ez. symmetry. tauto.
Qed.

Lemma SyncToken_roundtrip s :
  SyncToken_wf s ->
  exists tok s',
    SyncToken_text s = Ok tok
    /\ SyncToken.UnmarshalJSON SyncToken.zero tok = Ok s'
    /\ truncated (SyncToken.Timestamp s) (SyncToken.Timestamp s')
    /\ truncated (SyncToken.ValidUntil s) (SyncToken.ValidUntil s').
Proof.
  intros (Ht & Hv).
  eexists _, _. split; [apply SyncToken_text_eq|].
  split; [apply SyncToken_decode_text|].
  split; apply truncated_Unix; assumption.
Qed.

(** C10: for a cursor state of either variant, decoding the token the
    client received keeps the offset and gives every timestamp
    (timestamp, updated_after, valid_until) as the original instant cut to
    whole seconds; the decoded state is the original one exactly when no
    timestamp of the original has a sub-second part. *)
Theorem C10_roundtrip_keeps_whole_seconds
        (t : NextPageToken.t) (s : SyncToken.t) :
  NextPageToken_wf t -> SyncToken_wf s ->
  (exists tok t',
      NextPageToken_text t = Ok tok
      /\ NextPageToken.UnmarshalJSON NextPageToken.zero tok = Ok t'
      /\ NextPageToken.Offset t' = NextPageToken.Offset t
      /\ truncated (NextPageToken.Timestamp t) (NextPageToken.Timestamp t')
      /\ truncated (NextPageToken.UpdatedAfter t) (NextPageToken.UpdatedAfter t')
      /\ truncated (NextPageToken.ValidUntil t) (NextPageToken.ValidUntil t')
      /\ (NextPageToken_same t' t <->
          whole_seconds (NextPageToken.Timestamp t)
          /\ whole_seconds (NextPageToken.UpdatedAfter t)
          /\ whole_seconds (NextPageToken.ValidUntil t)))
  /\ (exists tok s',
         SyncToken_text s = Ok tok
         /\ SyncToken.UnmarshalJSON SyncToken.zero tok = Ok s'
         /\ truncated (SyncToken.Timestamp s) (SyncToken.Timestamp s')
         /\ truncated (SyncToken.ValidUntil s) (SyncToken.ValidUntil s')
         /\ (SyncToken_same s' s <->
             whole_seconds (SyncToken.Timestamp s)
             /\ whole_seconds (SyncToken.ValidUntil s))).
Proof.
  intros Ht Hs. split.
  - destruct (NextPageToken_roundtrip t Ht)
      as (tok & t' & E1 & E2 & Eo & T1 & T2 & T3 & _).
    exists tok, t'. repeat (split; [assumption|]).
    unfold NextPageToken_same.
    rewrite (truncated_same _ _ T1), (truncated_same _ _ T2),
      (truncated_same _ _ T3). tauto.
  - destruct (SyncToken_roundtrip s Hs) as (tok & s' & E1 & E2 & T1 & T2).
    exists tok, s'. repeat (split; [assumption|]).
    unfold SyncToken_same.
    rewrite (truncated_same _ _ T1), (truncated_same _ _ T2). tauto.
Qed.

(** C3 (amended): for a cursor state of either variant whose timestamps
    are whole seconds, decoding the token the client received gives the
    same state: the same offset and the same instants, an absent
    updated_after staying absent. *)
Theorem C3_roundtrip_whole_seconds (t : NextPageToken.t) (s : SyncToken.t) :
  NextPageToken_wf t -> SyncToken_wf s ->
  whole_seconds (NextPageToken.Timestamp t) ->
  whole_seconds (NextPageToken.UpdatedAfter t) ->
  whole_seconds (NextPageToken.ValidUntil t) ->
  whole_seconds (SyncToken.Timestamp s) ->
  whole_seconds (SyncToken.ValidUntil s) ->
  (exists tok t',
      NextPageToken_text t = Ok tok
      /\ NextPageToken.UnmarshalJSON NextPageToken.zero tok = Ok t'
      /\ NextPageToken_same t' t
      /\ (time.Time_IsZero (NextPageToken.UpdatedAfter t) = true ->
          NextPageToken.UpdatedAfter t' = time.zero))
  /\ (exists tok s',
         SyncToken_text s = Ok tok
         /\ SyncToken.UnmarshalJSON SyncToken.zero tok = Ok s'
         /\ SyncToken_same s' s).
Proof.
  intros Ht Hs W1 W2 W3 W4 W5. split.
  - destruct (NextPageToken_roundtrip t Ht)
      as (tok & t' & E1 & E2 & Eo & T1 & T2 & T3 & Z).
    exists tok, t'. repeat (split; [assumption|]). split; [|exact Z].
    unfold NextPageToken_same.
    rewrite (truncated_same _ _ T1), (truncated_same _ _ T2),
      (truncated_same _ _ T3). tauto.
  - destruct (SyncToken_roundtrip s Hs) as (tok & s' & E1 & E2 & T1 & T2).
    exists tok, s'. repeat (split; [assumption|]).
    unfold SyncToken_same.
    rewrite (truncated_same _ _ T1), (truncated_same _ _ T2). tauto.
Qed.

Ltac by_computation := vm_compute; first [reflexivity | congruence | tauto].

Lemma ex_np_wf : NextPageToken_wf ex_np.
Proof. repeat split; by_computation. Qed.

Lemma ex_sync_wf : SyncToken_wf ex_sync.
Proof. repeat split; by_computation. Qed.

Lemma ex_np_whole_wf : NextPageToken_wf ex_np_whole.
Proof. repeat split; by_computation. Qed.

Lemma ex_sync_whole_wf : SyncToken_wf ex_sync_whole.
Proof. repeat split; by_computation. Qed.

(** C10 at the tokens [listHandler] builds from [ex_clock]. *)
Lemma C10_witness :
  NextPageToken_wf ex_np /\ SyncToken_wf ex_sync
  /\ (exists tok t',
         NextPageToken_text ex_np = Ok tok
         /\ NextPageToken.UnmarshalJSON NextPageToken.zero tok = Ok t'
         /\ NextPageToken.Offset t' = 10
         /\ time.nsec (NextPageToken.Timestamp t') = 0)
  /\ (exists tok s',
         SyncToken_text ex_sync = Ok tok
         /\ SyncToken.UnmarshalJSON SyncToken.zero tok = Ok s'
         /\ time.nsec (SyncToken.Timestamp s') = 0).
Proof.
  split; [exact ex_np_wf|]. split; [exact ex_sync_wf|].
  destruct (C10_roundtrip_keeps_whole_seconds ex_np ex_sync ex_np_wf ex_sync_wf)
    as [(tok & t' & E1 & E2 & Eo & (_ & T1) & _)
          (tok2 & s' & F1 & F2 & (_ & U1) & _)].
  split.
  - exists tok, t'. auto.
  - exists tok2, s'. auto.
Defined.

(** C3 as stated fails: the state [listHandler] builds from a clock
    reading with nanoseconds does not come back from its token. *)
Lemma C3_counterexample :
  NextPageToken_wf ex_np
  /\ exists tok t',
      NextPageToken_text ex_np = Ok tok
      /\ NextPageToken.UnmarshalJSON NextPageToken.zero tok = Ok t'
      /\ ~ NextPageToken_same t' ex_np
      /\ t' <> ex_np.
Proof.
  split; [exact ex_np_wf|].
  eexists _, _. split; [vm_compute; reflexivity|].
  split; [vm_compute; reflexivity|]. split.
  - intros (H & _). vm_compute in H. discriminate.
  - intros H. discriminate.
Qed.

(** C3 (amended) at tokens on whole seconds. *)
Lemma C3_witness :
  NextPageToken_wf ex_np_whole /\ SyncToken_wf ex_sync_whole
  /\ whole_seconds (NextPageToken.Timestamp ex_np_whole)
  /\ whole_seconds (NextPageToken.UpdatedAfter ex_np_whole)
  /\ whole_seconds (NextPageToken.ValidUntil ex_np_whole)
  /\ whole_seconds (SyncToken.Timestamp ex_sync_whole)
  /\ whole_seconds (SyncToken.ValidUntil ex_sync_whole)
  /\ (exists tok t',
         NextPageToken_text ex_np_whole = Ok tok
         /\ NextPageToken.UnmarshalJSON NextPageToken.zero tok = Ok t'
         /\ NextPageToken_same t' ex_np_whole)
  /\ (exists tok s',
         SyncToken_text ex_sync_whole = Ok tok
         /\ SyncToken.UnmarshalJSON SyncToken.zero tok = Ok s'
         /\ SyncToken_same s' ex_sync_whole).
Proof.
  split; [exact ex_np_whole_wf|]. split; [exact ex_sync_whole_wf|].
  do 5 (split; [reflexivity|]).
  destruct (C3_roundtrip_whole_seconds ex_np_whole ex_sync_whole
              ex_np_whole_wf ex_sync_whole_wf
              eq_refl eq_refl eq_refl eq_refl eq_refl)
    as [(tok & t' & E1 & E2 & S1 & _) (tok2 & s' & F1 & F2 & S2)].
  split.
  - exists tok, t'. auto.
  - exists tok2, s'. auto.
Defined.

(** ** The handler *)

Lemma isEmpty_true s : isEmpty s = true <-> s = [].
Proof. destruct s; cbn; split; congruence. Qed.

Lemma isEmpty_false s : isEmpty s = false <-> s <> [].
Proof. destruct s; cbn; split; congruence. Qed.

Lemma len_nonneg {A : Type} (l : list A) : 0 <= len l.
Proof. unfold len. lia. Qed.

Section ListHandler.

Variable db : DB.
Variable clock : Clock.
Variable r : Request.

Lemma cursor_early resp :
  listHandler_cursor clock r = inl resp -> StatusCode resp = StatusBadRequest.
Proof.
  unfold listHandler_cursor.
  destruct (isEmpty (url.Get (url.Query (RawQuery r)) (B "sync_token"))); cbn [negb].
  - destruct (isEmpty (url.Get (url.Query (RawQuery r)) (B "next_page_token")));
      cbn [negb]; [discriminate|].
    destruct (NextPageToken.UnmarshalJSON _ _) as [c | e].
    + destruct (time.Time_Before _ _); [|discriminate].
      intros H. inversion H. reflexivity.
    + intros H. inversion H. reflexivity.
  - destruct (SyncToken.UnmarshalJSON _ _) as [c | e].
    + destruct (time.Time_Before _ _); [|discriminate].
      intros H. inversion H. reflexivity.
    + intros H. inversion H. reflexivity.
Qed.

(** After the cursor stage both token variables are nil. *)
Lemma cursor_vars vars :
  listHandler_cursor clock r = inr vars ->
  nextPageToken vars = None /\ syncToken vars = None.
Proof.
  unfold listHandler_cursor.
  destruct (isEmpty (url.Get (url.Query (RawQuery r)) (B "sync_token"))); cbn [negb].
  - destruct (isEmpty (url.Get (url.Query (RawQuery r)) (B "next_page_token")));
      cbn [negb].
    + intros H. inversion H. split; reflexivity.
    + destruct (NextPageToken.UnmarshalJSON _ _) as [c | e]; [|discriminate].
      destruct (time.Time_Before _ _); [discriminate|].
      intros H. inversion H. split; reflexivity.
  - destruct (SyncToken.UnmarshalJSON _ _) as [c | e]; [|discriminate].
    destruct (time.Time_Before _ _); [discriminate|].
    intros H. inversion H. split; reflexivity.
Qed.

(** The three ways through the cursor stage. *)
Lemma cursor_none :
  url.Get (url.Query (RawQuery r)) (B "sync_token") = [] ->
  url.Get (url.Query (RawQuery r)) (B "next_page_token") = [] ->
  listHandler_cursor clock r
  = inr (mkVars (time.Time_UTC (now_start clock)) time.zero 0 None None).
Proof.
  intros E1 E2. unfold listHandler_cursor. rewrite E1, E2. reflexivity.
Qed.

Lemma cursor_sync c :
  url.Get (url.Query (RawQuery r)) (B "sync_token") <> [] ->
  SyncToken.UnmarshalJSON SyncToken.zero
    (url.Get (url.Query (RawQuery r)) (B "sync_token")) = Ok c ->
  listHandler_cursor clock r
  = if time.Time_Before (SyncToken.ValidUntil c) (now_check clock)
    then inl (mkResponse StatusBadRequest (BodyText (B "sync token expired")))
    else inr (mkVars (time.Time_UTC (now_start clock)) (SyncToken.Timestamp c)
                     0 None None).
Proof.
  intros E1 E2. unfold listHandler_cursor.
  apply isEmpty_false in E1. rewrite E1, E2. reflexivity.
Qed.

Lemma cursor_next c :
  url.Get (url.Query (RawQuery r)) (B "sync_token") = [] ->
  url.Get (url.Query (RawQuery r)) (B "next_page_token") <> [] ->
  NextPageToken.UnmarshalJSON NextPageToken.zero
    (url.Get (url.Query (RawQuery r)) (B "next_page_token")) = Ok c ->
  listHandler_cursor clock r
  = if time.Time_Before (NextPageToken.ValidUntil c) (now_check clock)
    then inl (mkResponse StatusBadRequest
                         (BodyText (B "next page token expired")))
    else inr (mkVars (NextPageToken.Timestamp c) (NextPageToken.UpdatedAfter c)
                     (NextPageToken.Offset c) None None).
Proof.
  intros E1 E2 E3. unfold listHandler_cursor.
  apply isEmpty_false in E2. rewrite E1, E2, E3. reflexivity.
Qed.

(** The shape of a successful response. *)
Lemma listHandler_ok :
  StatusCode (listHandler db clock r) = StatusOK ->
  exists vars users,
    listHandler_cursor clock r = inr vars
    /\ db (listHandler_statement vars (listHandler_maxResults r)) = Ok users
    /\ listHandler db clock r =
       mkResponse StatusOK
         (BodyJSON (mkListResponse users
            (fst (listHandler_continuation clock vars (listHandler_maxResults r) users))
            (snd (listHandler_continuation clock vars (listHandler_maxResults r) users)))).
Proof.
  unfold listHandler.
  destruct (listHandler_cursor clock r) as [early | vars] eqn:Ec.
  - rewrite (cursor_early _ Ec). discriminate.
  - destruct (db _) as [users | e] eqn:Ed; [|discriminate].
    intros _. exists vars, users. split; [reflexivity|]. split; [exact Ed|].
    destruct (listHandler_continuation clock vars (listHandler_maxResults r) users).
    reflexivity.
Qed.

(** A token that does not decode is answered with status 400 and the
    error, whatever the database holds. *)
Lemma listHandler_decode_error :
  let sync := url.Get (url.Query (RawQuery r)) (B "sync_token") in
  let next := url.Get (url.Query (RawQuery r)) (B "next_page_token") in
  (forall e, sync <> [] ->
             SyncToken.UnmarshalJSON SyncToken.zero sync = Err e ->
             listHandler db clock r = mkResponse StatusBadRequest (BodyError e))
  /\ (forall e, sync = [] -> next <> [] ->
                NextPageToken.UnmarshalJSON NextPageToken.zero next = Err e ->
                listHandler db clock r
                = mkResponse StatusBadRequest (BodyError e)).
Proof.
  intros sync next. split.
  - intros e E1 E2. unfold listHandler, listHandler_cursor.
    apply isEmpty_false in E1. fold sync. rewrite E1. cbn [negb].
    rewrite E2. reflexivity.
  - intros e E1 E2 E3. unfold listHandler, listHandler_cursor.
    apply isEmpty_false in E2. fold sync next. rewrite E1, E2. cbn [negb isEmpty].
    rewrite E3. reflexivity.
Qed.

(** C1: every response with status 200 carries exactly one of
    next_page_token and sync_token, whatever max_results and the decoded
    cursor are. *)
Theorem C1_exactly_one_continuation :
  StatusCode (listHandler db clock r) = StatusOK ->
  exists l, Body_ (listHandler db clock r) = BodyJSON l /\ exactly_one l.
Proof.
  intros H. destruct (listHandler_ok H) as (vars & users & Ec & Ed & E).
  rewrite E. eexists. split; [reflexivity|].
  destruct (cursor_vars _ Ec) as [Hn Hs].
  unfold exactly_one, listHandler_continuation.
  cbn [NextPageToken_ SyncToken_].
  destruct ((len users =? 0) || (len users <? listHandler_maxResults r));
    cbn [fst snd]; rewrite ?Hn, ?Hs.
  - right. split; [reflexivity | discriminate].
  - left. split; [discriminate | reflexivity].
Qed.

(** C2 (amended): a next-page continuation is emitted exactly when the
    page is not empty and holds max_results rows (the statement's LIMIT
    keeps it from holding more); in every other case, the empty page and
    max_results = 0 included, a sync continuation is emitted whose
    timestamp is the snapshot time of the pass. *)
Theorem C2_continuation_decision (vars : Vars) (users : list User) :
  listHandler_cursor clock r = inr vars ->
  db (listHandler_statement vars (listHandler_maxResults r)) = Ok users ->
  exists l,
    listHandler db clock r = mkResponse StatusOK (BodyJSON l)
    /\ Users l = users
    /\ (NextPageToken_ l <> None <->
        len users <> 0 /\ listHandler_maxResults r <= len users)
    /\ (len users <= listHandler_maxResults r ->
        (NextPageToken_ l <> None <->
         len users = listHandler_maxResults r /\ len users <> 0))
    /\ (NextPageToken_ l = None ->
        exists s, SyncToken_ l = Some s
                  /\ SyncToken.Timestamp s = tableInPointOfTime vars).
Proof.
  intros Ec Ed. destruct (cursor_vars _ Ec) as [Hn Hs].
  unfold listHandler. rewrite Ec, Ed. unfold listHandler_continuation.
  rewrite Hn, Hs.
  destruct (Z.eqb_spec (len users) 0) as [E0 | N0]; cbn [orb].
  - eexists. split; [reflexivity|]. cbn [Users NextPageToken_ SyncToken_].
    split; [reflexivity|]. split; [|split].
    + split; [congruence | tauto].
    + intros _. split; [congruence | tauto].
    + intros _. eexists. split; reflexivity.
  - destruct (Z.ltb_spec (len users) (listHandler_maxResults r)) as [Hlt | Hge].
    + eexists. split; [reflexivity|]. cbn [Users NextPageToken_ SyncToken_].
      split; [reflexivity|]. split; [|split].
      * split; [congruence | lia].
      * intros _. split; [congruence | lia].
      * intros _. eexists. split; reflexivity.
    + eexists. split; [reflexivity|]. cbn [Users NextPageToken_ SyncToken_].
      split; [reflexivity|]. split; [|split].
      * split; [intros _; split; assumption | discriminate].
      * intros Hle. split; [intros _; split; [lia | assumption] | discriminate].
      * discriminate.
Qed.

(** C5: the cursor stage fixes snapshot time, updated_after and offset:
    with no cursor, now, none (the zero time, so the statement has no
    filter) and 0; with a sync cursor that has not expired, now, the
    cursor's timestamp and 0; with a next-page cursor that has not expired,
    the three values of the cursor. *)
Theorem C5_query_planner :
  let sync := url.Get (url.Query (RawQuery r)) (B "sync_token") in
  let next := url.Get (url.Query (RawQuery r)) (B "next_page_token") in
  (sync = [] -> next = [] ->
   listHandler_cursor clock r
   = inr (mkVars (time.Time_UTC (now_start clock)) time.zero 0 None None)
   /\ forall vars m,
       listHandler_cursor clock r = inr vars ->
       listHandler_statement vars m
       = SelectAsOf (time.Time_UTC (now_start clock)) m 0)
  /\ (forall c,
         sync <> [] ->
         SyncToken.UnmarshalJSON SyncToken.zero sync = Ok c ->
         time.Time_Before (SyncToken.ValidUntil c) (now_check clock) = false ->
         listHandler_cursor clock r
         = inr (mkVars (time.Time_UTC (now_start clock))
                       (SyncToken.Timestamp c) 0 None None))
  /\ (forall c,
         sync = [] -> next <> [] ->
         NextPageToken.UnmarshalJSON NextPageToken.zero next = Ok c ->
         time.Time_Before (NextPageToken.ValidUntil c) (now_check clock) = false ->
         listHandler_cursor clock r
         = inr (mkVars (NextPageToken.Timestamp c)
                       (NextPageToken.UpdatedAfter c)
                       (NextPageToken.Offset c) None None)).
Proof.
  intros sync next. split; [|split].
  - intros E1 E2. pose proof (cursor_none E1 E2) as E.
    split; [exact E|]. intros vars m Ev. rewrite E in Ev.
    inversion Ev. reflexivity.
  - intros c E1 E2 E3. rewrite (cursor_sync c E1 E2), E3. reflexivity.
  - intros c E1 E2 E3 E4.
    rewrite (cursor_next c E1 E2 E3), E4. reflexivity.
Qed.

(** C7: a decoded token of either kind whose valid_until is before the
    clock reading of the check is answered with status 400 and a message,
    whatever its other fields and whatever the database holds: the
    statement is never built. *)
Theorem C7_expired_token_rejected :
  let sync := url.Get (url.Query (RawQuery r)) (B "sync_token") in
  let next := url.Get (url.Query (RawQuery r)) (B "next_page_token") in
  (forall c,
      sync <> [] ->
      SyncToken.UnmarshalJSON SyncToken.zero sync = Ok c ->
      time.Time_Before (SyncToken.ValidUntil c) (now_check clock) = true ->
      listHandler db clock r
      = mkResponse StatusBadRequest (BodyText (B "sync token expired")))
  /\ (forall c,
         sync = [] -> next <> [] ->
         NextPageToken.UnmarshalJSON NextPageToken.zero next = Ok c ->
         time.Time_Before (NextPageToken.ValidUntil c) (now_check clock) = true ->
         listHandler db clock r
         = mkResponse StatusBadRequest
                      (BodyText (B "next page token expired"))).
Proof.
  intros sync next. split.
  - intros c E1 E2 E3. unfold listHandler.
    rewrite (cursor_sync c E1 E2), E3. reflexivity.
  - intros c E1 E2 E3 E4. unfold listHandler.
    rewrite (cursor_next c E1 E2 E3), E4. reflexivity.
Qed.

(** C9: whenever the updated_after in effect is the zero time, the
    statement sent has no last-modified filter: with no cursor, with a
    next-page cursor whose updated_after is the zero time, and with a sync
    cursor whose timestamp is the zero time.  Any other instant gives the
    filtered statement. *)
Theorem C9_zero_updated_after_no_filter :
  let sync := url.Get (url.Query (RawQuery r)) (B "sync_token") in
  let next := url.Get (url.Query (RawQuery r)) (B "next_page_token") in
  (forall vars m,
      listHandler_cursor clock r = inr vars ->
      (time.Time_IsZero (onlyNewerThan vars) = true ->
       listHandler_statement vars m
       = SelectAsOf (tableInPointOfTime vars) m (offset vars))
      /\ (time.Time_IsZero (onlyNewerThan vars) = false ->
          listHandler_statement vars m
          = SelectAsOfUpdatedAfter (tableInPointOfTime vars) (onlyNewerThan vars)
                                   m (offset vars)))
  /\ (sync = [] -> next = [] ->
      exists vars,
        listHandler_cursor clock r = inr vars
        /\ forall m, listHandler_statement vars m
                     = SelectAsOf (time.Time_UTC (now_start clock)) m 0)
  /\ (forall c,
         sync = [] -> next <> [] ->
         NextPageToken.UnmarshalJSON NextPageToken.zero next = Ok c ->
         time.Time_Before (NextPageToken.ValidUntil c) (now_check clock) = false ->
         time.Time_IsZero (NextPageToken.UpdatedAfter c) = true ->
         exists vars,
           listHandler_cursor clock r = inr vars
           /\ forall m, listHandler_statement vars m
                        = SelectAsOf (NextPageToken.Timestamp c) m
                                     (NextPageToken.Offset c))
  /\ (forall c,
         sync <> [] ->
         SyncToken.UnmarshalJSON SyncToken.zero sync = Ok c ->
         time.Time_Before (SyncToken.ValidUntil c) (now_check clock) = false ->
         time.Time_IsZero (SyncToken.Timestamp c) = true ->
         exists vars,
           listHandler_cursor clock r = inr vars
           /\ forall m, listHandler_statement vars m
                        = SelectAsOf (time.Time_UTC (now_start clock)) m 0).
Proof.
  intros sync next. split; [|split; [|split]].
  - intros vars m _. unfold listHandler_statement.
    split; intros ->; reflexivity.
  - intros E1 E2. eexists. split; [apply cursor_none; assumption|].
    intros m. reflexivity.
  - intros c E1 E2 E3 E4 Z. eexists. split.
    + rewrite (cursor_next c E1 E2 E3), E4. reflexivity.
    + intros m. unfold listHandler_statement. cbn [onlyNewerThan].
      rewrite Z. reflexivity.
  - intros c E1 E2 E3 Z. eexists. split.
    + rewrite (cursor_sync c E1 E2), E3. reflexivity.
    + intros m. unfold listHandler_statement. cbn [onlyNewerThan].
      rewrite Z. reflexivity.
Qed.

End ListHandler.

(** C1 at the first request. *)
Lemma C1_witness :
  StatusCode (listHandler ex_db ex_clock ex_first) = StatusOK
  /\ exists l, Body_ (listHandler ex_db ex_clock ex_first) = BodyJSON l
               /\ exactly_one l.
Proof.
  split; [reflexivity|].
  apply (C1_exactly_one_continuation ex_db ex_clock ex_first). reflexivity.
Defined.

(** C2 (amended) at the first request: a full page of five rows. *)
Lemma C2_witness :
  exists vars users l,
    listHandler_cursor ex_clock ex_first = inr vars
    /\ ex_db (listHandler_statement vars (listHandler_maxResults ex_first))
       = Ok users
    /\ len users <= listHandler_maxResults ex_first
    /\ listHandler ex_db ex_clock ex_first = mkResponse StatusOK (BodyJSON l)
    /\ len users = 5
    /\ NextPageToken_ l <> None.
Proof.
  eexists _, _.
  destruct (C2_continuation_decision ex_db ex_clock ex_first _ _
              eq_refl eq_refl) as (l & E & Eu & _ & Hiff & _).
  exists l. split; [reflexivity|]. split; [reflexivity|].
  split; [vm_compute; discriminate|].
  split; [exact E|]. split; [reflexivity|].
  apply Hiff; [vm_compute; discriminate|]. split; [reflexivity|].
  vm_compute. discriminate.
Defined.

(** C2 as stated fails at max_results = 0: no row is returned, which is
    max_results rows, and the continuation is a sync token. *)
Lemma C2_counterexample :
  exists l,
    listHandler ex_db ex_clock (mkRequest (B "max_results=0"))
    = mkResponse StatusOK (BodyJSON l)
    /\ listHandler_maxResults (mkRequest (B "max_results=0")) = 0
    /\ len (Users l) = listHandler_maxResults (mkRequest (B "max_results=0"))
    /\ NextPageToken_ l = None
    /\ SyncToken_ l <> None.
Proof.
  eexists. split; [vm_compute; reflexivity|].
  repeat split; try reflexivity. discriminate.
Qed.

(** C5 at a first request, a sync request and a next-page request. *)
Lemma C5_witness :
  (url.Get (url.Query (RawQuery ex_first)) (B "sync_token") = []
   /\ url.Get (url.Query (RawQuery ex_first)) (B "next_page_token") = []
   /\ listHandler_cursor ex_clock ex_first
      = inr (mkVars (time.Time_UTC (now_start ex_clock)) time.zero 0 None None))
  /\ (exists c,
         url.Get (url.Query (RawQuery ex_sync_request)) (B "sync_token") <> []
         /\ SyncToken.UnmarshalJSON SyncToken.zero
              (url.Get (url.Query (RawQuery ex_sync_request)) (B "sync_token"))
            = Ok c
         /\ time.Time_Before (SyncToken.ValidUntil c) (now_check ex_clock) = false
         /\ listHandler_cursor ex_clock ex_sync_request
            = inr (mkVars (time.Time_UTC (now_start ex_clock))
                          (time.Unix 1699990000 0) 0 None None))
  /\ (exists c,
         url.Get (url.Query (RawQuery ex_next_request)) (B "sync_token") = []
         /\ url.Get (url.Query (RawQuery ex_next_request)) (B "next_page_token")
            <> []
         /\ NextPageToken.UnmarshalJSON NextPageToken.zero
              (url.Get (url.Query (RawQuery ex_next_request))
                       (B "next_page_token")) = Ok c
         /\ time.Time_Before (NextPageToken.ValidUntil c) (now_check ex_clock)
            = false
         /\ listHandler_cursor ex_clock ex_next_request
            = inr (mkVars (time.Unix 1699990000 0) time.zero 5 None None)).
Proof.
  split; [|split].
  - split; [reflexivity|]. split; [reflexivity|].
    apply (C5_query_planner ex_clock ex_first); reflexivity.
  - eexists. split; [vm_compute; discriminate|].
    split; [vm_compute; reflexivity|]. split; [reflexivity|].
    apply (proj1 (proj2 (C5_query_planner ex_clock ex_sync_request))
             (SyncToken.mk (time.Unix 1699990000 0) (time.Unix 99999999999 0)));
      [vm_compute; discriminate | vm_compute; reflexivity | reflexivity].
  - eexists. split; [vm_compute; reflexivity|].
    split; [vm_compute; discriminate|].
    split; [vm_compute; reflexivity|]. split; [reflexivity|].
    apply (proj2 (proj2 (C5_query_planner ex_clock ex_next_request))
             (NextPageToken.mk (time.Unix 1699990000 0) time.zero 5
                               (time.Unix 99999999999 0)));
      [vm_compute; reflexivity | vm_compute; discriminate
       | vm_compute; reflexivity | reflexivity].
Defined.

(** C7 at two tokens that expired in October 2023. *)
Lemma C7_witness :
  (exists c,
      url.Get (url.Query (RawQuery ex_sync_expired)) (B "sync_token") <> []
      /\ SyncToken.UnmarshalJSON SyncToken.zero
           (url.Get (url.Query (RawQuery ex_sync_expired)) (B "sync_token"))
         = Ok c
      /\ time.Time_Before (SyncToken.ValidUntil c) (now_check ex_clock) = true
      /\ StatusCode (listHandler ex_db ex_clock ex_sync_expired)
         = StatusBadRequest)
  /\ (exists c,
         url.Get (url.Query (RawQuery ex_next_expired)) (B "sync_token") = []
         /\ url.Get (url.Query (RawQuery ex_next_expired)) (B "next_page_token")
            <> []
         /\ NextPageToken.UnmarshalJSON NextPageToken.zero
              (url.Get (url.Query (RawQuery ex_next_expired))
                       (B "next_page_token")) = Ok c
         /\ time.Time_Before (NextPageToken.ValidUntil c) (now_check ex_clock)
            = true
         /\ StatusCode (listHandler ex_db ex_clock ex_next_expired)
            = StatusBadRequest).
Proof.
  split.
  - eexists. split; [vm_compute; discriminate|].
    split; [vm_compute; reflexivity|]. split; [reflexivity|].
    rewrite (proj1 (C7_expired_token_rejected ex_db ex_clock ex_sync_expired)
               (SyncToken.mk (time.Unix 1699000000 0) (time.Unix 1699086400 0)));
      [reflexivity | vm_compute; discriminate | vm_compute; reflexivity
       | reflexivity].
  - eexists. split; [vm_compute; reflexivity|].
    split; [vm_compute; discriminate|].
    split; [vm_compute; reflexivity|]. split; [reflexivity|].
    rewrite (proj2 (C7_expired_token_rejected ex_db ex_clock ex_next_expired)
               (NextPageToken.mk (time.Unix 1699000000 0) time.zero 5
                                 (time.Unix 1699086400 0)));
      [reflexivity | vm_compute; reflexivity | vm_compute; discriminate
       | vm_compute; reflexivity | reflexivity].
Defined.

(** C9 at requests with and without a filter instant. *)
Lemma C9_witness :
  (exists vars,
      listHandler_cursor ex_clock ex_first = inr vars
      /\ time.Time_IsZero (onlyNewerThan vars) = true
      /\ listHandler_statement vars 5
         = SelectAsOf (tableInPointOfTime vars) 5 (offset vars))
  /\ (exists vars,
         listHandler_cursor ex_clock ex_sync_request = inr vars
         /\ time.Time_IsZero (onlyNewerThan vars) = false
         /\ listHandler_statement vars 5
            = SelectAsOfUpdatedAfter (tableInPointOfTime vars)
                                     (onlyNewerThan vars) 5 (offset vars))
  /\ (exists vars,
         listHandler_cursor ex_clock ex_next_zero = inr vars
         /\ forall m, listHandler_statement vars m
                      = SelectAsOf (time.Unix 1699990000 0) m 5)
  /\ (exists vars,
         listHandler_cursor ex_clock ex_sync_zero = inr vars
         /\ forall m, listHandler_statement vars m
                      = SelectAsOf (time.Time_UTC (now_start ex_clock)) m 0).
Proof.
  split; [|split; [|split]].
  - eexists. split; [vm_compute; reflexivity|]. split; [reflexivity|].
    apply (proj1 (C9_zero_updated_after_no_filter ex_clock ex_first));
      reflexivity.
  - eexists. split; [vm_compute; reflexivity|]. split; [reflexivity|].
    apply (proj1 (C9_zero_updated_after_no_filter ex_clock ex_sync_request));
      reflexivity.
  - apply (proj1 (proj2 (proj2
             (C9_zero_updated_after_no_filter ex_clock ex_next_zero)))
             (NextPageToken.mk (time.Unix 1699990000 0) time.zero 5
                               (time.Unix 99999999999 0)));
      [vm_compute; reflexivity | vm_compute; discriminate
       | vm_compute; reflexivity | reflexivity | reflexivity].
  - apply (proj2 (proj2 (proj2
             (C9_zero_updated_after_no_filter ex_clock ex_sync_zero)))
             (SyncToken.mk (time.Unix (-62135596800) 0)
                           (time.Unix 99999999999 0)));
      [vm_compute; discriminate | vm_compute; reflexivity
       | reflexivity | reflexivity].
Defined.

(** ** What a decoded next-page token looks like *)

Lemma ParseInt_range lit n : strconv.ParseInt lit = Some n -> in_int64 n.
Proof.
  unfold strconv.ParseInt.
  destruct (match lit with
            | [] => (false, lit)
            | c :: r => if Ascii.eqb c "-" then (true, r)
                        else if Ascii.eqb c "+" then (false, r) else (false, lit)
            end) as [neg ds].
  destruct ds as [|d ds]; [discriminate|].
  destruct (strconv.parseDigits (d :: ds) 0) as [v|]; [|discriminate].
  destruct (Z.leb_spec min_int64 (if neg then - v else v)); [|discriminate].
  destruct (Z.leb_spec (if neg then - v else v) max_int64); [|discriminate].
  cbn [andb]. intros Heq. inversion Heq. subst. split; assumption.
Qed.

Lemma storeInt_range x old n :
  json.storeInt x old = Ok n -> in_int64 old -> in_int64 n.
Proof.
  destruct x; cbn [json.storeInt]; try discriminate.
  - intros H. inversion H. auto.
  - destruct (strconv.ParseInt lit) as [v|] eqn:E; [|discriminate].
    intros H _. inversion H. subst. eapply ParseInt_range. exact E.
Qed.

Lemma NextPageToken_storeMembers_offset ms :
  forall w w',
    NextPageToken.storeMembers ms w = Ok w' ->
    in_int64 (NextPageToken.v_Offset w) -> in_int64 (NextPageToken.v_Offset w').
Proof.
  induction ms as [|[key x] ms IH]; intros w w' H Hw.
  - inversion H. subst. exact Hw.
  - cbn [NextPageToken.storeMembers] in H.
    destruct (json.keyMatches (B "t") key).
    { destruct (json.storeInt x _) as [n|]; [|discriminate].
      apply IH in H; assumption. }
    destruct (json.keyMatches (B "o") key).
    { destruct (json.storeInt x _) as [n|] eqn:E; [|discriminate].
      apply IH in H; [assumption|]. cbn. eapply storeInt_range; eassumption. }
    destruct (json.keyMatches (B "u") key).
    { destruct (json.storeIntPtr x) as [n|]; [|discriminate].
      apply IH in H; assumption. }
    destruct (json.keyMatches (B "v") key).
    { destruct (json.storeInt x _) as [n|]; [|discriminate].
      apply IH in H; assumption. }
    apply IH in H; assumption.
Qed.

Lemma in_int64_0 : in_int64 0.
Proof. unfold in_int64, min_int64, max_int64. lia. Qed.

(** Every field of a decoded token comes from [time.Unix] (or is the
    zero time), and the offset is an integer of the machine. *)
Lemma NextPageToken_decoded data c :
  NextPageToken.UnmarshalJSON NextPageToken.zero data = Ok c ->
  in_int64 (NextPageToken.Offset c)
  /\ (exists x, NextPageToken.Timestamp c = time.Unix x 0)
  /\ (exists x, NextPageToken.ValidUntil c = time.Unix x 0)
  /\ (NextPageToken.UpdatedAfter c = time.zero
      \/ exists x, NextPageToken.UpdatedAfter c = time.Unix x 0).
Proof.
  unfold NextPageToken.UnmarshalJSON.
  destruct (base64.Decode data) as [buf|]; [|discriminate]. cbn [bind].
  destruct (NextPageToken.Unmarshal buf) as [w|] eqn:Ew; [|discriminate].
  cbn [bind]. intros H. inversion H. subst c. clear H.
  cbn [NextPageToken.Offset NextPageToken.Timestamp NextPageToken.ValidUntil
       NextPageToken.UpdatedAfter].
  split; [|split; [eexists; reflexivity | split; [eexists; reflexivity|]]].
  - unfold NextPageToken.Unmarshal in Ew.
    destruct (json.parse buf) as [doc|]; [|discriminate]. cbn [bind] in Ew.
    destruct doc; try discriminate.
    + inversion Ew. apply in_int64_0.
    + eapply NextPageToken_storeMembers_offset; [exact Ew | apply in_int64_0].
  - destruct (NextPageToken.v_UpdatedAfter w); [right; eexists|left]; reflexivity.
Qed.

Lemma Unix_roundtrip x : time.Unix (time.Time_Unix (time.Unix x 0)) 0 = time.Unix x 0.
Proof.
  rewrite Unix_Time_Unix by apply Unix_wf. reflexivity.
Qed.

(** C6: a request that presents a next-page token and is answered with a
    next-page token gets one for the same snapshot time whose offset is
    the offset decoded from the presented token plus the number of rows of
    the page (the sum being an [int]), so not smaller; and the token
    issued decodes, at the next request, to this offset and snapshot
    time. *)
Theorem C6_offset_chain (db : DB) (clock : Clock) (r : Request)
        (c n : NextPageToken.t) (l : ListResponse) :
  url.Get (url.Query (RawQuery r)) (B "sync_token") = [] ->
  url.Get (url.Query (RawQuery r)) (B "next_page_token") <> [] ->
  NextPageToken.UnmarshalJSON NextPageToken.zero
    (url.Get (url.Query (RawQuery r)) (B "next_page_token")) = Ok c ->
  listHandler db clock r = mkResponse StatusOK (BodyJSON l) ->
  NextPageToken_ l = Some n ->
  NextPageToken.Offset c + len (Users l) <= max_int64 ->
  NextPageToken.Offset n = NextPageToken.Offset c + len (Users l)
  /\ NextPageToken.Offset c <= NextPageToken.Offset n
  /\ NextPageToken.Timestamp n = NextPageToken.Timestamp c
  /\ exists tok c',
      NextPageToken_text n = Ok tok
      /\ NextPageToken.UnmarshalJSON NextPageToken.zero tok = Ok c'
      /\ NextPageToken.Offset c' = NextPageToken.Offset n
      /\ NextPageToken.Timestamp c' = NextPageToken.Timestamp n.
Proof.
  intros E1 E2 E3 E Hn Hsum.
  destruct (NextPageToken_decoded _ _ E3) as (Ho & (x & Hx) & _ & _).
  assert (H200 : StatusCode (listHandler db clock r) = StatusOK)
    by (rewrite E; reflexivity).
  destruct (listHandler_ok db clock r H200) as (vars & users & Ec & Ed & E').
  rewrite E in E'. inversion E' as [El]. clear E' E H200. subst l.
  cbn [NextPageToken_ Users] in Hn, Hsum |- *.
  rewrite (cursor_next clock r c E1 E2 E3) in Ec.
  destruct (time.Time_Before _ _); [discriminate|]. inversion Ec. subst vars.
  clear Ec. unfold listHandler_continuation in Hn.
  cbn [nextPageToken tableInPointOfTime onlyNewerThan offset syncToken] in Hn.
  destruct ((len users =? 0) || (len users <? listHandler_maxResults r));
    cbn [fst] in Hn; [discriminate|].
  inversion Hn. subst n. clear Hn.
  cbn [NextPageToken.Offset NextPageToken.Timestamp].
  pose proof (len_nonneg users) as Hlen.
  assert (Ew : wrap64 (NextPageToken.Offset c + len users)
               = NextPageToken.Offset c + len users).
  { apply wrap64_id. destruct Ho as [Hlo _]. split; [lia | exact Hsum]. }
  rewrite Ew.
  split; [reflexivity|]. split; [lia|]. split; [reflexivity|].
  eexists _, _. split; [apply NextPageToken_text_eq|].
  split.
  - apply NextPageToken_decode_text. cbn [NextPageToken.Offset].
    destruct Ho as [Hlo _]. split; [lia | exact Hsum].
  - cbn [NextPageToken.Offset NextPageToken.Timestamp].
    split; [reflexivity|]. rewrite Hx. apply Unix_roundtrip.
Qed.

(** C6 at a request for rows 5 to 9 of twelve. *)
Lemma C6_witness :
  exists c n l,
    url.Get (url.Query (RawQuery ex_next_page5)) (B "sync_token") = []
    /\ url.Get (url.Query (RawQuery ex_next_page5)) (B "next_page_token") <> []
    /\ NextPageToken.UnmarshalJSON NextPageToken.zero
         (url.Get (url.Query (RawQuery ex_next_page5)) (B "next_page_token"))
       = Ok c
    /\ listHandler ex_db ex_clock ex_next_page5
       = mkResponse StatusOK (BodyJSON l)
    /\ NextPageToken_ l = Some n
    /\ NextPageToken.Offset c + len (Users l) <= max_int64
    /\ NextPageToken.Offset c = 5
    /\ len (Users l) = 5
    /\ NextPageToken.Offset n = NextPageToken.Offset c + len (Users l).
Proof.
  eexists _, _, _.
  split; [vm_compute; reflexivity|].
  split; [vm_compute; discriminate|].
  split; [vm_compute; reflexivity|].
  split; [vm_compute; reflexivity|].
  split; [reflexivity|].
  split; [vm_compute; discriminate|].
  split; [reflexivity|]. split; [reflexivity|].
  eapply (C6_offset_chain ex_db ex_clock ex_next_page5);
    [ vm_compute; reflexivity | vm_compute; discriminate
    | vm_compute; reflexivity | vm_compute; reflexivity
    | reflexivity | vm_compute; discriminate ].
Defined.

(** ** Decoding errors *)

Lemma storeInt_bad x old :
  intValue x = false -> json.storeInt x old = Err UnmarshalTypeError.
Proof.
  destruct x; cbn [intValue json.storeInt]; try discriminate; try reflexivity.
  destruct (strconv.ParseInt lit); [discriminate | reflexivity].
Qed.

Lemma storeInt_good x old :
  intValue x = true -> exists n, json.storeInt x old = Ok n.
Proof.
  destruct x; cbn [intValue json.storeInt]; try discriminate.
  - eexists. reflexivity.
  - destruct (strconv.ParseInt lit); [eexists; reflexivity | discriminate].
Qed.

Lemma storeIntPtr_bad x :
  intValue x = false -> json.storeIntPtr x = Err UnmarshalTypeError.
Proof.
  destruct x; cbn [intValue json.storeIntPtr]; try discriminate; try reflexivity.
  destruct (strconv.ParseInt lit); [discriminate | reflexivity].
Qed.

Lemma storeIntPtr_good x :
  intValue x = true -> exists p, json.storeIntPtr x = Ok p.
Proof.
  destruct x; cbn [intValue json.storeIntPtr]; try discriminate.
  - eexists. reflexivity.
  - destruct (strconv.ParseInt lit); [eexists; reflexivity | discriminate].
Qed.

(** [storeMembers] fails exactly on a member that names a field and does
    not hold an integer. *)
Lemma NextPageToken_storeMembers_bad ms :
  forall w, existsb (badMember NextPageToken_field) ms = true ->
            NextPageToken.storeMembers ms w = Err UnmarshalTypeError.
Proof.
  induction ms as [|[key x] ms IH]; intros w H; [discriminate|].
  cbn [existsb] in H. unfold badMember at 1, NextPageToken_field in H.
  cbn [fst snd] in H. cbn [NextPageToken.storeMembers].
  destruct (intValue x) eqn:Ex.
  - rewrite andb_false_r in H. cbn [orb] in H.
    destruct (json.keyMatches (B "t") key).
    { destruct (storeInt_good x (NextPageToken.v_Timestamp w) Ex) as (n & ->).
      cbn [bind]. apply IH. exact H. }
    destruct (json.keyMatches (B "o") key).
    { destruct (storeInt_good x (NextPageToken.v_Offset w) Ex) as (n & ->).
      cbn [bind]. apply IH. exact H. }
    destruct (json.keyMatches (B "u") key).
    { destruct (storeIntPtr_good x Ex) as (n & ->).
      cbn [bind]. apply IH. exact H. }
    destruct (json.keyMatches (B "v") key).
    { destruct (storeInt_good x (NextPageToken.v_ValidUntil w) Ex) as (n & ->).
      cbn [bind]. apply IH. exact H. }
    apply IH. exact H.
  - destruct (json.keyMatches (B "t") key).
    { rewrite storeInt_bad by assumption. reflexivity. }
    destruct (json.keyMatches (B "o") key).
    { rewrite storeInt_bad by assumption. reflexivity. }
    destruct (json.keyMatches (B "u") key).
    { rewrite storeIntPtr_bad by assumption. reflexivity. }
    destruct (json.keyMatches (B "v") key).
    { rewrite storeInt_bad by assumption. reflexivity. }
    cbn [orb andb] in H. apply IH. exact H.
Qed.

Lemma NextPageToken_storeMembers_good ms :
  forall w, existsb (badMember NextPageToken_field) ms = false ->
            exists w', NextPageToken.storeMembers ms w = Ok w'.
Proof.
  induction ms as [|[key x] ms IH]; intros w H; [eexists; reflexivity|].
  cbn [existsb] in H. apply orb_false_iff in H as [Hb H].
  unfold badMember, NextPageToken_field in Hb. cbn [fst snd] in Hb.
  cbn [NextPageToken.storeMembers].
  destruct (json.keyMatches (B "t") key).
  { cbn [orb andb] in Hb. apply negb_false_iff in Hb.
    destruct (storeInt_good x (NextPageToken.v_Timestamp w) Hb) as (n & ->).
    cbn [bind]. apply IH. exact H. }
  destruct (json.keyMatches (B "o") key).
  { cbn [orb andb] in Hb. apply negb_false_iff in Hb.
    destruct (storeInt_good x (NextPageToken.v_Offset w) Hb) as (n & ->).
    cbn [bind]. apply IH. exact H. }
  destruct (json.keyMatches (B "u") key).
  { cbn [orb andb] in Hb. apply negb_false_iff in Hb.
    destruct (storeIntPtr_good x Hb) as (n & ->).
    cbn [bind]. apply IH. exact H. }
  destruct (json.keyMatches (B "v") key).
  { cbn [orb andb] in Hb. apply negb_false_iff in Hb.
    destruct (storeInt_good x (NextPageToken.v_ValidUntil w) Hb) as (n & ->).
    cbn [bind]. apply IH. exact H. }
  apply IH. exact H.
Qed.

Lemma SyncToken_storeMembers_bad ms :
  forall w, existsb (badMember SyncToken_field) ms = true ->
            SyncToken.storeMembers ms w = Err UnmarshalTypeError.
Proof.
  induction ms as [|[key x] ms IH]; intros w H; [discriminate|].
  cbn [existsb] in H. unfold badMember at 1, SyncToken_field in H.
  cbn [fst snd] in H. cbn [SyncToken.storeMembers].
  destruct (intValue x) eqn:Ex.
  - rewrite andb_false_r in H. cbn [orb] in H.
    destruct (json.keyMatches (B "t") key).
    { destruct (storeInt_good x (SyncToken.v_Timestamp w) Ex) as (n & ->).
      cbn [bind]. apply IH. exact H. }
    destruct (json.keyMatches (B "v") key).
    { destruct (storeInt_good x (SyncToken.v_ValidUntil w) Ex) as (n & ->).
      cbn [bind]. apply IH. exact H. }
    apply IH. exact H.
  - destruct (json.keyMatches (B "t") key).
    { rewrite storeInt_bad by assumption. reflexivity. }
    destruct (json.keyMatches (B "v") key).
    { rewrite storeInt_bad by assumption. reflexivity. }
    cbn [orb andb] in H. apply IH. exact H.
Qed.

Lemma SyncToken_storeMembers_good ms :
  forall w, existsb (badMember SyncToken_field) ms = false ->
            exists w', SyncToken.storeMembers ms w = Ok w'.
Proof.
  induction ms as [|[key x] ms IH]; intros w H; [eexists; reflexivity|].
  cbn [existsb] in H. apply orb_false_iff in H as [Hb H].
  unfold badMember, SyncToken_field in Hb. cbn [fst snd] in Hb.
  cbn [SyncToken.storeMembers].
  destruct (json.keyMatches (B "t") key).
  { cbn [orb andb] in Hb. apply negb_false_iff in Hb.
    destruct (storeInt_good x (SyncToken.v_Timestamp w) Hb) as (n & ->).
    cbn [bind]. apply IH. exact H. }
  destruct (json.keyMatches (B "v") key).
  { cbn [orb andb] in Hb. apply negb_false_iff in Hb.
    destruct (storeInt_good x (SyncToken.v_ValidUntil w) Hb) as (n & ->).
    cbn [bind]. apply IH. exact H. }
  apply IH. exact H.
Qed.

Lemma NextPageToken_undecodable tok data :
  undecodable NextPageToken_field data = true
  <-> exists e, NextPageToken.UnmarshalJSON tok data = Err e.
Proof.
  unfold undecodable, NextPageToken.UnmarshalJSON, NextPageToken.Unmarshal.
  destruct (base64.Decode data) as [buf | e]; cbn [bind];
    [|split; [eexists; reflexivity | reflexivity]].
  destruct (json.parse buf) as [doc | e]; cbn [bind];
    [|split; [eexists; reflexivity | reflexivity]].
  destruct doc; cbn [wrongShape bind];
    try (split; [eexists; reflexivity | reflexivity]).
  - split; [discriminate | intros (e & H); discriminate].
  - destruct (existsb (badMember NextPageToken_field) members) eqn:Eb.
    + rewrite NextPageToken_storeMembers_bad by assumption. cbn [bind].
      split; [eexists; reflexivity | reflexivity].
    + destruct (NextPageToken_storeMembers_good members
                  NextPageToken.wire_zero Eb) as (w & ->).
      cbn [bind]. split; [discriminate | intros (e & H); discriminate].
Qed.

Lemma SyncToken_undecodable tok data :
  undecodable SyncToken_field data = true
  <-> exists e, SyncToken.UnmarshalJSON tok data = Err e.
Proof.
  unfold undecodable, SyncToken.UnmarshalJSON, SyncToken.Unmarshal.
  destruct (base64.Decode data) as [buf | e]; cbn [bind];
    [|split; [eexists; reflexivity | reflexivity]].
  destruct (json.parse buf) as [doc | e]; cbn [bind];
    [|split; [eexists; reflexivity | reflexivity]].
  destruct doc; cbn [wrongShape bind];
    try (split; [eexists; reflexivity | reflexivity]).
  - split; [discriminate | intros (e & H); discriminate].
  - destruct (existsb (badMember SyncToken_field) members) eqn:Eb.
    + rewrite SyncToken_storeMembers_bad by assumption. cbn [bind].
      split; [eexists; reflexivity | reflexivity].
    + destruct (SyncToken_storeMembers_good members
                  SyncToken.wire_zero Eb) as (w & ->).
      cbn [bind]. split; [discriminate | intros (e & H); discriminate].
Qed.

(** C4 (amended): [UnmarshalJSON] of either token returns an error, and
    a request that carries the text the status 400 with the error and no
    rows, exactly when the base64 text is invalid, or the decoded bytes
    are not a JSON document, or the document is neither an object nor
    null, or a member named t, o, u or v (t or v for the sync token)
    holds something other than an integer within int64 or null.  It
    either fails or returns a whole token; a field that is missing is not
    an error. *)
Theorem C4_decode_errors (db : DB) (clock : Clock) (r : Request)
        (data : bytes) (np : NextPageToken.t) (st : SyncToken.t) :
  let sync := url.Get (url.Query (RawQuery r)) (B "sync_token") in
  let next := url.Get (url.Query (RawQuery r)) (B "next_page_token") in
  (undecodable NextPageToken_field data = true
   <-> exists e, NextPageToken.UnmarshalJSON np data = Err e)
  /\ (undecodable SyncToken_field data = true
      <-> exists e, SyncToken.UnmarshalJSON st data = Err e)
  /\ (sync = data -> data <> [] ->
      undecodable SyncToken_field data = true ->
      exists e, listHandler db clock r
                = mkResponse StatusBadRequest (BodyError e))
  /\ (sync = [] -> next = data -> data <> [] ->
      undecodable NextPageToken_field data = true ->
      exists e, listHandler db clock r
                = mkResponse StatusBadRequest (BodyError e)).
Proof.
  intros sync next.
  split; [apply NextPageToken_undecodable|].
  split; [apply SyncToken_undecodable|]. split.
  - intros E1 E2 U.
    apply (SyncToken_undecodable SyncToken.zero) in U as (e & He).
    exists e. apply (proj1 (listHandler_decode_error db clock r)).
    + fold sync. rewrite E1. exact E2.
    + fold sync. rewrite E1. exact He.
  - intros E1 E2 E3 U.
    apply (NextPageToken_undecodable NextPageToken.zero) in U as (e & He).
    exists e. apply (proj2 (listHandler_decode_error db clock r)).
    + exact E1.
    + fold next. rewrite E2. exact E3.
    + fold next. rewrite E2. exact He.
Qed.

(** C4 (amended) at one text for each cause of failure. *)
Lemma C4_witness :
  (undecodable NextPageToken_field ex_bad_base64 = true
   /\ exists e, NextPageToken.UnmarshalJSON NextPageToken.zero ex_bad_base64
                = Err e)
  /\ (undecodable SyncToken_field ex_bad_json = true
      /\ exists e, SyncToken.UnmarshalJSON SyncToken.zero ex_bad_json = Err e)
  /\ (undecodable SyncToken_field ex_bad_shape = true
      /\ exists e, SyncToken.UnmarshalJSON SyncToken.zero ex_bad_shape = Err e)
  /\ (url.Get (url.Query (B "sync_token=" ++ ex_bad_member)) (B "sync_token")
      = ex_bad_member
      /\ ex_bad_member <> []
      /\ undecodable SyncToken_field ex_bad_member = true
      /\ exists e, listHandler ex_db ex_clock
                     (mkRequest (B "sync_token=" ++ ex_bad_member))
                   = mkResponse StatusBadRequest (BodyError e))
  /\ (url.Get (url.Query (B "next_page_token=" ++ ex_bad_member))
              (B "sync_token") = []
      /\ url.Get (url.Query (B "next_page_token=" ++ ex_bad_member))
                 (B "next_page_token") = ex_bad_member
      /\ undecodable NextPageToken_field ex_bad_member = true
      /\ exists e, listHandler ex_db ex_clock
                     (mkRequest (B "next_page_token=" ++ ex_bad_member))
                   = mkResponse StatusBadRequest (BodyError e)).
Proof.
  split; [|split; [|split; [|split]]].
  - split; [reflexivity|].
    apply (proj1 (C4_decode_errors ex_db ex_clock ex_first ex_bad_base64
                    NextPageToken.zero SyncToken.zero)). reflexivity.
  - split; [reflexivity|].
    apply (proj1 (proj2 (C4_decode_errors ex_db ex_clock ex_first ex_bad_json
                           NextPageToken.zero SyncToken.zero))). reflexivity.
  - split; [reflexivity|].
    apply (proj1 (proj2 (C4_decode_errors ex_db ex_clock ex_first ex_bad_shape
                           NextPageToken.zero SyncToken.zero))). reflexivity.
  - split; [reflexivity|]. split; [vm_compute; discriminate|].
    split; [reflexivity|].
    apply (proj1 (proj2 (proj2
             (C4_decode_errors ex_db ex_clock
                (mkRequest (B "sync_token=" ++ ex_bad_member)) ex_bad_member
                NextPageToken.zero SyncToken.zero))));
      [reflexivity | vm_compute; discriminate | reflexivity].
  - split; [reflexivity|]. split; [reflexivity|]. split; [reflexivity|].
    apply (proj2 (proj2 (proj2
             (C4_decode_errors ex_db ex_clock
                (mkRequest (B "next_page_token=" ++ ex_bad_member)) ex_bad_member
                NextPageToken.zero SyncToken.zero))));
      [reflexivity | reflexivity | vm_compute; discriminate | reflexivity].
Defined.

(** C4 as stated fails: the text e30= is valid base64 of the document
    with no member at all, every field is missing, and both decoders
    accept it; a sync token without its timestamp t is served rows. *)
Lemma C4_counterexample :
  base64.Decode ex_no_fields = Ok (B "{}")
  /\ json.parse (B "{}") = Ok (json.Object [])
  /\ NextPageToken.UnmarshalJSON NextPageToken.zero ex_no_fields
     = Ok (NextPageToken.mk (time.Unix 0 0) time.zero 0 (time.Unix 0 0))
  /\ SyncToken.UnmarshalJSON SyncToken.zero ex_no_fields
     = Ok (SyncToken.mk (time.Unix 0 0) (time.Unix 0 0))
  /\ exists l,
      listHandler ex_db ex_clock ex_no_timestamp
      = mkResponse StatusOK (BodyJSON l)
      /\ len (Users l) = 10.
Proof.
  repeat split; try reflexivity.
  eexists. split; vm_compute; reflexivity.
Qed.

(** ** The token text in a query string *)

Lemma jsonByte_In c : jsonByte c = true -> In c jsonAlphabet.
Proof.
  unfold jsonByte. intros H. apply existsb_exists in H as (x & Hin & Hx).
  apply Ascii.eqb_eq in Hx. subst. exact Hin.
Qed.

Lemma isDigit_jsonByte c : isDigit c = true -> jsonByte c = true.
Proof.
  intros H. unfold isDigit, in_range in H.
  apply andb_true_iff in H as [H1 H2]. apply Z.leb_le in H1, H2.
  change (byteZ "0") with 48 in H1. change (byteZ "9") with 57 in H2.
  rewrite <- (Zbyte_byteZ c).
  assert (C : byteZ c = 48 \/ byteZ c = 49 \/ byteZ c = 50 \/ byteZ c = 51
              \/ byteZ c = 52 \/ byteZ c = 53 \/ byteZ c = 54 \/ byteZ c = 55
              \/ byteZ c = 56 \/ byteZ c = 57) by lia.
  repeat destruct C as [-> | C]; try rewrite C; reflexivity.
Qed.

Lemma FormatInt_jsonBytes i : forallb jsonByte (strconv.FormatInt i) = true.
Proof.
  assert (U : forall u, 0 <= u -> forallb jsonByte (strconv.FormatUint u) = true).
  { intros u Hu. destruct (FormatUint_head u Hu) as (c & ds & -> & Hc & Hds).
    cbn [forallb]. rewrite (isDigit_jsonByte c Hc). cbn [andb].
    apply forallb_forall. intros x Hx. apply isDigit_jsonByte.
    rewrite Forall_forall in Hds. auto. }
  unfold strconv.FormatInt. destruct (Z.ltb_spec i 0).
  - cbn [forallb]. rewrite U by lia. reflexivity.
  - apply U. assumption.
Qed.

Lemma marshalEntries_jsonBytes l :
  Forall (fun e => forallb jsonByte (fst e) = true) l ->
  forallb jsonByte (json.marshalEntries l) = true.
Proof.
  assert (E : forall e, forallb jsonByte (fst e) = true ->
                        forallb jsonByte (json.marshalEntry e) = true).
  { intros e He. unfold json.marshalEntry. cbn [forallb].
    rewrite forallb_app. cbn [forallb].
    rewrite He, FormatInt_jsonBytes. reflexivity. }
  induction 1 as [|e l He Hl IH]; [reflexivity|].
  destruct l as [|e' l]; [apply E; assumption|].
  rewrite marshalEntries_cons by discriminate.
  rewrite forallb_app. cbn [forallb]. rewrite E, IH by assumption. reflexivity.
Qed.

Lemma MarshalStruct_jsonBytes l :
  Forall (fun e => forallb jsonByte (fst e) = true) l ->
  forallb jsonByte (json.MarshalStruct l) = true.
Proof.
  intros H. unfold json.MarshalStruct. cbn [forallb].
  rewrite forallb_app, marshalEntries_jsonBytes by assumption. reflexivity.
Qed.

Lemma NextPageToken_json_bytes t : forallb jsonByte (NextPageToken_json t) = true.
Proof.
  unfold NextPageToken_json. apply MarshalStruct_jsonBytes.
  destruct (time.Time_IsZero _); repeat constructor.
Qed.

Lemma SyncToken_json_bytes t : forallb jsonByte (SyncToken_json t) = true.
Proof.
  unfold SyncToken_json. apply MarshalStruct_jsonBytes. repeat constructor.
Qed.

(** base64 of JSON bytes never uses the characters [+] and [/]: checked
    on every group of up to three bytes of the alphabet. *)
Lemma Encode_groups_alnum :
  forallb (fun a => forallb (fun b => forallb (fun c =>
     forallb alnum_or_pad (base64.Encode [a; b; c])) jsonAlphabet)
     jsonAlphabet) jsonAlphabet = true
  /\ forallb (fun a => forallb (fun b =>
       forallb alnum_or_pad (base64.Encode [a; b])) jsonAlphabet)
       jsonAlphabet = true
  /\ forallb (fun a => forallb alnum_or_pad (base64.Encode [a])) jsonAlphabet
     = true.
Proof. repeat split; vm_compute; reflexivity. Qed.

Lemma Encode_cons3 a b c rest :
  base64.Encode (a :: b :: c :: rest)
  = base64.Encode [a; b; c] ++ base64.Encode rest.
Proof. reflexivity. Qed.

Lemma Encode_json_alnum src :
  forallb jsonByte src = true -> forallb alnum_or_pad (base64.Encode src) = true.
Proof.
  destruct Encode_groups_alnum as (G3 & G2 & G1).
  rewrite forallb_forall in G3, G2, G1.
  induction src as [|a|a b|a b c r IH] using list_ind3; intros H.
  - reflexivity.
  - cbn [forallb] in H. rewrite andb_true_r in H.
    apply G1. apply jsonByte_In. exact H.
  - cbn [forallb] in H. rewrite andb_true_r in H.
    apply andb_true_iff in H as [Ha Hb].
    specialize (G2 a (jsonByte_In a Ha)). rewrite forallb_forall in G2.
    apply G2. apply jsonByte_In. exact Hb.
  - cbn [forallb] in H.
    apply andb_true_iff in H as [Ha H]. apply andb_true_iff in H as [Hb H].
    apply andb_true_iff in H as [Hc H].
    rewrite Encode_cons3, forallb_app, IH by assumption.
    specialize (G3 a (jsonByte_In a Ha)). rewrite forallb_forall in G3.
    specialize (G3 b (jsonByte_In b Hb)). rewrite forallb_forall in G3.
    rewrite (G3 c (jsonByte_In c Hc)). reflexivity.
Qed.

Lemma alnum_or_pad_queryByte c : alnum_or_pad c = true -> queryByte c = true.
Proof.
  intros H. unfold queryByte. apply negb_true_iff.
  cbn [existsb B list_ascii_of_string].
  destruct (Ascii.eqb_spec c "&") as [-> |]; [discriminate|].
  destruct (Ascii.eqb_spec c ";") as [-> |]; [discriminate|].
  destruct (Ascii.eqb_spec c "%") as [-> |]; [discriminate|].
  destruct (Ascii.eqb_spec c "+") as [-> |]; [discriminate|].
  reflexivity.
Qed.

Lemma queryByte_neq c :
  queryByte c = true ->
  Ascii.eqb c "&" = false /\ Ascii.eqb ";" c = false
  /\ Ascii.eqb c "%" = false /\ Ascii.eqb c "+" = false.
Proof.
  unfold queryByte. rewrite negb_true_iff. cbn [existsb B list_ascii_of_string].
  rewrite !orb_false_iff. rewrite (Ascii.eqb_sym ";" c). tauto.
Qed.

Lemma QueryUnescape_plain s :
  forallb queryByte s = true -> url.QueryUnescape s = Some s.
Proof.
  induction s as [|c s IH]; [reflexivity|]. cbn [forallb].
  rewrite andb_true_iff. intros [Hc Hs].
  destruct (queryByte_neq c Hc) as (_ & _ & H3 & H4).
  cbn [url.QueryUnescape]. rewrite H3, H4, IH by assumption. reflexivity.
Qed.

Lemma split_plain s : forall cur,
  forallb queryByte s = true -> url.split "&" s cur = [rev cur ++ s].
Proof.
  induction s as [|c s IH]; intros cur H.
  - cbn [url.split]. rewrite app_nil_r. reflexivity.
  - cbn [forallb] in H. apply andb_true_iff in H as [Hc Hs].
    destruct (queryByte_neq c Hc) as (H1 & _).
    cbn [url.split]. rewrite H1, IH by assumption. cbn [rev].
    rewrite <- app_assoc. reflexivity.
Qed.

Lemma split_first s more : forall cur,
  forallb queryByte s = true ->
  url.split "&" (s ++ "&"%char :: more) cur
  = (rev cur ++ s) :: url.split "&" more [].
Proof.
  induction s as [|c s IH]; intros cur H.
  - cbn [app url.split Ascii.eqb Bool.eqb]. rewrite app_nil_r. reflexivity.
  - cbn [forallb] in H. apply andb_true_iff in H as [Hc Hs].
    destruct (queryByte_neq c Hc) as (H1 & _).
    cbn [app url.split]. rewrite H1, IH by assumption. cbn [rev].
    rewrite <- app_assoc. reflexivity.
Qed.

Lemma cut_key key v :
  forallb (fun c => negb (Ascii.eqb c "=")) key = true ->
  url.cut "=" (key ++ "="%char :: v) = (key, v).
Proof.
  induction key as [|c key IH]; intros H; [reflexivity|].
  cbn [forallb] in H. apply andb_true_iff in H as [Hc Hk].
  apply negb_true_iff in Hc. cbn [app url.cut]. rewrite Hc, IH by assumption.
  reflexivity.
Qed.

Lemma existsb_semicolon s :
  forallb queryByte s = true -> existsb (Ascii.eqb ";") s = false.
Proof.
  induction s as [|c s IH]; [reflexivity|]. cbn [forallb existsb].
  rewrite andb_true_iff. intros [Hc Hs].
  destruct (queryByte_neq c Hc) as (_ & H2 & _). rewrite H2, IH by assumption.
  reflexivity.
Qed.

(** A setting [key=value] of plain bytes is read as it stands. *)
Lemma parseSetting_plain key v :
  forallb queryByte key = true ->
  forallb (fun c => negb (Ascii.eqb c "=")) key = true ->
  forallb queryByte v = true ->
  url.parseSetting (key ++ "="%char :: v) = Some (key, v).
Proof.
  intros Hk He Hv. unfold url.parseSetting.
  rewrite existsb_semicolon
    by (rewrite forallb_app; cbn [forallb]; rewrite Hk, Hv; reflexivity).
  rewrite cut_key by assumption.
  rewrite !QueryUnescape_plain by assumption.
  destruct key; reflexivity.
Qed.

Lemma Get_setting key v more :
  forallb queryByte key = true ->
  forallb (fun c => negb (Ascii.eqb c "=")) key = true ->
  forallb queryByte v = true ->
  url.Get (url.Query (key ++ "="%char :: v)) key = v
  /\ url.Get (url.Query (key ++ "="%char :: v ++ "&"%char :: more)) key = v.
Proof.
  intros Hk He Hv.
  assert (Hkv : forallb queryByte (key ++ "="%char :: v) = true)
    by (rewrite forallb_app; cbn [forallb]; rewrite Hk, Hv; reflexivity).
  unfold url.Query. split.
  - rewrite split_plain by assumption. cbn [rev app url.collect].
    rewrite parseSetting_plain by assumption.
    cbn [url.Get]. rewrite bytes_eqb_refl. reflexivity.
  - change (key ++ "="%char :: v ++ "&"%char :: more)
      with (key ++ ("="%char :: v) ++ "&"%char :: more).
    rewrite app_assoc, split_first by assumption.
    cbn [rev app url.collect]. rewrite parseSetting_plain by assumption.
    cbn [url.Get]. rewrite bytes_eqb_refl. reflexivity.
Qed.

(** What the alphabet of [StdEncoding] could do to a value: a plus sign
    is read as a space. *)
Example plus_is_not_read_back :
  url.Get (url.Query (B "sync_token=a+b")) (B "sync_token") = B "a b".
Proof. reflexivity. Qed.

(** C8: the text of either token consists of ASCII letters, digits and
    the padding sign [=] only; written as it stands after
    [sync_token=] or [next_page_token=], alone or before further
    settings, it is what the handler reads back from the query. *)
Theorem C8_token_text_query_safe (t : NextPageToken.t) (s : SyncToken.t) :
  (exists tok,
      NextPageToken_text t = Ok tok
      /\ forallb alnum_or_pad tok = true
      /\ forall more,
          url.Get (url.Query (B "next_page_token=" ++ tok))
                  (B "next_page_token") = tok
          /\ url.Get (url.Query (B "next_page_token=" ++ tok ++ "&"%char :: more))
                     (B "next_page_token") = tok)
  /\ (exists tok,
         SyncToken_text s = Ok tok
         /\ forallb alnum_or_pad tok = true
         /\ forall more,
             url.Get (url.Query (B "sync_token=" ++ tok)) (B "sync_token") = tok
             /\ url.Get (url.Query (B "sync_token=" ++ tok ++ "&"%char :: more))
                        (B "sync_token") = tok).
Proof.
  split.
  - exists (base64.Encode (NextPageToken_json t)).
    split; [apply NextPageToken_text_eq|].
    assert (Ha : forallb alnum_or_pad (base64.Encode (NextPageToken_json t)) = true)
      by (apply Encode_json_alnum, NextPageToken_json_bytes).
    split; [exact Ha|]. intros more.
    apply (Get_setting (B "next_page_token")); try reflexivity.
    apply (forallb_impl alnum_or_pad); [exact alnum_or_pad_queryByte | exact Ha].
  - exists (base64.Encode (SyncToken_json s)).
    split; [apply SyncToken_text_eq|].
    assert (Ha : forallb alnum_or_pad (base64.Encode (SyncToken_json s)) = true)
      by (apply Encode_json_alnum, SyncToken_json_bytes).
    split; [exact Ha|]. intros more.
    apply (Get_setting (B "sync_token")); try reflexivity.
    apply (forallb_impl alnum_or_pad); [exact alnum_or_pad_queryByte | exact Ha].
Qed.

(** ** The budget of [json.parse] is enough *)

Lemma skipSpace_length s : (List.length (json.skipSpace s) <= List.length s)%nat.
Proof.
  induction s as [|c s IH]; [reflexivity|]. cbn [json.skipSpace].
  destruct (json.isSpace c); cbn [List.length] in *; lia.
Qed.

Lemma skipSpace_cons s c r :
  json.skipSpace s = c :: r -> (List.length r < List.length s)%nat.
Proof.
  intros E. pose proof (skipSpace_length s) as H. rewrite E in H.
  cbn [List.length] in H. lia.
Qed.

Lemma scanString_length_bounded n : forall s acc k r,
  (List.length s <= n)%nat ->
  json.scanString s acc = Some (k, r) -> (List.length r < List.length s)%nat.
Proof.
  induction n as [|n IH]; intros s acc k r Hn;
    (destruct s as [|c s]; [discriminate|]); cbn [List.length] in Hn; [lia|].
  cbn [json.scanString].
  destruct (Ascii.eqb c dquote).
  { intros H. inversion H. subst. cbn [List.length]. lia. }
  destruct (Ascii.eqb c "\").
  { destruct s as [|e s]; [discriminate|].
    destruct (json.isSimpleEscape e).
    { intros H. apply IH in H; cbn [List.length] in *; lia. }
    destruct (Ascii.eqb e "u"); [|discriminate].
    destruct s as [|h1 [|h2 [|h3 [|h4 s]]]]; try discriminate.
    destruct (isHex h1 && isHex h2 && isHex h3 && isHex h4); [|discriminate].
    intros H. apply IH in H; cbn [List.length] in *; lia. }
  destruct (byteZ c <? 32); [discriminate|].
  intros H. apply IH in H; cbn [List.length] in *; lia.
Qed.

Lemma scanString_length s acc k r :
  json.scanString s acc = Some (k, r) -> (List.length r < List.length s)%nat.
Proof. apply (scanString_length_bounded (List.length s)). reflexivity. Qed.

Lemma scanDigits_length s : forall ds r,
  json.scanDigits s = (ds, r) -> (List.length r <= List.length s)%nat.
Proof.
  induction s as [|c s IH]; intros ds r; cbn [json.scanDigits].
  - intros H. inversion H. reflexivity.
  - destruct (isDigit c).
    + destruct (json.scanDigits s) as [ds' r'] eqn:E. intros H. inversion H.
      subst. specialize (IH _ _ eq_refl). cbn [List.length]. lia.
    + intros H. inversion H. reflexivity.
Qed.

Lemma scanSign_length s sign r :
  json.scanSign s = (sign, r) -> (List.length r <= List.length s)%nat.
Proof.
  destruct s as [|c s]; cbn [json.scanSign].
  - intros H. inversion H. reflexivity.
  - destruct (Ascii.eqb c "-"); intros H; inversion H; cbn [List.length]; lia.
Qed.

Lemma scanInt_length s ip r :
  json.scanInt s = Some (ip, r) -> (List.length r < List.length s)%nat.
Proof.
  destruct s as [|c s]; cbn [json.scanInt]; [discriminate|].
  destruct (Ascii.eqb c "0").
  - intros H. inversion H. cbn [List.length]. lia.
  - destruct (in_range "1" "9" c); [|discriminate].
    destruct (json.scanDigits s) as [ds r'] eqn:E. intros H. inversion H.
    subst. apply scanDigits_length in E. cbn [List.length]. lia.
Qed.

Lemma scanFrac_length s fp r :
  json.scanFrac s = Some (fp, r) -> (List.length r <= List.length s)%nat.
Proof.
  destruct s as [|d s]; cbn [json.scanFrac].
  - intros H. inversion H. reflexivity.
  - destruct (Ascii.eqb d ".").
    + destruct (json.scanDigits s) as [[|d0 l] r'] eqn:E; [discriminate|].
      intros H. inversion H. subst. apply scanDigits_length in E.
      cbn [List.length]. lia.
    + intros H. inversion H. reflexivity.
Qed.

Lemma scanExp_length s ep r :
  json.scanExp s = Some (ep, r) -> (List.length r <= List.length s)%nat.
Proof.
  destruct s as [|e s]; cbn [json.scanExp].
  - intros H. inversion H. reflexivity.
  - destruct (Ascii.eqb e "e" || Ascii.eqb e "E").
    + destruct s as [|g s'].
      * cbn [json.scanDigits]. discriminate.
      * destruct (Ascii.eqb g "+" || Ascii.eqb g "-").
        -- destruct (json.scanDigits s') as [[|d0 l] r'] eqn:E; [discriminate|].
           intros H. inversion H. subst. apply scanDigits_length in E.
           cbn [List.length]. lia.
        -- destruct (json.scanDigits (g :: s')) as [[|d0 l] r'] eqn:E;
             [discriminate|].
           intros H. inversion H. subst. apply scanDigits_length in E.
           cbn [List.length] in *. lia.
    + intros H. inversion H. reflexivity.
Qed.

Lemma scanNumber_length s lit r :
  json.scanNumber s = Some (lit, r) -> (List.length r < List.length s)%nat.
Proof.
  unfold json.scanNumber.
  destruct (json.scanSign s) as [sign s1] eqn:E1. apply scanSign_length in E1.
  destruct (json.scanInt s1) as [[ip s2]|] eqn:E2; [|discriminate].
  apply scanInt_length in E2.
  destruct (json.scanFrac s2) as [[fp s3]|] eqn:E3; [|discriminate].
  apply scanFrac_length in E3.
  destruct (json.scanExp s3) as [[ep s4]|] eqn:E4; [|discriminate].
  apply scanExp_length in E4.
  intros H. inversion H. subst. lia.
Qed.

Lemma stripPrefix_length p : forall s r,
  json.stripPrefix p s = Some r ->
  (List.length r + List.length p = List.length s)%nat.
Proof.
  induction p as [|a p IH]; intros s r; cbn [json.stripPrefix].
  - intros H. inversion H. cbn [List.length]. lia.
  - destruct s as [|b s]; [discriminate|].
    destruct (Ascii.eqb a b); [|discriminate].
    intros H. apply IH in H. cbn [List.length]. lia.
Qed.

Ltac lengths :=
  repeat match goal with
         | H : json.skipSpace _ = _ :: _ |- _ => apply skipSpace_cons in H
         | H : json.scanString _ _ = Some _ |- _ => apply scanString_length in H
         | H : json.scanNumber _ = Some _ |- _ => apply scanNumber_length in H
         | H : json.stripPrefix _ _ = Some _ |- _ => apply stripPrefix_length in H
         end;
  cbn [List.length B list_ascii_of_string] in *; try lia.

(** With a budget above twice the input, no parsing function ever runs
    out of it, and a value read consumes input. *)
Lemma parse_budget fuel :
  (forall depth s,
      (2 * List.length s < fuel)%nat ->
      consumed (json.parseValue fuel depth s) s)
  /\ (forall depth s acc,
         (2 * List.length s + 1 < fuel)%nat ->
         consumed (json.parseElems fuel depth s acc) s)
  /\ (forall depth s acc,
         (2 * List.length s + 1 < fuel)%nat ->
         consumed (json.parseMembers fuel depth s acc) s).
Proof.
  induction fuel as [|fuel (IHv & IHe & IHm)].
  { repeat split; intros; lia. }
  split; [|split].
  - intros depth s Hf. cbn [json.parseValue].
    destruct s as [|c r]; [exact I|].
    destruct (Ascii.eqb c "{").
    { destruct (json.maxNestingDepth <=? depth); [exact I|].
      destruct (json.skipSpace r) as [|c1 r1] eqn:Es; [exact I|].
      destruct (Ascii.eqb c1 "}"); [cbn [consumed]; lengths|].
      pose proof (IHm (depth + 1) (c1 :: r1) []) as Hm.
      destruct (json.parseMembers fuel (depth + 1) (c1 :: r1) []);
        cbn [consumed] in *; lengths; apply Hm; lengths. }
    destruct (Ascii.eqb c "[").
    { destruct (json.maxNestingDepth <=? depth); [exact I|].
      destruct (json.skipSpace r) as [|c1 r1] eqn:Es; [exact I|].
      destruct (Ascii.eqb c1 "]"); [cbn [consumed]; lengths|].
      pose proof (IHe (depth + 1) (c1 :: r1) []) as He.
      destruct (json.parseElems fuel (depth + 1) (c1 :: r1) []);
        cbn [consumed] in *; lengths; apply He; lengths. }
    destruct (Ascii.eqb c dquote).
    { destruct (json.scanString r []) as [[raw r1]|] eqn:Es; [|exact I].
      cbn [consumed]. lengths. }
    destruct (Ascii.eqb c "-" || isDigit c).
    { destruct (json.scanNumber (c :: r)) as [[lit r1]|] eqn:Es; [|exact I].
      cbn [consumed]. lengths. }
    destruct (Ascii.eqb c "t").
    { destruct (json.stripPrefix (B "true") (c :: r)) as [r1|] eqn:Es; [|exact I].
      cbn [consumed]. lengths. }
    destruct (Ascii.eqb c "f").
    { destruct (json.stripPrefix (B "false") (c :: r)) as [r1|] eqn:Es; [|exact I].
      cbn [consumed]. lengths. }
    destruct (Ascii.eqb c "n").
    { destruct (json.stripPrefix (B "null") (c :: r)) as [r1|] eqn:Es; [|exact I].
      cbn [consumed]. lengths. }
    exact I.
  - intros depth s acc Hf. cbn [json.parseElems].
    pose proof (IHv depth s ltac:(lia)) as Hv.
    destruct (json.parseValue fuel depth s) as [v r| |]; cbn [consumed] in *;
      [|exact I | contradiction].
    destruct (json.skipSpace r) as [|c r1] eqn:Es; [exact I|].
    destruct (Ascii.eqb c ",").
    { pose proof (skipSpace_length r1) as Hs.
      pose proof (IHe depth (json.skipSpace r1) (v :: acc)) as He.
      destruct (json.parseElems fuel depth (json.skipSpace r1) (v :: acc));
        cbn [consumed] in *; lengths; apply He; lengths. }
    destruct (Ascii.eqb c "]"); [cbn [consumed]; lengths | exact I].
  - intros depth s acc Hf. cbn [json.parseMembers].
    destruct s as [|q r]; [exact I|].
    destruct (Ascii.eqb q dquote); [|exact I].
    destruct (json.scanString r []) as [[key r1]|] eqn:Ek; [|exact I].
    destruct (json.skipSpace r1) as [|c r2] eqn:E1; [exact I|].
    destruct (Ascii.eqb c ":"); [|exact I].
    pose proof (skipSpace_length r2) as Hs2.
    pose proof (IHv depth (json.skipSpace r2)) as Hv.
    destruct (json.parseValue fuel depth (json.skipSpace r2)) as [v r3| |];
      cbn [consumed] in *; [|exact I | lengths; apply Hv; lengths].
    assert (Hr3 : (List.length r3 < List.length (json.skipSpace r2))%nat)
      by (apply Hv; lengths).
    destruct (json.skipSpace r3) as [|c' r4] eqn:E3; [exact I|].
    destruct (Ascii.eqb c' ",").
    { pose proof (skipSpace_length r4) as Hs4.
      pose proof (IHm depth (json.skipSpace r4) ((key, v) :: acc)) as Hm.
      destruct (json.parseMembers fuel depth (json.skipSpace r4) ((key, v) :: acc));
        cbn [consumed] in *; lengths; apply Hm; lengths. }
    destruct (Ascii.eqb c' "}"); [cbn [consumed]; lengths | exact I].
Qed.

(** [json.parse] never fails for lack of budget. *)
Lemma parse_never_out_of_budget data :
  json.parseValue (2 * List.length data + 2) 0 (json.skipSpace data)
  <> json.PFuel.
Proof.
  pose proof (skipSpace_length data) as Hs.
  pose proof (proj1 (parse_budget (2 * List.length data + 2)) 0
                (json.skipSpace data) ltac:(lia)) as H.
  intros E. rewrite E in H. exact H.
Qed.

(** * More properties of the program *)

(** ** Reading the settings of a client's request *)

Lemma jsonByte_queryByte c : jsonByte c = true -> queryByte c = true.
Proof.
  intros H. apply jsonByte_In in H. revert c H. apply Forall_forall.
  repeat constructor.
Qed.

Lemma FormatInt_queryBytes n : forallb queryByte (strconv.FormatInt n) = true.
Proof.
  apply (forallb_impl jsonByte); [exact jsonByte_queryByte|].
  apply FormatInt_jsonBytes.
Qed.

Lemma FormatInt_no_equals n :
  forallb (fun c => negb (Ascii.eqb c "=")) (strconv.FormatInt n) = true.
Proof.
  apply (forallb_impl jsonByte); [|apply FormatInt_jsonBytes].
  intros c H. apply jsonByte_In in H. revert c H. apply Forall_forall.
  repeat constructor.
Qed.

(** Two settings of plain bytes. *)
Lemma Query_two k1 v1 k2 v2 :
  forallb queryByte k1 = true ->
  forallb (fun c => negb (Ascii.eqb c "=")) k1 = true ->
  forallb queryByte v1 = true ->
  forallb queryByte k2 = true ->
  forallb (fun c => negb (Ascii.eqb c "=")) k2 = true ->
  forallb queryByte v2 = true ->
  url.Query (k1 ++ "="%char :: v1 ++ "&"%char :: k2 ++ "="%char :: v2)
  = [(k1, v1); (k2, v2)].
Proof.
  intros K1 E1 V1 K2 E2 V2. unfold url.Query.
  change (k1 ++ "="%char :: v1 ++ "&"%char :: k2 ++ "="%char :: v2)
    with (k1 ++ ("="%char :: v1) ++ "&"%char :: k2 ++ "="%char :: v2).
  rewrite app_assoc, split_first
    by (rewrite forallb_app; cbn [forallb]; rewrite K1, V1; reflexivity).
  rewrite split_plain
    by (rewrite forallb_app; cbn [forallb]; rewrite K2, V2; reflexivity).
  cbn [rev app url.collect].
  rewrite !parseSetting_plain by assumption. reflexivity.
Qed.

Lemma Query_one k v :
  forallb queryByte k = true ->
  forallb (fun c => negb (Ascii.eqb c "=")) k = true ->
  forallb queryByte v = true ->
  url.Query (k ++ "="%char :: v) = [(k, v)].
Proof.
  intros K E V. unfold url.Query.
  rewrite split_plain
    by (rewrite forallb_app; cbn [forallb]; rewrite K, V; reflexivity).
  cbn [rev app url.collect]. rewrite parseSetting_plain by assumption.
  reflexivity.
Qed.

Lemma isEmpty_FormatInt n : isEmpty (strconv.FormatInt n) = false.
Proof.
  destruct (FormatInt_head n) as (h & t & -> & _). reflexivity.
Qed.

Lemma Atoi_FormatInt n : in_int64 n -> strconv.Atoi (strconv.FormatInt n) = Some n.
Proof. apply ParseInt_FormatInt. Qed.

Lemma b64_queryBytes src :
  forallb jsonByte src = true -> forallb queryByte (base64.Encode src) = true.
Proof.
  intros H. apply (forallb_impl alnum_or_pad); [exact alnum_or_pad_queryByte|].
  apply Encode_json_alnum. exact H.
Qed.

Lemma first_request_settings m :
  url.Query (RawQuery (first_request m))
  = [(B "max_results", strconv.FormatInt m)].
Proof.
  unfold first_request. cbn [RawQuery].
  apply (Query_one (B "max_results")); try reflexivity.
  apply FormatInt_queryBytes.
Qed.

Lemma next_request_settings m src :
  forallb jsonByte src = true ->
  url.Query (RawQuery (next_request m (base64.Encode src)))
  = [(B "next_page_token", base64.Encode src);
     (B "max_results", strconv.FormatInt m)].
Proof.
  intros H. unfold next_request. cbn [RawQuery].
  change (B "next_page_token=" ++ base64.Encode src
          ++ B "&max_results=" ++ strconv.FormatInt m)
    with (B "next_page_token" ++ "="%char :: base64.Encode src
          ++ "&"%char :: B "max_results" ++ "="%char :: strconv.FormatInt m).
  apply (Query_two (B "next_page_token") _ (B "max_results"));
    try reflexivity.
  - apply b64_queryBytes. exact H.
  - apply FormatInt_queryBytes.
Qed.

Lemma sync_request_settings m src :
  forallb jsonByte src = true ->
  url.Query (RawQuery (sync_request m (base64.Encode src)))
  = [(B "sync_token", base64.Encode src);
     (B "max_results", strconv.FormatInt m)].
Proof.
  intros H. unfold sync_request. cbn [RawQuery].
  change (B "sync_token=" ++ base64.Encode src
          ++ B "&max_results=" ++ strconv.FormatInt m)
    with (B "sync_token" ++ "="%char :: base64.Encode src
          ++ "&"%char :: B "max_results" ++ "="%char :: strconv.FormatInt m).
  apply (Query_two (B "sync_token") _ (B "max_results"));
    try reflexivity.
  - apply b64_queryBytes. exact H.
  - apply FormatInt_queryBytes.
Qed.

(** ** A token sent back *)

Lemma Encode_nonempty a src : isEmpty (base64.Encode (a :: src)) = false.
Proof. destruct src as [|b [|c r]]; reflexivity. Qed.

Lemma NextPageToken_text_nonempty t :
  isEmpty (base64.Encode (NextPageToken_json t)) = false.
Proof. unfold NextPageToken_json, json.MarshalStruct. apply Encode_nonempty. Qed.

Lemma SyncToken_text_nonempty t :
  isEmpty (base64.Encode (SyncToken_json t)) = false.
Proof. unfold SyncToken_json, json.MarshalStruct. apply Encode_nonempty. Qed.

Lemma NextPageToken_decode_seconds t :
  NextPageToken_wf t ->
  NextPageToken.UnmarshalJSON NextPageToken.zero
    (base64.Encode (NextPageToken_json t))
  = Ok (NextPageToken_seconds t).
Proof.
  intros (Ht & Hu & Ho & Hv). rewrite NextPageToken_decode_text by assumption.
  unfold NextPageToken_seconds, seconds.
  rewrite !Unix_Time_Unix by assumption. reflexivity.
Qed.

Lemma SyncToken_decode_seconds t :
  SyncToken_wf t ->
  SyncToken.UnmarshalJSON SyncToken.zero (base64.Encode (SyncToken_json t))
  = Ok (SyncToken_seconds t).
Proof.
  intros (Ht & Hv). rewrite SyncToken_decode_text.
  unfold SyncToken_seconds, seconds.
  rewrite !Unix_Time_Unix by assumption. reflexivity.
Qed.

(** The cursor stage on the request that carries a next-page token. *)
Lemma cursor_next_request clock m t :
  NextPageToken_wf t ->
  listHandler_cursor clock (next_request m (base64.Encode (NextPageToken_json t)))
  = if time.Time_Before (seconds (NextPageToken.ValidUntil t)) (now_check clock)
    then inl (mkResponse StatusBadRequest
                         (BodyText (B "next page token expired")))
    else inr (mkVars (seconds (NextPageToken.Timestamp t))
                     (NextPageToken.UpdatedAfter (NextPageToken_seconds t))
                     (NextPageToken.Offset t) None None).
Proof.
  intros Hw. unfold listHandler_cursor.
  rewrite next_request_settings by apply NextPageToken_json_bytes.
  cbn [url.Get]. change (bytes_eqb (B "next_page_token") (B "sync_token")) with false.
  change (bytes_eqb (B "max_results") (B "sync_token")) with false.
  change (bytes_eqb (B "next_page_token") (B "next_page_token")) with true.
  cbv iota. cbn [isEmpty negb].
  rewrite NextPageToken_text_nonempty. cbn [negb].
  rewrite NextPageToken_decode_seconds by assumption. reflexivity.
Qed.

Lemma cursor_sync_request clock m t :
  SyncToken_wf t ->
  listHandler_cursor clock (sync_request m (base64.Encode (SyncToken_json t)))
  = if time.Time_Before (seconds (SyncToken.ValidUntil t)) (now_check clock)
    then inl (mkResponse StatusBadRequest (BodyText (B "sync token expired")))
    else inr (mkVars (time.Time_UTC (now_start clock))
                     (seconds (SyncToken.Timestamp t)) 0 None None).
Proof.
  intros Hw. unfold listHandler_cursor.
  rewrite sync_request_settings by apply SyncToken_json_bytes.
  cbn [url.Get]. change (bytes_eqb (B "sync_token") (B "sync_token")) with true.
  cbv iota. rewrite SyncToken_text_nonempty. cbn [negb].
  rewrite SyncToken_decode_seconds by assumption. reflexivity.
Qed.

Lemma maxResults_first m :
  in_int64 m -> listHandler_maxResults (first_request m) = m.
Proof.
  intros H. unfold listHandler_maxResults. rewrite first_request_settings.
  cbn [url.Get]. change (bytes_eqb (B "max_results") (B "max_results")) with true.
  cbv iota. rewrite isEmpty_FormatInt, Atoi_FormatInt by assumption. reflexivity.
Qed.

Lemma maxResults_next m src :
  in_int64 m -> forallb jsonByte src = true ->
  listHandler_maxResults (next_request m (base64.Encode src)) = m.
Proof.
  intros H Hs. unfold listHandler_maxResults.
  rewrite next_request_settings by assumption.
  cbn [url.Get]. change (bytes_eqb (B "next_page_token") (B "max_results")) with false.
  change (bytes_eqb (B "max_results") (B "max_results")) with true.
  cbv iota. rewrite isEmpty_FormatInt, Atoi_FormatInt by assumption. reflexivity.
Qed.

Lemma maxResults_sync m src :
  in_int64 m -> forallb jsonByte src = true ->
  listHandler_maxResults (sync_request m (base64.Encode src)) = m.
Proof.
  intros H Hs. unfold listHandler_maxResults.
  rewrite sync_request_settings by assumption.
  cbn [url.Get]. change (bytes_eqb (B "sync_token") (B "max_results")) with false.
  change (bytes_eqb (B "max_results") (B "max_results")) with true.
  cbv iota. rewrite isEmpty_FormatInt, Atoi_FormatInt by assumption. reflexivity.
Qed.

Lemma cursor_first_request clock m :
  listHandler_cursor clock (first_request m)
  = inr (mkVars (time.Time_UTC (now_start clock)) time.zero 0 None None).
Proof.
  apply cursor_none; rewrite first_request_settings; reflexivity.
Qed.

(** ** Reading the list to its end *)

Lemma len_page rows l o :
  0 <= l -> 0 <= o <= len rows ->
  len (page rows l o) = Z.min l (len rows - o).
Proof.
  intros Hl Ho. unfold len, page in *.
  rewrite length_firstn, length_skipn. lia.
Qed.

Lemma page_last rows l o :
  0 <= o -> len rows - o <= l -> page rows l o = skipn (Z.to_nat o) rows.
Proof.
  intros Ho Hl. unfold page. apply firstn_all2.
  unfold len in Hl. rewrite length_skipn. lia.
Qed.

Lemma page_next rows l o :
  0 <= l -> 0 <= o ->
  page rows l o ++ skipn (Z.to_nat (o + l)) rows = skipn (Z.to_nat o) rows.
Proof.
  intros Hl Ho. unfold page.
  replace (Z.to_nat (o + l)) with (Z.to_nat l + Z.to_nat o)%nat by lia.
  rewrite <- skipn_skipn. apply firstn_skipn.
Qed.

Lemma seconds_wf t : time.wf t -> time.wf (seconds t).
Proof. intros [H _]. split; cbn; [assumption | lia]. Qed.

Lemma AddDate_wf local t d :
  time.wf t -> time.wf (time.Time_AddDate_days local t d).
Proof.
  intros [_ H]. unfold time.Time_AddDate_days, time.Date_abs.
  split; cbn [time.sec time.nsec]; [apply wrap64_range | assumption].
Qed.

Lemma UTC_wf t : time.wf t -> time.wf (time.Time_UTC t).
Proof. intros H. exact H. Qed.

Lemma zero_wf : time.wf time.zero.
Proof. split; cbn; [apply in_int64_0 | lia]. Qed.

Section Traversal.

Variable db : DB.
Variable clocks : nat -> Clock.
Variable rows : list User.
Variable m : Z.
Variable start : Z.
Variable f : time.Time.

Hypothesis Hm : 0 < m.
Hypothesis Hm64 : in_int64 m.
Hypothesis Hrows : len rows <= max_int64.
Hypothesis Hissue : forall i, time.wf (now_issue (clocks i)).
Hypothesis Hfresh : forall i,
  time.Time_Before (seconds (time.Time_AddDate_days (local_zone (clocks i))
                                                    (now_issue (clocks i)) 1))
                   (now_check (clocks (S i))) = false.
Hypothesis Hf : carried f.
Hypothesis Hdb : forall T o,
  time.sec T = start -> 0 <= o ->
  db (listHandler_statement (mkVars T f o None None) m) = Ok (page rows m o).

Lemma traverse_from budget : forall i r T o,
  listHandler_cursor (clocks i) r = inr (mkVars T f o None None) ->
  listHandler_maxResults r = m ->
  time.wf T -> time.sec T = start -> 0 <= o <= len rows ->
  (len rows - o) / m < Z.of_nat budget ->
  exists s,
    traverse db clocks m budget i r = Some (skipn (Z.to_nat o) rows, s)
    /\ time.sec (SyncToken.Timestamp s) = start.
Proof.
  induction budget as [|budget IH]; intros i r T o Hc Hmax HT Hs Ho Hb.
  - exfalso. assert (0 <= (len rows - o) / m) by (apply Z.div_pos; lia). lia.
  - cbn [traverse]. unfold listHandler. rewrite Hc, Hmax.
    rewrite Hdb by (assumption || lia).
    unfold listHandler_continuation.
    cbn [tableInPointOfTime onlyNewerThan offset nextPageToken syncToken].
    pose proof (len_page rows m o ltac:(lia) Ho) as Hlen.
    destruct (Z.lt_ge_cases (len rows - o) m) as [Hlast | Hfull].
    + (* the last page *)
      replace ((len (page rows m o) =? 0) || (len (page rows m o) <? m))
        with true
        by (symmetry; apply Bool.orb_true_iff; right; apply Z.ltb_lt; lia).
      cbn. rewrite page_last by lia. eexists. split; [reflexivity | exact Hs].
    + (* a full page *)
      replace ((len (page rows m o) =? 0) || (len (page rows m o) <? m))
        with false
        by (symmetry; apply Bool.orb_false_iff; split;
            [apply Z.eqb_neq | apply Z.ltb_ge]; lia).
      cbn [StatusCode Body_ NextPageToken_ SyncToken_ Users].
      change (StatusOK =? StatusOK) with true. cbv iota.
      rewrite NextPageToken_text_eq.
      assert (Hoff : wrap64 (o + len (page rows m o)) = o + m).
      { rewrite Hlen, Z.min_l by lia. apply wrap64_id.
        pose proof (len_nonneg rows). unfold in_int64, min_int64 in *.
        split; [|lia]. apply Z.le_trans with 0; [by_computation | lia]. }
      rewrite Hoff.
      set (n := NextPageToken.mk T f (o + m)
                  (time.Time_AddDate_days (local_zone (clocks i))
                                          (now_issue (clocks i)) 1)).
      assert (Hn : NextPageToken_wf n).
      { destruct Hf as [Hfw _]. unfold NextPageToken_wf, n.
        cbn [NextPageToken.Timestamp NextPageToken.UpdatedAfter
             NextPageToken.Offset NextPageToken.ValidUntil].
        split; [exact HT|]. split; [exact Hfw|].
        split; [rewrite <- Hoff; apply wrap64_range|].
        apply AddDate_wf, Hissue. }
      destruct (IH (S i) (next_request m (base64.Encode (NextPageToken_json n)))
                   (seconds T) (o + m)) as (s & Es & Hss).
      * rewrite cursor_next_request by exact Hn.
        cbn [NextPageToken.ValidUntil n]. rewrite Hfresh.
        unfold NextPageToken_seconds. cbn [NextPageToken.UpdatedAfter
          NextPageToken.Timestamp NextPageToken.Offset n].
        destruct Hf as [_ Hfc]. rewrite Hfc. reflexivity.
      * apply maxResults_next; [assumption | apply NextPageToken_json_bytes].
      * apply seconds_wf; assumption.
      * exact Hs.
      * lia.
      * replace (len rows - (o + m)) with ((len rows - o) + (-1) * m) by lia.
        rewrite Z.div_add by lia. lia.
      * rewrite Es. rewrite page_next by lia. eexists. split; [reflexivity | exact Hss].
Qed.

End Traversal.

Lemma carried_zero : carried time.zero.
Proof. split; [apply zero_wf | reflexivity]. Qed.

Lemma carried_seconds t :
  time.wf t -> time.sec t <> 0 -> carried (seconds t).
Proof.
  intros Hw Hs. split; [apply seconds_wf, Hw|].
  unfold time.Time_IsZero, seconds. cbn [time.sec time.nsec].
  apply Z.eqb_neq in Hs. rewrite Hs. reflexivity.
Qed.

Lemma ex_db_page T m o :
  0 <= m -> 0 <= o ->
  ex_db (SelectAsOf T m o) = Ok (page (map ex_user (seq 0 12)) m o).
Proof.
  intros Hm Ho. unfold ex_db.
  destruct (Z.ltb_spec m 0); [lia|]. destruct (Z.ltb_spec o 0); [lia|].
  reflexivity.
Qed.

Lemma ex_db_page_filtered T u m o :
  0 <= m -> 0 <= o ->
  ex_db (SelectAsOfUpdatedAfter T u m o)
  = Ok (page (map ex_user (seq 0 12)) m o).
Proof.
  intros Hm Ho. unfold ex_db.
  destruct (Z.ltb_spec m 0); [lia|]. destruct (Z.ltb_spec o 0); [lia|].
  reflexivity.
Qed.

(** X1: a client that starts without a token and sends each next-page
    token back with the same page size [m] (positive), before the token
    expires, reads every row exactly once and in order, and ends with a
    sync token for the second of the first request: provided the database
    answers every unfiltered statement for that second with the page of
    the same [rows].  It needs one request more than there are full
    pages. *)
Theorem X1_full_read (db : DB) (clocks : nat -> Clock) (rows : list User)
        (m : Z) (budget : nat) :
  0 < m -> in_int64 m -> len rows <= max_int64 ->
  time.wf (now_start (clocks O)) ->
  (forall i, time.wf (now_issue (clocks i))) ->
  (forall i,
      time.Time_Before
        (seconds (time.Time_AddDate_days (local_zone (clocks i))
                                         (now_issue (clocks i)) 1))
        (now_check (clocks (S i))) = false) ->
  (forall T o,
      time.sec T = time.sec (now_start (clocks O)) -> 0 <= o ->
      db (SelectAsOf T m o) = Ok (page rows m o)) ->
  len rows / m < Z.of_nat budget ->
  exists s,
    traverse db clocks m budget 0 (first_request m) = Some (rows, s)
    /\ time.sec (SyncToken.Timestamp s) = time.sec (now_start (clocks O)).
Proof.
  intros Hm Hm64 Hrows Hstart Hissue Hfresh Hdb Hbudget.
  apply (traverse_from db clocks rows m (time.sec (now_start (clocks O)))
           time.zero Hm Hm64 Hrows Hissue Hfresh carried_zero)
    with (T := time.Time_UTC (now_start (clocks O))) (o := 0).
  - intros T o HT Ho. apply Hdb; assumption.
  - apply cursor_first_request.
  - apply maxResults_first, Hm64.
  - exact Hstart.
  - reflexivity.
  - pose proof (len_nonneg rows). lia.
  - rewrite Z.sub_0_r. exact Hbudget.
Qed.

Lemma X1_witness :
  exists s,
    traverse ex_db (fun _ => ex_clock) 5 3 0 (first_request 5)
    = Some (map ex_user (seq 0 12), s)
    /\ time.sec (SyncToken.Timestamp s) = time.sec (now_start ex_clock).
Proof.
  apply (X1_full_read ex_db (fun _ => ex_clock) (map ex_user (seq 0 12)) 5 3).
  - lia.
  - vm_compute. split; discriminate.
  - vm_compute. discriminate.
  - vm_compute. split; [split|split]; discriminate.
  - intros _. vm_compute. split; [split|split]; discriminate.
  - intros _. reflexivity.
  - intros T o _ Ho. apply ex_db_page; lia.
  - vm_compute. reflexivity.
Defined.

(** X2: a client that starts with a sync token and then sends each
    next-page token back with the same page size [m] reads every row of
    the filtered list exactly once and in order, and ends with a sync
    token for the second of its first request.  This holds for a positive
    page size, a sync token that has not expired and whose timestamp [ts]
    lies outside the first second of year 1 (an instant in that second
    gives no filter), next-page tokens sent back before they expire, and
    a database that answers every statement filtered on [ts] cut to whole
    seconds, for the second of the first request, with the page of the
    same list [changed].  All statements of the pass are of that kind. *)
Theorem X2_incremental_read (db : DB) (clocks : nat -> Clock)
        (changed : list User) (m : Z) (budget : nat) (s : SyncToken.t) :
  0 < m -> in_int64 m -> len changed <= max_int64 ->
  SyncToken_wf s -> time.sec (SyncToken.Timestamp s) <> 0 ->
  time.wf (now_start (clocks O)) ->
  (forall i, time.wf (now_issue (clocks i))) ->
  time.Time_Before (seconds (SyncToken.ValidUntil s)) (now_check (clocks O))
  = false ->
  (forall i,
      time.Time_Before
        (seconds (time.Time_AddDate_days (local_zone (clocks i))
                                         (now_issue (clocks i)) 1))
        (now_check (clocks (S i))) = false) ->
  (forall T o,
      time.sec T = time.sec (now_start (clocks O)) -> 0 <= o ->
      db (SelectAsOfUpdatedAfter T (seconds (SyncToken.Timestamp s)) m o)
      = Ok (page changed m o)) ->
  len changed / m < Z.of_nat budget ->
  exists tok s',
    SyncToken_text s = Ok tok
    /\ traverse db clocks m budget 0 (sync_request m tok) = Some (changed, s')
    /\ time.sec (SyncToken.Timestamp s') = time.sec (now_start (clocks O)).
Proof.
  intros Hm Hm64 Hrows Hs Hts Hstart Hissue Hvalid Hfresh Hdb Hbudget.
  exists (base64.Encode (SyncToken_json s)).
  assert (Hc : carried (seconds (SyncToken.Timestamp s)))
    by (apply carried_seconds; [apply Hs | exact Hts]).
  destruct (traverse_from db clocks changed m (time.sec (now_start (clocks O)))
              (seconds (SyncToken.Timestamp s)) Hm Hm64 Hrows Hissue Hfresh Hc)
    with (budget := budget) (i := O)
         (r := sync_request m (base64.Encode (SyncToken_json s)))
         (T := time.Time_UTC (now_start (clocks O))) (o := 0)
    as (s' & Es & Hs').
  - intros T o HT Ho. unfold listHandler_statement.
    cbn [onlyNewerThan tableInPointOfTime offset].
    replace (time.Time_IsZero (seconds (SyncToken.Timestamp s))) with false.
    + apply Hdb; assumption.
    + symmetry. unfold time.Time_IsZero, seconds. cbn [time.sec time.nsec].
      apply Z.eqb_neq in Hts. rewrite Hts. reflexivity.
  - rewrite cursor_sync_request by exact Hs. rewrite Hvalid. reflexivity.
  - apply maxResults_sync; [exact Hm64 | apply SyncToken_json_bytes].
  - exact Hstart.
  - reflexivity.
  - pose proof (len_nonneg changed). lia.
  - rewrite Z.sub_0_r. exact Hbudget.
  - exists s'. split; [apply SyncToken_text_eq|]. split; [exact Es | exact Hs'].
Qed.

Lemma X2_witness :
  exists tok s',
    SyncToken_text ex_sync = Ok tok
    /\ traverse ex_db (fun _ => ex_clock) 5 3 0 (sync_request 5 tok)
       = Some (map ex_user (seq 0 12), s')
    /\ time.sec (SyncToken.Timestamp s') = time.sec (now_start ex_clock).
Proof.
  apply (X2_incremental_read ex_db (fun _ => ex_clock)
           (map ex_user (seq 0 12)) 5 3 ex_sync).
  - lia.
  - vm_compute. split; discriminate.
  - vm_compute. discriminate.
  - exact ex_sync_wf.
  - vm_compute. discriminate.
  - vm_compute. split; [split|split]; discriminate.
  - intros _. vm_compute. split; [split|split]; discriminate.
  - reflexivity.
  - intros _. reflexivity.
  - intros T o _ Ho. apply ex_db_page_filtered; lia.
  - vm_compute. reflexivity.
Defined.

(** ** Requests that carry a token *)

Lemma IsZero_seconds t :
  time.Time_IsZero (seconds t) = (time.sec t =? 0).
Proof.
  unfold time.Time_IsZero, seconds. cbn [time.sec time.nsec].
  apply andb_true_r.
Qed.

Lemma IsZero_sec t : time.Time_IsZero t = true -> time.sec t = 0.
Proof.
  unfold time.Time_IsZero. rewrite andb_true_iff, Z.eqb_eq. tauto.
Qed.

(** X3: a request that carries the text of a token which has not expired
    is answered from the statement this theorem gives.  For a next-page
    token the table is read as of the token's timestamp cut to whole
    seconds, from the token's offset, whatever int64 it is, filtered on
    its updated-after instant cut to whole seconds; for a sync token the
    table is read as of the start of the request, from offset 0,
    filtered on the token's timestamp cut to whole seconds.  An instant
    in the first second of year 1 gives no filter.  The limit is the
    max_results setting. *)
Theorem X3_token_request_statement (clock : Clock) (m : Z)
        (t : NextPageToken.t) (s : SyncToken.t) :
  NextPageToken_wf t -> SyncToken_wf s -> in_int64 m ->
  time.Time_Before (seconds (NextPageToken.ValidUntil t)) (now_check clock)
  = false ->
  time.Time_Before (seconds (SyncToken.ValidUntil s)) (now_check clock)
  = false ->
  (exists tok vars,
      NextPageToken_text t = Ok tok
      /\ listHandler_cursor clock (next_request m tok) = inr vars
      /\ listHandler_statement vars (listHandler_maxResults (next_request m tok))
         = if time.sec (NextPageToken.UpdatedAfter t) =? 0
           then SelectAsOf (seconds (NextPageToken.Timestamp t)) m
                           (NextPageToken.Offset t)
           else SelectAsOfUpdatedAfter
                  (seconds (NextPageToken.Timestamp t))
                  (seconds (NextPageToken.UpdatedAfter t)) m
                  (NextPageToken.Offset t))
  /\ (exists tok vars,
         SyncToken_text s = Ok tok
         /\ listHandler_cursor clock (sync_request m tok) = inr vars
         /\ listHandler_statement vars
              (listHandler_maxResults (sync_request m tok))
            = if time.sec (SyncToken.Timestamp s) =? 0
              then SelectAsOf (time.Time_UTC (now_start clock)) m 0
              else SelectAsOfUpdatedAfter
                     (time.Time_UTC (now_start clock))
                     (seconds (SyncToken.Timestamp s)) m 0).
Proof.
  intros Ht Hs Hm Vt Vs. split.
  - exists (base64.Encode (NextPageToken_json t)). eexists.
    split; [apply NextPageToken_text_eq|].
    rewrite cursor_next_request by exact Ht. rewrite Vt.
    split; [reflexivity|].
    rewrite maxResults_next by (assumption || apply NextPageToken_json_bytes).
    unfold listHandler_statement, NextPageToken_seconds.
    cbn [onlyNewerThan tableInPointOfTime offset NextPageToken.UpdatedAfter].
    destruct (time.Time_IsZero (NextPageToken.UpdatedAfter t)) eqn:Ez.
    + apply IsZero_sec in Ez. rewrite Ez. reflexivity.
    + rewrite IsZero_seconds.
      destruct (time.sec (NextPageToken.UpdatedAfter t) =? 0); reflexivity.
  - exists (base64.Encode (SyncToken_json s)). eexists.
    split; [apply SyncToken_text_eq|].
    rewrite cursor_sync_request by exact Hs. rewrite Vs.
    split; [reflexivity|].
    rewrite maxResults_sync by (assumption || apply SyncToken_json_bytes).
    unfold listHandler_statement.
    cbn [onlyNewerThan tableInPointOfTime offset].
    rewrite IsZero_seconds.
    destruct (time.sec (SyncToken.Timestamp s) =? 0); reflexivity.
Qed.

Lemma X3_witness :
  (exists tok vars,
      NextPageToken_text ex_np_whole = Ok tok
      /\ listHandler_cursor ex_clock (next_request 5 tok) = inr vars
      /\ listHandler_statement vars (listHandler_maxResults (next_request 5 tok))
         = if time.sec (NextPageToken.UpdatedAfter ex_np_whole) =? 0
           then SelectAsOf (seconds (NextPageToken.Timestamp ex_np_whole)) 5
                           (NextPageToken.Offset ex_np_whole)
           else SelectAsOfUpdatedAfter
                  (seconds (NextPageToken.Timestamp ex_np_whole))
                  (seconds (NextPageToken.UpdatedAfter ex_np_whole)) 5
                  (NextPageToken.Offset ex_np_whole))
  /\ (exists tok vars,
         SyncToken_text ex_sync = Ok tok
         /\ listHandler_cursor ex_clock (sync_request 5 tok) = inr vars
         /\ listHandler_statement vars
              (listHandler_maxResults (sync_request 5 tok))
            = if time.sec (SyncToken.Timestamp ex_sync) =? 0
              then SelectAsOf (time.Time_UTC (now_start ex_clock)) 5 0
              else SelectAsOfUpdatedAfter
                     (time.Time_UTC (now_start ex_clock))
                     (seconds (SyncToken.Timestamp ex_sync)) 5 0).
Proof.
  apply (X3_token_request_statement ex_clock 5 ex_np_whole ex_sync).
  - exact ex_np_whole_wf.
  - exact ex_sync_wf.
  - vm_compute. split; discriminate.
  - vm_compute. reflexivity.
  - vm_compute. reflexivity.
Defined.

(** ** How long a token lasts *)

Lemma Before_issued local issue check :
  time.Time_Before (seconds (time.Time_AddDate_days local issue 1)) check
  = true
  <-> passed (lifetime local issue) issue check.
Proof.
  unfold time.Time_Before, seconds, passed, lifetime.
  cbn [time.sec time.nsec].
  rewrite orb_true_iff, andb_true_iff, !Z.ltb_lt, Z.eqb_eq.
  split; intros [H | [H1 H2]]; [left | right; split | left | right; split];
    lia.
Qed.

Lemma unixToInternal_value : time.unixToInternal = 62135596800.
Proof. reflexivity. Qed.

Ltac int64_bounds :=
  unfold in_int64, min_int64, max_int64, moderate in *; pow2_consts; lia.

Lemma nextDay_value local issue :
  time.loc issue = time.Local ->
  moderate (time.sec issue) ->
  moderate (time.offset (local (time.Time_Unix issue))) ->
  time.Time_Unix issue = time.sec issue - 62135596800
  /\ nextDay local issue
     = time.sec issue - 62135596800
       + time.offset (local (time.Time_Unix issue)) + 86400.
Proof.
  intros Hloc Hs Hk.
  assert (Hu : time.Time_Unix issue = time.sec issue - 62135596800).
  { unfold time.Time_Unix, time.internalToUnix.
    rewrite unixToInternal_value. apply wrap64_id. int64_bounds. }
  split; [exact Hu|].
  unfold nextDay, time.Time_abs. rewrite Hloc. cbn [time.lookupIn].
  set (k := time.offset (local (time.Time_Unix issue))) in *.
  rewrite Hu.
  rewrite (wrap64_id (time.sec issue - 62135596800 + k)) by int64_bounds.
  apply wrap64_id. int64_bounds.
Qed.

(** The lifetime where [time.Date] settles on the zone of its first
    lookup. *)
Lemma lifetime_settled local issue :
  time.loc issue = time.Local ->
  moderate (time.sec issue) ->
  moderate (time.offset (local (time.Time_Unix issue))) ->
  moderate (time.offset (local (nextDay local issue))) ->
  time.start (local (nextDay local issue))
  <= nextDay local issue - time.offset (local (nextDay local issue))
  < time.end_ (local (nextDay local issue)) ->
  lifetime local issue
  = 86400 + time.offset (local (time.Time_Unix issue))
    - time.offset (local (nextDay local issue)).
Proof.
  intros Hloc Hs Hk0 Hk1 Hper.
  destruct (nextDay_value local issue Hloc Hs Hk0) as [Hu Hnd].
  unfold lifetime, time.Time_AddDate_days, time.Date_abs.
  rewrite Hloc. cbn [time.lookupIn time.sec]. rewrite Z.mul_1_r.
  fold (nextDay local issue).
  set (d := nextDay local issue) in *.
  set (k0 := time.offset (local (time.Time_Unix issue))) in *.
  set (z := local d) in *.
  rewrite unixToInternal_value.
  destruct (Z.eqb_spec (time.offset z) 0) as [E0 | N0]; cbn [negb].
  - rewrite wrap64_id by int64_bounds. lia.
  - rewrite (wrap64_id (d - time.offset z)) by int64_bounds.
    destruct (Z.ltb_spec (d - time.offset z) (time.start z)); [lia|].
    destruct (Z.leb_spec (time.end_ z) (d - time.offset z)); [lia|].
    cbn [orb].
    rewrite (wrap64_id (d - time.offset z)) by int64_bounds.
    rewrite wrap64_id by int64_bounds. lia.
Qed.

Lemma SyncToken_decoded data c :
  SyncToken.UnmarshalJSON SyncToken.zero data = Ok c ->
  (exists x, SyncToken.Timestamp c = time.Unix x 0)
  /\ (exists x, SyncToken.ValidUntil c = time.Unix x 0).
Proof.
  unfold SyncToken.UnmarshalJSON.
  destruct (base64.Decode data) as [buf|]; [|discriminate]. cbn [bind].
  destruct (SyncToken.Unmarshal buf) as [w|]; [|discriminate].
  cbn [bind]. intros H. inversion H. cbn. split; eexists; reflexivity.
Qed.

(** The variables the cursor stage leaves hold values of the machine. *)
Lemma cursor_vars_wf clock r vars :
  time.wf (now_start clock) ->
  listHandler_cursor clock r = inr vars ->
  time.wf (tableInPointOfTime vars) /\ time.wf (onlyNewerThan vars)
  /\ in_int64 (offset vars).
Proof.
  intros Hw. unfold listHandler_cursor.
  destruct (isEmpty (url.Get (url.Query (RawQuery r)) (B "sync_token")));
    cbn [negb].
  - destruct (isEmpty (url.Get (url.Query (RawQuery r)) (B "next_page_token")));
      cbn [negb].
    + intros H. inversion H. cbn.
      split; [exact Hw | split; [apply zero_wf | apply in_int64_0]].
    + destruct (NextPageToken.UnmarshalJSON _ _) as [c | e] eqn:Ec;
        [|discriminate].
      destruct (time.Time_Before _ _); [discriminate|].
      intros H. inversion H. cbn.
      destruct (NextPageToken_decoded _ _ Ec)
        as (Ho & (x & Ex) & _ & [Ez | (y & Ey)]).
      * rewrite Ex, Ez. split; [apply Unix_wf | split; [apply zero_wf | exact Ho]].
      * rewrite Ex, Ey. split; [apply Unix_wf | split; [apply Unix_wf | exact Ho]].
  - destruct (SyncToken.UnmarshalJSON _ _) as [c | e] eqn:Ec; [|discriminate].
    destruct (time.Time_Before _ _); [discriminate|].
    intros H. inversion H. cbn.
    destruct (SyncToken_decoded _ _ Ec) as ((x & Ex) & _). rewrite Ex.
    split; [exact Hw | split; [apply Unix_wf | apply in_int64_0]].
Qed.

Lemma status_bad_request db clock r :
  StatusCode (listHandler db clock r) = StatusBadRequest
  <-> exists early, listHandler_cursor clock r = inl early.
Proof.
  unfold listHandler.
  destruct (listHandler_cursor clock r) as [early | vars] eqn:Ec.
  - split; [intros _; exists early; reflexivity|].
    intros _. apply (cursor_early clock r). exact Ec.
  - split; [|intros (early & E); discriminate].
    destruct (db _) as [users | e].
    + destruct (listHandler_continuation _ _ _ _). cbn. discriminate.
    + cbn. discriminate.
Qed.

(** The expiry check on the tokens of a response. *)
Lemma issued_tokens_expiry (db db' : DB) (c c' : Clock) (r : Request)
        (l : ListResponse) (m : Z) :
  time.wf (now_start c) -> time.wf (now_issue c) ->
  listHandler db c r = mkResponse StatusOK (BodyJSON l) ->
  (forall n,
      NextPageToken_ l = Some n ->
      exists tok,
        NextPageToken_text n = Ok tok
        /\ (listHandler db' c' (next_request m tok)
            = mkResponse StatusBadRequest
                         (BodyText (B "next page token expired"))
            <-> passed (lifetime (local_zone c) (now_issue c))
                       (now_issue c) (now_check c'))
        /\ (StatusCode (listHandler db' c' (next_request m tok))
            = StatusBadRequest
            <-> passed (lifetime (local_zone c) (now_issue c))
                       (now_issue c) (now_check c')))
  /\ (forall s,
         SyncToken_ l = Some s ->
         exists tok,
           SyncToken_text s = Ok tok
           /\ (listHandler db' c' (sync_request m tok)
               = mkResponse StatusBadRequest
                            (BodyText (B "sync token expired"))
               <-> passed (lifetime (local_zone c) (now_issue c))
                          (now_issue c) (now_check c'))
           /\ (StatusCode (listHandler db' c' (sync_request m tok))
               = StatusBadRequest
               <-> passed (lifetime (local_zone c) (now_issue c))
                          (now_issue c) (now_check c'))).
Proof.
  intros Hstart Hissue Hresp.
  assert (Hok : StatusCode (listHandler db c r) = StatusOK)
    by (rewrite Hresp; reflexivity).
  destruct (listHandler_ok db c r Hok) as (vars & users & Ec & _ & El).
  rewrite Hresp in El. injection El as El. subst l.
  cbn [NextPageToken_ SyncToken_].
  destruct (cursor_vars_wf c r vars Hstart Ec) as (HT & Hf & Ho).
  destruct (cursor_vars c r vars Ec) as (Enp & Est).
  unfold listHandler_continuation.
  rewrite Enp, Est.
  destruct ((len users =? 0) || (len users <? listHandler_maxResults r));
    cbn [fst snd]; split; intros tk Etk; try discriminate;
    inversion Etk as [Etk']; clear Etk.
  - (* the sync token *)
    set (s := SyncToken.mk _ _).
    assert (Hw : SyncToken_wf s)
      by (split; [exact HT | apply AddDate_wf, Hissue]).
    exists (base64.Encode (SyncToken_json s)).
    split; [apply SyncToken_text_eq|].
    rewrite status_bad_request.
    unfold listHandler. rewrite cursor_sync_request by exact Hw.
    cbn [SyncToken.ValidUntil s].
    rewrite <- Before_issued.
    destruct (time.Time_Before _ _); split; split;
      try reflexivity; try discriminate; try (intros _; eexists; reflexivity).
    + destruct (db' _) as [us | e];
        [destruct (listHandler_continuation c' _ _ _)|];
        cbv beta iota; intros H; discriminate H.
    + intros (early & E). discriminate E.
  - (* the next-page token *)
    set (n := NextPageToken.mk _ _ _ _).
    assert (Hw : NextPageToken_wf n).
    { split; [exact HT|]. split; [exact Hf|].
      split; [apply wrap64_range | apply AddDate_wf, Hissue]. }
    exists (base64.Encode (NextPageToken_json n)).
    split; [apply NextPageToken_text_eq|].
    rewrite status_bad_request.
    unfold listHandler. rewrite cursor_next_request by exact Hw.
    cbn [NextPageToken.ValidUntil n].
    rewrite <- Before_issued.
    destruct (time.Time_Before _ _); split; split;
      try reflexivity; try discriminate; try (intros _; eexists; reflexivity).
    + destruct (db' _) as [us | e];
        [destruct (listHandler_continuation c' _ _ _)|];
        cbv beta iota; intros H; discriminate H.
    + intros (early & E). discriminate E.
Qed.

(** X4: the lifetime of the tokens of a response.  A token that
    [listHandler] issued is refused as expired, with status 400, exactly
    when the request that carries it is checked later than the whole
    second in which the token was made plus the lifetime; the fraction of
    that second is lost.  The lifetime is a day of the calendar in the
    local zone of the server, not 24 hours: where [time.Date] settles on
    the zone it first finds for the wall clock of the next day, it is
    86400 seconds plus the offset of the zone at the issue minus the
    offset of the zone found, so 24 hours where the offset stays and 25
    hours over the night in which the clocks go back one hour.  (The
    readings of the clock are values of the machine; for the length, the
    issue is a local time, as [time.Now()] is, and the instant and the
    two offsets are less than 2^61 in size.) *)
Theorem X4_token_lifetime (db db' : DB) (c c' : Clock) (r : Request)
        (l : ListResponse) (m : Z) :
  time.wf (now_start c) -> time.wf (now_issue c) ->
  listHandler db c r = mkResponse StatusOK (BodyJSON l) ->
  (forall n,
      NextPageToken_ l = Some n ->
      exists tok,
        NextPageToken_text n = Ok tok
        /\ (listHandler db' c' (next_request m tok)
            = mkResponse StatusBadRequest
                         (BodyText (B "next page token expired"))
            <-> passed (lifetime (local_zone c) (now_issue c))
                       (now_issue c) (now_check c'))
        /\ (StatusCode (listHandler db' c' (next_request m tok))
            = StatusBadRequest
            <-> passed (lifetime (local_zone c) (now_issue c))
                       (now_issue c) (now_check c')))
  /\ (forall s,
         SyncToken_ l = Some s ->
         exists tok,
           SyncToken_text s = Ok tok
           /\ (listHandler db' c' (sync_request m tok)
               = mkResponse StatusBadRequest
                            (BodyText (B "sync token expired"))
               <-> passed (lifetime (local_zone c) (now_issue c))
                          (now_issue c) (now_check c'))
           /\ (StatusCode (listHandler db' c' (sync_request m tok))
               = StatusBadRequest
               <-> passed (lifetime (local_zone c) (now_issue c))
                          (now_issue c) (now_check c')))
  /\ (time.loc (now_issue c) = time.Local ->
      moderate (time.sec (now_issue c)) ->
      moderate (time.offset (local_zone c (time.Time_Unix (now_issue c)))) ->
      moderate (time.offset
                  (local_zone c (nextDay (local_zone c) (now_issue c)))) ->
      time.start (local_zone c (nextDay (local_zone c) (now_issue c)))
      <= nextDay (local_zone c) (now_issue c)
         - time.offset (local_zone c (nextDay (local_zone c) (now_issue c)))
      < time.end_ (local_zone c (nextDay (local_zone c) (now_issue c))) ->
      lifetime (local_zone c) (now_issue c)
      = 86400
        + time.offset (local_zone c (time.Time_Unix (now_issue c)))
        - time.offset (local_zone c (nextDay (local_zone c) (now_issue c)))).
Proof.
  intros Hstart Hissue Hresp.
  destruct (issued_tokens_expiry db db' c c' r l m Hstart Hissue Hresp)
    as [Hnext Hsync].
  split; [exact Hnext|]. split; [exact Hsync|].
  apply lifetime_settled.
Qed.


Lemma X4_witness :
  listHandler ex_db ex_clock_dst ex_first
  = mkResponse StatusOK (BodyJSON ex_first_page_dst)
  /\ lifetime ex_zone_dst (now_issue ex_clock_dst) = 86400 + 7200 - 3600
  /\ (forall n,
         NextPageToken_ ex_first_page_dst = Some n ->
         exists tok,
           NextPageToken_text n = Ok tok
           /\ (listHandler ex_db ex_clock_dst_later (next_request 5 tok)
               = mkResponse StatusBadRequest
                            (BodyText (B "next page token expired"))
               <-> passed (lifetime (local_zone ex_clock_dst)
                                    (now_issue ex_clock_dst))
                          (now_issue ex_clock_dst)
                          (now_check ex_clock_dst_later))
           /\ (StatusCode
                 (listHandler ex_db ex_clock_dst_later (next_request 5 tok))
               = StatusBadRequest
               <-> passed (lifetime (local_zone ex_clock_dst)
                                    (now_issue ex_clock_dst))
                          (now_issue ex_clock_dst)
                          (now_check ex_clock_dst_later)))
  /\ ~ passed (lifetime (local_zone ex_clock_dst) (now_issue ex_clock_dst))
               (now_issue ex_clock_dst) (now_check ex_clock_dst_later)
  /\ passed 86400 (now_issue ex_clock_dst) (now_check ex_clock_dst_later).
Proof.
  assert (Hstart : time.wf (now_start ex_clock_dst))
    by (vm_compute; split; [split|split]; discriminate).
  assert (Hissue : time.wf (now_issue ex_clock_dst))
    by (vm_compute; split; [split|split]; discriminate).
  assert (Hresp : listHandler ex_db ex_clock_dst ex_first
                  = mkResponse StatusOK (BodyJSON ex_first_page_dst))
    by (vm_compute; reflexivity).
  destruct (X4_token_lifetime ex_db ex_db ex_clock_dst ex_clock_dst_later
              ex_first ex_first_page_dst 5 Hstart Hissue Hresp)
    as (Hnext & _ & Hlife).
  assert (E : lifetime ex_zone_dst (now_issue ex_clock_dst)
              = 86400 + 7200 - 3600).
  { apply Hlife.
    - reflexivity.
    - vm_compute. split; discriminate.
    - vm_compute. split; discriminate.
    - vm_compute. split; discriminate.
    - vm_compute. split; [discriminate | reflexivity]. }
  split; [exact Hresp|]. split; [exact E|]. split; [exact Hnext|].
  change (local_zone ex_clock_dst) with ex_zone_dst. rewrite E.
  unfold passed. cbn [time.sec time.nsec now_issue now_check ex_clock_dst
                      ex_clock_dst_later].
  split; lia.
Defined.

(** ** The page size *)

Lemma Atoi_out_of_range n :
  in_int64b n = false -> strconv.Atoi (strconv.FormatInt n) = None.
Proof.
  intros Hn. unfold strconv.Atoi, strconv.FormatInt, strconv.ParseInt.
  destruct (Z.ltb_spec n 0) as [Hneg | Hpos].
  - cbn [Ascii.eqb Bool.eqb].
    destruct (FormatUint_head (- n) ltac:(lia)) as (c & ds & E & _ & _).
    rewrite parseDigits_FormatUint by lia. rewrite E.
    replace (- - n) with n by lia.
    unfold in_int64b in Hn. rewrite Hn. reflexivity.
  - destruct (FormatUint_head n Hpos) as (c & ds & E & Hc & _).
    destruct (isDigit_not_sign c Hc) as [E1 E2].
    rewrite E, E1, E2, <- E.
    rewrite parseDigits_FormatUint by lia.
    unfold in_int64b in Hn. rewrite Hn. reflexivity.
Qed.

Lemma in_int64b_true n : in_int64b n = true -> in_int64 n.
Proof.
  unfold in_int64b, in_int64. rewrite andb_true_iff, !Z.leb_le. tauto.
Qed.

(** X5: the page size is not checked.  A first request whose max_results
    setting is the decimal text of [m] sends LIMIT [m] for every [m] of
    the machine's integers, zero and the negative ones included; a number
    beyond them is dropped without an error and the limit is 10. *)
Theorem X5_page_size_unchecked (clock : Clock) (m : Z) :
  exists vars,
    listHandler_cursor clock (first_request m) = inr vars
    /\ listHandler_statement vars (listHandler_maxResults (first_request m))
       = SelectAsOf (time.Time_UTC (now_start clock))
                    (if in_int64b m then m else 10) 0.
Proof.
  eexists. split; [apply cursor_first_request|].
  unfold listHandler_statement.
  cbn [onlyNewerThan tableInPointOfTime offset].
  change (time.Time_IsZero time.zero) with true. cbv iota. f_equal.
  destruct (in_int64b m) eqn:Em.
  - apply maxResults_first, in_int64b_true, Em.
  - unfold listHandler_maxResults. rewrite first_request_settings.
    cbn [url.Get].
    change (bytes_eqb (B "max_results") (B "max_results")) with true.
    cbv iota. rewrite isEmpty_FormatInt. cbn [negb].
    rewrite Atoi_out_of_range by exact Em. reflexivity.
Qed.

(** ** The three outcomes *)

(** X6: a response has status 200, 400 or 500.  A request that is
    refused with 400 gets the same response from every database, the
    database having no part in it; status 500 is the failure of the one
    statement, with the error of the database as body; users are only
    sent with status 200. *)
Theorem X6_three_outcomes (db db' : DB) (clock : Clock) (r : Request) :
  (StatusCode (listHandler db clock r) = StatusOK
   \/ StatusCode (listHandler db clock r) = StatusBadRequest
   \/ StatusCode (listHandler db clock r) = StatusInternalServerError)
  /\ (StatusCode (listHandler db clock r) = StatusBadRequest ->
      listHandler db' clock r = listHandler db clock r)
  /\ (StatusCode (listHandler db clock r) = StatusInternalServerError <->
      exists vars e,
        listHandler_cursor clock r = inr vars
        /\ db (listHandler_statement vars (listHandler_maxResults r)) = Err e
        /\ listHandler db clock r
           = mkResponse StatusInternalServerError (BodyError e))
  /\ (forall l,
         Body_ (listHandler db clock r) = BodyJSON l ->
         StatusCode (listHandler db clock r) = StatusOK
         /\ exists vars,
             listHandler_cursor clock r = inr vars
             /\ db (listHandler_statement vars (listHandler_maxResults r))
                = Ok (Users l)).
Proof.
  pose proof (cursor_early clock r) as Hearly.
  unfold listHandler.
  destruct (listHandler_cursor clock r) as [early | vars] eqn:Ec.
  - specialize (Hearly early eq_refl).
    split; [right; left; exact Hearly|]. split; [reflexivity|].
    split.
    + split.
      * rewrite Hearly. intros H. discriminate H.
      * intros (vars & e & E & _). discriminate E.
    + intros l El. exfalso. revert El. clear Hearly. revert Ec.
      unfold listHandler_cursor.
      repeat match goal with
             | |- context [if ?b then _ else _] => destruct b
             | |- context [match ?x with Ok _ => _ | Err _ => _ end] =>
                 destruct x
             end; intros H; inversion H; intros H'; discriminate H'.
  - destruct (db (listHandler_statement vars (listHandler_maxResults r)))
      as [users | e] eqn:Edb.
    + destruct (listHandler_continuation clock vars _ users) as [n s].
      cbn [StatusCode Body_].
      split; [left; reflexivity|]. split; [intros H; discriminate H|].
      split.
      * split; [intros H; discriminate H|].
        intros (vars' & e & E & Ee & _). inversion E. subst vars'.
        rewrite Edb in Ee. discriminate Ee.
      * intros l El. inversion El. cbn [Users].
        split; [reflexivity|]. exists vars. split; [reflexivity | exact Edb].
    + cbn [StatusCode Body_].
      split; [right; right; reflexivity|]. split; [intros H; discriminate H|].
      split.
      * split; [|reflexivity]. intros _. exists vars, e.
        split; [reflexivity|]. split; [exact Edb | reflexivity].
      * intros l El. discriminate El.
Qed.

Lemma X6_witness :
  StatusCode (listHandler ex_db_down ex_clock ex_first)
  = StatusInternalServerError
  /\ StatusCode (listHandler ex_db ex_clock ex_next_expired) = StatusBadRequest
  /\ listHandler ex_db_down ex_clock ex_next_expired
     = listHandler ex_db ex_clock ex_next_expired
  /\ exists l, Body_ (listHandler ex_db ex_clock ex_first) = BodyJSON l
               /\ StatusCode (listHandler ex_db ex_clock ex_first) = StatusOK.
Proof.
  split; [vm_compute; reflexivity|].
  split; [vm_compute; reflexivity|].
  split.
  - apply (X6_three_outcomes ex_db ex_db_down ex_clock ex_next_expired).
    vm_compute. reflexivity.
  - exists ex_first_page. split; [vm_compute; reflexivity|].
    apply (X6_three_outcomes ex_db ex_db ex_clock ex_first) with ex_first_page.
    vm_compute. reflexivity.
Defined.

(** ** The text of a token *)

(** X7: the text of a token is the standard base64 of a JSON object
    whose members are the offset o, the timestamp t, the updated-after
    instant u and the expiry v, in this order, as decimal seconds since
    1970; u is there exactly when the updated-after instant is not the
    zero time, and a sync token has t and v only. *)
Theorem X7_token_wire_format (t : NextPageToken.t) (s : SyncToken.t) :
  (exists tok buf,
      NextPageToken_text t = Ok tok
      /\ base64.Decode tok = Ok buf
      /\ json.parse buf = Ok (json.Object (NextPageToken_members t)))
  /\ (exists tok buf,
         SyncToken_text s = Ok tok
         /\ base64.Decode tok = Ok buf
         /\ json.parse buf = Ok (json.Object (SyncToken_members s))).
Proof.
  split.
  - exists (base64.Encode (NextPageToken_json t)), (NextPageToken_json t).
    split; [apply NextPageToken_text_eq|]. split; [apply Decode_Encode|].
    unfold NextPageToken_json. rewrite parse_MarshalStruct.
    + unfold NextPageToken_members.
      destruct (time.Time_IsZero (NextPageToken.UpdatedAfter t)); reflexivity.
    + discriminate.
    + destruct (time.Time_IsZero (NextPageToken.UpdatedAfter t));
        repeat constructor.
  - exists (base64.Encode (SyncToken_json s)), (SyncToken_json s).
    split; [apply SyncToken_text_eq|]. split; [apply Decode_Encode|].
    unfold SyncToken_json. rewrite parse_MarshalStruct.
    + reflexivity.
    + discriminate.
    + repeat constructor.
Qed.

(** ** The rows of the table in a response *)

Lemma scanRows_table rows :
  scanRows (map users.columns rows) = Ok (map scanned rows).
Proof.
  induction rows as [|row rows IH]; [reflexivity|].
  cbn [map scanRows]. rewrite IH. reflexivity.
Qed.

(** X8: the users of a response carry the two time columns of the table
    swapped.  [Scan] fills UpdatedAt before CreatedAt while the table has
    created_at before updated_at: for every row of the table that the
    statement returns, the field CreatedAt (created_at in the JSON) holds
    the column updated_at and the field UpdatedAt holds the column
    created_at; id, name and email are in place, and no row is lost. *)
Theorem X8_time_columns_swapped (rdb : RowDB) (clock : Clock) (r : Request)
        (vars : Vars) (rows : list users.Row) :
  listHandler_cursor clock r = inr vars ->
  rdb (listHandler_statement vars (listHandler_maxResults r))
  = Ok (map users.columns rows) ->
  exists l,
    listHandler (DB_of_rows rdb) clock r = mkResponse StatusOK (BodyJSON l)
    /\ map CreatedAt (Users l) = map users.updated_at rows
    /\ map UpdatedAt (Users l) = map users.created_at rows
    /\ map ID (Users l) = map users.id rows
    /\ map Name (Users l) = map users.name rows
    /\ map Email (Users l) = map users.email rows.
Proof.
  intros Ec Edb. unfold listHandler, DB_of_rows. rewrite Ec, Edb.
  cbn [bind]. rewrite scanRows_table.
  destruct (listHandler_continuation clock vars _ (map scanned rows))
    as [n s].
  eexists. split; [reflexivity|]. cbn [Users].
  rewrite !map_map. repeat split; reflexivity.
Qed.

Lemma X8_witness :
  exists l,
    listHandler (DB_of_rows ex_rowdb) ex_clock ex_first
    = mkResponse StatusOK (BodyJSON l)
    /\ map CreatedAt (Users l) = map users.updated_at (map ex_row (seq 0 3))
    /\ map UpdatedAt (Users l) = map users.created_at (map ex_row (seq 0 3))
    /\ map ID (Users l) = map users.id (map ex_row (seq 0 3))
    /\ map Name (Users l) = map users.name (map ex_row (seq 0 3))
    /\ map Email (Users l) = map users.email (map ex_row (seq 0 3)).
Proof.
  apply (X8_time_columns_swapped ex_rowdb ex_clock ex_first
           (mkVars (time.Time_UTC (now_start ex_clock)) time.zero 0 None None)).
  - vm_compute. reflexivity.
  - reflexivity.
Defined.

(** * The insert endpoint *)

(** ** Strings the scanner accepts can be unquoted *)

Lemma scanString_text n : forall s acc raw rest,
  (List.length s <= n)%nat ->
  json.scanString s acc = Some (raw, rest) ->
  exists body, raw = rev acc ++ body /\ stringText body.
Proof.
  induction n as [|n IH]; intros s acc raw rest Hn E.
  - destruct s; [discriminate|cbn in Hn; lia].
  - destruct s as [|c r]; [discriminate|]. cbn [json.scanString] in E.
    cbn [List.length] in Hn.
    destruct (Ascii.eqb c dquote) eqn:Eq.
    { inversion E. subst. exists []. rewrite app_nil_r.
      split; [reflexivity | constructor]. }
    destruct (Ascii.eqb c "\") eqn:Eb.
    + apply Ascii.eqb_eq in Eb. subst c.
      destruct r as [|e r1]; [discriminate|].
      destruct (json.isSimpleEscape e) eqn:Ee.
      * apply IH in E; [|cbn [List.length] in Hn; lia].
        destruct E as (body & -> & Hb). exists ("\"%char :: e :: body).
        split; [|constructor; assumption].
        cbn [rev]. rewrite <- !app_assoc. reflexivity.
      * destruct (Ascii.eqb e "u") eqn:Eu; [|discriminate].
        apply Ascii.eqb_eq in Eu. subst e.
        destruct r1 as [|h1 [|h2 [|h3 [|h4 r2]]]]; try discriminate.
        destruct (isHex h1 && isHex h2 && isHex h3 && isHex h4) eqn:Eh;
          [|discriminate].
        apply IH in E; [|cbn [List.length] in Hn; lia].
        destruct E as (body & -> & Hb).
        exists ("\"%char :: "u"%char :: h1 :: h2 :: h3 :: h4 :: body).
        split; [|constructor; assumption].
        cbn [rev]. rewrite <- !app_assoc. reflexivity.
    + destruct (byteZ c <? 32) eqn:Ec; [discriminate|].
      apply IH in E; [|lia].
      destruct E as (body & -> & Hb). exists (c :: body).
      split; [|constructor; assumption].
      cbn [rev]. rewrite <- app_assoc. reflexivity.
Qed.

Lemma scanString_stringText s raw rest :
  json.scanString s [] = Some (raw, rest) -> stringText raw.
Proof.
  intros E. destruct (scanString_text _ s [] raw rest (le_n _) E)
    as (body & -> & Hb). exact Hb.
Qed.

Lemma byteZ_backslash : byteZ "\" = 92.
Proof. reflexivity. Qed.

(** A text without its first byte, when that byte is not a backslash. *)
Lemma stringText_tail c s :
  Ascii.eqb c "\" = false -> stringText (c :: s) -> stringText s.
Proof.
  intros Hc H. inversion H; subst; try assumption;
    rewrite Ascii.eqb_refl in Hc; discriminate.
Qed.

Lemma high_not_backslash c : 128 <= byteZ c -> Ascii.eqb c "\" = false.
Proof.
  intros H. apply Ascii.eqb_neq. intros ->. rewrite byteZ_backslash in H. lia.
Qed.

Lemma first_spec p0 sz lo hi :
  utf8.first p0 = Some (sz, (lo, hi)) ->
  128 <= lo /\ (sz = 2 \/ sz = 3 \/ sz = 4)%nat.
Proof.
  unfold utf8.first.
  repeat match goal with
         | |- context [if ?b then _ else _] => destruct b
         end; intros H; inversion H; subst; split; auto; lia.
Qed.

(** The bytes [DecodeRune] takes after the first are 0x80 or above. *)
Lemma DecodeRune_skip c r rr size :
  128 <= byteZ c ->
  utf8.DecodeRune (c :: r) = (rr, size) ->
  stringText (c :: r) ->
  stringText (skipn size (c :: r))
  /\ (1 <= size <= List.length (c :: r))%nat.
Proof.
  intros Hc E Ht. unfold utf8.DecodeRune in E.
  destruct (Z.ltb_spec (byteZ c) 128); [lia|].
  assert (H1 : stringText (skipn 1 (c :: r))
               /\ (1 <= 1 <= List.length (c :: r))%nat).
  { split; [|cbn [List.length]; lia].
    cbn [skipn]. apply (stringText_tail c); [|exact Ht].
    apply high_not_backslash, Hc. }
  destruct (utf8.first (byteZ c)) as [[sz [lo hi]]|] eqn:Ef;
    [|inversion E; subst; exact H1].
  destruct (first_spec _ _ _ _ Ef) as [Hlo Hsz].
  destruct (Nat.ltb_spec (List.length (c :: r)) sz) as [Hlen | Hlen];
    [inversion E; subst; exact H1|].
  destruct r as [|c1 r]; [cbn [List.length] in Hlen; lia|].
  cbn [nth] in E.
  destruct (Z.ltb_spec (byteZ c1) lo); cbn [orb] in E;
    [inversion E; subst; exact H1|].
  destruct (hi <? byteZ c1); [inversion E; subst; exact H1|].
  assert (Ht1 : stringText (c1 :: r))
    by (apply (stringText_tail c); [apply high_not_backslash, Hc | exact Ht]).
  assert (Ht2 : stringText r)
    by (apply (stringText_tail c1); [apply high_not_backslash; lia | exact Ht1]).
  destruct (Nat.leb_spec sz 2).
  { inversion E; subst. split; [exact Ht2 | cbn [List.length]; lia]. }
  destruct r as [|c2 r]; [cbn [List.length] in Hlen; lia|].
  cbn [nth] in E.
  destruct (Z.ltb_spec (byteZ c2) 128); cbn [orb] in E;
    [inversion E; subst; exact H1|].
  destruct (191 <? byteZ c2); [inversion E; subst; exact H1|].
  assert (Ht3 : stringText r)
    by (apply (stringText_tail c2); [apply high_not_backslash; lia | exact Ht2]).
  destruct (Nat.leb_spec sz 3).
  { inversion E; subst. split; [exact Ht3 | cbn [List.length]; lia]. }
  destruct r as [|c3 r]; [cbn [List.length] in Hlen; lia|].
  cbn [nth] in E.
  destruct (Z.ltb_spec (byteZ c3) 128); cbn [orb] in E;
    [inversion E; subst; exact H1|].
  destruct (191 <? byteZ c3); [inversion E; subst; exact H1|].
  inversion E; subst. split; [|cbn [List.length]; lia].
  cbn [skipn]. apply (stringText_tail c3); [apply high_not_backslash; lia | exact Ht3].
Qed.

Lemma option_map_some {A C : Type} (f : A -> C) o :
  o <> None -> option_map f o <> None.
Proof. destruct o; [discriminate | congruence]. Qed.

Lemma getu4_hex h1 h2 h3 h4 s :
  isHex h1 && isHex h2 && isHex h3 && isHex h4 = true ->
  0 <= decode.getu4 ("\"%char :: "u"%char :: h1 :: h2 :: h3 :: h4 :: s).
Proof.
  intros H. unfold decode.getu4. rewrite !Ascii.eqb_refl. cbn [andb].
  rewrite H.
  assert (Hu : forall h, isHex h = true -> 0 <= unhex h).
  { intros h Hh. unfold unhex, isHex, isDigit, in_range in *.
    change (byteZ "0") with 48 in *. change (byteZ "9") with 57 in *.
    change (byteZ "a") with 97 in *. change (byteZ "f") with 102 in *.
    change (byteZ "A") with 65 in *. change (byteZ "F") with 70 in *.
    destruct (Z.leb_spec 48 (byteZ h)), (Z.leb_spec (byteZ h) 57);
      cbn [andb orb] in *; try lia;
      destruct (Z.leb_spec 97 (byteZ h)), (Z.leb_spec (byteZ h) 102);
      cbn [andb orb] in *; try lia;
      destruct (Z.leb_spec 65 (byteZ h)), (Z.leb_spec (byteZ h) 70);
      cbn [andb orb] in *; try lia; discriminate. }
  rewrite !andb_true_iff in H. destruct H as [[[A1 A2] A3] A4].
  apply Hu in A1, A2, A3, A4. nia.
Qed.

(** A valid pair needs a second escape. *)
Lemma getu4_negative s :
  decode.getu4 s < 0 \/
  exists h1 h2 h3 h4 t,
    s = "\"%char :: "u"%char :: h1 :: h2 :: h3 :: h4 :: t
    /\ isHex h1 && isHex h2 && isHex h3 && isHex h4 = true.
Proof.
  unfold decode.getu4.
  destruct s as [|b [|u [|h1 [|h2 [|h3 [|h4 t]]]]]]; try (left; lia).
  destruct (Ascii.eqb_spec b "\"); cbn [andb]; [|left; lia].
  destruct (Ascii.eqb_spec u "u"); cbn [andb]; [|left; lia].
  destruct (isHex h1 && isHex h2 && isHex h3 && isHex h4) eqn:E;
    [|left; lia].
  right. subst. exists h1, h2, h3, h4, t. split; [reflexivity | exact E].
Qed.

Lemma DecodeRune16_pair r1 r2 :
  (utf16.DecodeRune r1 r2 =? 65533) = false -> 0 <= r2.
Proof.
  unfold utf16.DecodeRune.
  destruct ((55296 <=? r1) && (r1 <? 56320) && (56320 <=? r2) && (r2 <? 57344))
    eqn:E; [|intros H; discriminate H].
  intros _. rewrite !andb_true_iff, !Z.leb_le in E. lia.
Qed.

Lemma isSimpleEscape_cases e :
  json.isSimpleEscape e = true ->
  e = dquote \/ e = "\"%char \/ e = "/"%char \/ e = "b"%char \/ e = "f"%char
  \/ e = "n"%char \/ e = "r"%char \/ e = "t"%char.
Proof.
  unfold json.isSimpleEscape. cbn [existsb B list_ascii_of_string].
  rewrite !orb_true_iff, !Ascii.eqb_eq. intuition discriminate.
Qed.

Lemma unquoteLoop_total fuel : forall s,
  stringText s -> (List.length s <= fuel)%nat ->
  decode.unquoteLoop fuel s <> None.
Proof.
  induction fuel as [|fuel IH]; intros s Ht Hn.
  - destruct s; [discriminate | cbn in Hn; lia].
  - inversion Ht as [|c s' Hq Hb Hc Hs |e s' He Hs |h1 h2 h3 h4 s' Hh Hs];
      subst.
    + discriminate.
    + cbn [decode.unquoteLoop]. rewrite Hb, Hq, Hc. cbn [orb].
      cbn [List.length] in Hn.
      destruct (Z.ltb_spec (byteZ c) 128).
      * apply option_map_some, IH; [assumption | lia].
      * destruct (utf8.DecodeRune (c :: s')) as [rr size] eqn:Ed.
        destruct (DecodeRune_skip c s' rr size ltac:(lia) Ed Ht) as [Hk Hsz].
        apply option_map_some, IH; [exact Hk|].
        rewrite length_skipn. cbn [List.length] in *. lia.
    + cbn [decode.unquoteLoop]. rewrite Ascii.eqb_refl.
      cbn [List.length] in Hn.
      assert (Hr : decode.unquoteLoop fuel s' <> None)
        by (apply IH; [assumption | lia]).
      destruct (isSimpleEscape_cases e He)
        as [-> | [-> | [-> | [-> | [-> | [-> | [-> | ->]]]]]]];
        cbn [Ascii.eqb Bool.eqb orb andb];
        try rewrite Ascii.eqb_refl; cbn [orb];
        apply option_map_some; exact Hr.
    + cbn [decode.unquoteLoop]. rewrite Ascii.eqb_refl.
      change (Ascii.eqb "u" dquote || Ascii.eqb "u" "\" || Ascii.eqb "u" "/"
              || Ascii.eqb "u" "'") with false.
      change (Ascii.eqb "u" "b") with false.
      change (Ascii.eqb "u" "f") with false.
      change (Ascii.eqb "u" "n") with false.
      change (Ascii.eqb "u" "r") with false.
      change (Ascii.eqb "u" "t") with false.
      change (Ascii.eqb "u" "u") with true. cbv iota.
      pose proof (getu4_hex h1 h2 h3 h4 s' Hh) as Hg.
      destruct (Z.ltb_spec
                  (decode.getu4
                     ("\"%char :: "u"%char :: h1 :: h2 :: h3 :: h4 :: s')) 0);
        [lia|].
      cbn [skipn]. cbn [List.length] in Hn.
      assert (Hr : decode.unquoteLoop fuel s' <> None)
        by (apply IH; [assumption | lia]).
      destruct (utf16.IsSurrogate _); [|apply option_map_some; exact Hr].
      destruct (utf16.DecodeRune _ (decode.getu4 s') =? 65533) eqn:Ep;
        cbn [negb]; [apply option_map_some; exact Hr|].
      apply DecodeRune16_pair in Ep.
      destruct (getu4_negative s') as [Hneg | (k1 & k2 & k3 & k4 & t & -> & Hk)];
        [lia|].
      inversion Hs as [| ? ? ? Hb' | ? ? He' |? ? ? ? ? ? Hs']; subst.
      * rewrite Ascii.eqb_refl in Hb'. discriminate.
      * discriminate He'.
      * apply option_map_some. cbn [skipn]. apply IH; [exact Hs'|].
        cbn [List.length] in Hn. lia.
Qed.

Lemma plainPrefix_skip fuel : forall s,
  stringText s -> stringText (skipn (decode.plainPrefix fuel s) s).
Proof.
  induction fuel as [|fuel IH]; intros s Ht; [exact Ht|].
  destruct s as [|c r]; [exact Ht|]. cbn [decode.plainPrefix].
  destruct (Ascii.eqb c "\") eqn:Eb; cbn [orb]; [exact Ht|].
  destruct (Ascii.eqb c dquote || (byteZ c <? 32)); [exact Ht|].
  destruct (Z.ltb_spec (byteZ c) 128).
  - cbn [skipn]. apply IH. apply (stringText_tail c); assumption.
  - destruct (utf8.DecodeRune (c :: r)) as [rr size] eqn:Ed.
    destruct ((rr =? utf8.RuneError) && (size =? 1)%nat); [exact Ht|].
    destruct (DecodeRune_skip c r rr size ltac:(lia) Ed Ht) as [Hk _].
    rewrite Nat.add_comm, <- skipn_skipn. apply IH, Hk.
Qed.

Lemma unquoteBytes_total s :
  stringText s -> exists t, decode.unquoteBytes s = Some t.
Proof.
  intros Ht. unfold decode.unquoteBytes.
  destruct (_ =? _)%nat; [eexists; reflexivity|].
  destruct (decode.unquoteLoop (List.length s)
              (skipn (decode.plainPrefix (List.length s) s) s)) as [t|] eqn:E.
  - eexists. reflexivity.
  - exfalso. revert E. apply unquoteLoop_total.
    + apply plainPrefix_skip, Ht.
    + rewrite length_skipn. lia.
Qed.

(** The strings of a parsed value are texts the scanner accepted. *)
Lemma parse_text fuel :
  (forall depth s v r,
      json.parseValue fuel depth s = json.POk v r ->
      match v with json.String raw => stringText raw | _ => True end)
  /\ (forall depth s acc v r,
         json.parseElems fuel depth s acc = json.POk v r ->
         exists es, v = json.Array es)
  /\ (forall depth s acc v r,
         json.parseMembers fuel depth s acc = json.POk v r ->
         Forall memberText acc ->
         exists ms, v = json.Object ms /\ Forall memberText ms).
Proof.
  induction fuel as [|fuel (IHv & IHe & IHm)].
  { repeat split; intros; discriminate. }
  split; [|split].
  - intros depth s v r E. cbn [json.parseValue] in E.
    destruct s as [|c s']; [discriminate|].
    destruct (Ascii.eqb c "{").
    { destruct (json.maxNestingDepth <=? depth); [discriminate|].
      destruct (json.skipSpace s') as [|c1 r1]; [discriminate|].
      destruct (Ascii.eqb c1 "}"); [inversion E; exact I|].
      apply IHm in E; [|constructor]. destruct E as (ms & -> & _). exact I. }
    destruct (Ascii.eqb c "[").
    { destruct (json.maxNestingDepth <=? depth); [discriminate|].
      destruct (json.skipSpace s') as [|c1 r1]; [discriminate|].
      destruct (Ascii.eqb c1 "]"); [inversion E; exact I|].
      apply IHe in E. destruct E as (es & ->). exact I. }
    destruct (Ascii.eqb c dquote).
    { destruct (json.scanString s' []) as [[raw r1]|] eqn:Es; [|discriminate].
      inversion E. subst. eapply scanString_stringText, Es. }
    destruct (Ascii.eqb c "-" || isDigit c).
    { destruct (json.scanNumber _) as [[lit r1]|]; [|discriminate].
      inversion E. exact I. }
    destruct (Ascii.eqb c "t").
    { destruct (json.stripPrefix _ _); [|discriminate]. inversion E. exact I. }
    destruct (Ascii.eqb c "f").
    { destruct (json.stripPrefix _ _); [|discriminate]. inversion E. exact I. }
    destruct (Ascii.eqb c "n"); [|discriminate].
    destruct (json.stripPrefix _ _); [|discriminate]. inversion E. exact I.
  - intros depth s acc v r E. cbn [json.parseElems] in E.
    destruct (json.parseValue fuel depth s) as [x r0| |]; try discriminate.
    destruct (json.skipSpace r0) as [|c r1]; [discriminate|].
    destruct (Ascii.eqb c ","); [eapply IHe, E|].
    destruct (Ascii.eqb c "]"); [|discriminate].
    inversion E. eexists. reflexivity.
  - intros depth s acc v r E Hacc. cbn [json.parseMembers] in E.
    destruct s as [|q s']; [discriminate|].
    destruct (Ascii.eqb q dquote); [|discriminate].
    destruct (json.scanString s' []) as [[key r1]|] eqn:Ek; [|discriminate].
    destruct (json.skipSpace r1) as [|c r2]; [discriminate|].
    destruct (Ascii.eqb c ":"); [|discriminate].
    destruct (json.parseValue fuel depth (json.skipSpace r2))
      as [x r3| |] eqn:Ev; try discriminate.
    assert (Hm : memberText (key, x)).
    { split; [eapply scanString_stringText, Ek|].
      apply IHv in Ev. exact Ev. }
    destruct (json.skipSpace r3) as [|c' r4]; [discriminate|].
    destruct (Ascii.eqb c' ",").
    { eapply IHm; [exact E|]. constructor; assumption. }
    destruct (Ascii.eqb c' "}"); [|discriminate].
    inversion E. eexists. split; [reflexivity|].
    apply Forall_app. split; [apply Forall_rev, Hacc|].
    constructor; [exact Hm | constructor].
Qed.

(** ** The fields after the members *)

Lemma fieldIs_fold name key :
  decode.fieldIs name key = true
  <-> json.foldName key = json.foldName (B name).
Proof.
  unfold decode.fieldIs. rewrite orb_true_iff, !bytes_eqb_eq.
  split; [intros [-> | H]; [reflexivity | exact H] | intros H; right; exact H].
Qed.

Lemma fieldIs_other a b key :
  json.foldName (B a) <> json.foldName (B b) ->
  decode.fieldIs a key = true -> decode.fieldIs b key = false.
Proof.
  intros Hab Ha. apply fieldIs_fold in Ha.
  destruct (decode.fieldIs b key) eqn:Eb; [|reflexivity].
  apply fieldIs_fold in Eb. congruence.
Qed.

Ltac other_fields H :=
  repeat match goal with
         | |- context [decode.fieldIs ?b ?key] =>
             lazymatch type of H with
             | decode.fieldIs b key = true => fail
             | decode.fieldIs ?a key = true =>
                 let N := fresh in
                 assert (N : json.foldName (B a) <> json.foldName (B b))
                   by (vm_compute; discriminate);
                 rewrite (fieldIs_other a b key N H); clear N
             end
         end.

Lemma storeUserMembers_spec ms : forall user saved,
  Forall memberText ms ->
  decode.storeUserMembers ms user saved
  = Some (afterMembers ms user,
          if existsb badUserMember ms
          then decode.saveError saved UnmarshalTypeError else saved).
Proof.
  induction ms as [|[k x] ms IH]; intros user saved Hms.
  - destruct user. reflexivity.
  - inversion Hms as [|m ms' [Hk Hx] Hms']. subst. cbn [fst snd] in Hk, Hx.
    destruct (unquoteBytes_total k Hk) as [key Ekey].
    cbn [decode.storeUserMembers existsb]. rewrite Ekey.
    unfold afterMembers. cbn [fold_left].
    unfold badUserMember at 1, knownField. unfold takes at 2 4 6 8 10.
    cbn [fst snd]. rewrite Ekey.
    assert (Hstore : forall old sv,
               decode.storeString x old sv
               = Some (match x with
                       | json.String raw =>
                           match decode.unquoteBytes raw with
                           | Some t => t
                           | None => old
                           end
                       | _ => old
                       end,
                       match x with
                       | json.String _ | json.Null => sv
                       | _ => decode.saveError sv UnmarshalTypeError
                       end)).
    { intros old sv. destruct x; try reflexivity.
      cbn [decode.storeString].
      destruct (unquoteBytes_total raw Hx) as [t ->]. reflexivity. }
    destruct (decode.fieldIs "id" key) eqn:F1;
      [other_fields F1|
       destruct (decode.fieldIs "name" key) eqn:F2;
       [other_fields F2|
        destruct (decode.fieldIs "email" key) eqn:F3;
        [other_fields F3|
         destruct (decode.fieldIs "created_at" key) eqn:F4;
         [other_fields F4|
          destruct (decode.fieldIs "updated_at" key) eqn:F5;
          [other_fields F5|]]]]];
      cbn [orb andb]; try rewrite Hstore; rewrite IH by assumption;
      unfold afterMembers; cbn [ID Name Email CreatedAt UpdatedAt];
      destruct x; destruct (existsb badUserMember ms); destruct saved;
      reflexivity.
Qed.

Lemma afterMembers_zero ms :
  afterMembers ms User_zero
  = mkUser (lastString "id" ms) (lastString "name" ms) (lastString "email" ms)
           (lastString "created_at" ms) (lastString "updated_at" ms).
Proof. reflexivity. Qed.

(** [Decode] by the first value of the body. *)
Lemma Decode_firstValue body :
  decode.Decode body User_zero
  = Some match firstValue body with
         | None => Err SyntaxError
         | Some (json.Object ms) =>
             if existsb badUserMember ms then Err UnmarshalTypeError
             else Ok (afterMembers ms User_zero)
         | Some json.Null => Ok User_zero
         | Some _ => Err UnmarshalTypeError
         end.
Proof.
  unfold decode.Decode, firstValue.
  destruct (json.parseValue _ 0 (json.skipSpace body)) as [v r| |] eqn:E;
    try reflexivity.
  pose proof (proj1 (parse_text _) _ _ _ _ E) as Hv.
  destruct v as [|b|lit|raw|es|ms]; try reflexivity.
  - cbn [decode.unmarshalUser].
    destruct (unquoteBytes_total raw Hv) as [t ->]. reflexivity.
  - cbn [decode.unmarshalUser].
    assert (Hms : Forall memberText ms).
    { cbn [json.parseValue] in E.
      destruct (2 * List.length body + 2)%nat as [|fuel] eqn:Ef; [discriminate|].
      cbn [json.parseValue] in E.
      destruct (json.skipSpace body) as [|c s']; [discriminate|].
      destruct (Ascii.eqb c "{").
      { destruct (json.maxNestingDepth <=? 0); [discriminate|].
        destruct (json.skipSpace s') as [|c1 r1]; [discriminate|].
        destruct (Ascii.eqb c1 "}"); [inversion E; constructor|].
        apply (proj2 (proj2 (parse_text _))) in E; [|constructor].
        destruct E as (ms' & E' & H'). inversion E'. subst. exact H'. }
      destruct (Ascii.eqb c "[").
      { destruct (json.maxNestingDepth <=? 0); [discriminate|].
        destruct (json.skipSpace s') as [|c1 r1]; [discriminate|].
        destruct (Ascii.eqb c1 "]"); [discriminate|].
        apply (proj1 (proj2 (parse_text _))) in E.
        destruct E as (es & E'). discriminate E'. }
      destruct (Ascii.eqb c dquote).
      { destruct (json.scanString s' []) as [[raw r1]|]; discriminate. }
      destruct (Ascii.eqb c "-" || isDigit c).
      { destruct (json.scanNumber _) as [[lit r1]|]; discriminate. }
      destruct (Ascii.eqb c "t").
      { destruct (json.stripPrefix _ _); discriminate. }
      destruct (Ascii.eqb c "f").
      { destruct (json.stripPrefix _ _); discriminate. }
      destruct (Ascii.eqb c "n"); [|discriminate].
      destruct (json.stripPrefix _ _); discriminate. }
    rewrite storeUserMembers_spec by exact Hms. cbn [decode.saveError].
    destruct (existsb badUserMember ms); reflexivity.
Qed.

(** [Scan] fills every field. *)
Lemma Scan_row user cols :
  Scan user cols
  = match cols with
    | [c1; c2; c3; c4; c5] => Ok (mkUser c1 c2 c3 c5 c4)
    | _ => Err QueryError
    end.
Proof.
  destruct cols as [|c1 [|c2 [|c3 [|c4 [|c5 [|c6 r]]]]]]; reflexivity.
Qed.

Lemma insertHandler_firstValue db body :
  insertHandler db body
  = Some match firstValue body with
         | None => mkInsertResponse StatusBadRequest (InsertError SyntaxError)
         | Some (json.Object ms) =>
             if existsb badUserMember ms
             then mkInsertResponse StatusBadRequest
                                   (InsertError UnmarshalTypeError)
             else insertRow db (lastString "name" ms) (lastString "email" ms)
         | Some json.Null => insertRow db [] []
         | Some _ =>
             mkInsertResponse StatusBadRequest (InsertError UnmarshalTypeError)
         end.
Proof.
  unfold insertHandler. rewrite Decode_firstValue.
  assert (Hrow : forall user,
             match db (Name user) (Email user) with
             | Ok cols =>
                 match Scan user cols with
                 | Ok user0 =>
                     Some (mkInsertResponse StatusOK (InsertUser user0))
                 | Err err =>
                     Some (mkInsertResponse StatusInternalServerError
                                            (InsertError err))
                 end
             | Err err =>
                 Some (mkInsertResponse StatusInternalServerError
                                        (InsertError err))
             end = Some (insertRow db (Name user) (Email user))).
  { intros user. unfold insertRow.
    destruct (db (Name user) (Email user)) as [cols|e]; [|reflexivity].
    rewrite Scan_row.
    destruct cols as [|c1 [|c2 [|c3 [|c4 [|c5 [|c6 r]]]]]]; reflexivity. }
  destruct (firstValue body) as [[|b|lit|raw|es|ms]|]; try reflexivity.
  - apply (Hrow User_zero).
  - destruct (existsb badUserMember ms); [reflexivity|].
    rewrite Hrow. reflexivity.
Qed.

(** ** The body a client posts *)

Lemma parseMembers_string_step fuel depth key val c rest acc :
  forallb plain key = true -> forallb plain val = true ->
  json.isSpace c = false ->
  json.parseMembers (S (S fuel)) depth
    (dquote :: key ++ dquote :: ":"%char :: dquote :: val ++ dquote :: c :: rest)
    acc
  = if Ascii.eqb c "," then
      json.parseMembers (S fuel) depth (json.skipSpace rest)
        ((key, json.String val) :: acc)
    else if Ascii.eqb c "}" then
      json.POk (json.Object (rev ((key, json.String val) :: acc))) rest
    else json.PSyntax.
Proof.
  intros Hk Hv Hsp.
  change (json.parseMembers (S (S fuel)) depth
            (dquote :: key ++ dquote :: ":"%char :: dquote :: val
                    ++ dquote :: c :: rest) acc)
    with (if Ascii.eqb dquote dquote then
            match json.scanString
                    (key ++ dquote :: ":"%char :: dquote :: val
                         ++ dquote :: c :: rest) [] with
            | None => json.PSyntax
            | Some (key, r1) =>
                match json.skipSpace r1 with
                | c :: r2 =>
                    if Ascii.eqb c ":" then
                      match json.parseValue (S fuel) depth (json.skipSpace r2) with
                      | json.POk v r3 =>
                          match json.skipSpace r3 with
                          | c' :: r4 =>
                              if Ascii.eqb c' "," then
                                json.parseMembers (S fuel) depth (json.skipSpace r4)
                                  ((key, v) :: acc)
                              else if Ascii.eqb c' "}" then
                                json.POk (json.Object (rev ((key, v) :: acc))) r4
                              else json.PSyntax
                          | [] => json.PSyntax
                          end
                      | json.PSyntax => json.PSyntax
                      | json.PFuel => json.PFuel
                      end
                    else json.PSyntax
                | [] => json.PSyntax
                end
            end
          else json.PSyntax).
  rewrite Ascii.eqb_refl, scanString_plain by assumption.
  cbn [rev app]. cbn [json.skipSpace].
  replace (json.isSpace ":") with false by reflexivity.
  replace (Ascii.eqb ":" ":") with true by reflexivity.
  cbn [json.skipSpace].
  replace (json.isSpace dquote) with false by reflexivity.
  cbn [json.parseValue].
  change (Ascii.eqb dquote "{") with false.
  change (Ascii.eqb dquote "[") with false.
  rewrite Ascii.eqb_refl, scanString_plain by assumption.
  cbn [rev app json.skipSpace]. rewrite Hsp. reflexivity.
Qed.

Lemma printable_plain s : forallb printable s = true -> forallb plain s = true.
Proof.
  apply forallb_impl. intros c H. unfold printable in H.
  apply andb_true_iff in H. tauto.
Qed.

Lemma plainPrefix_printable s : forall fuel,
  forallb printable s = true -> (List.length s <= fuel)%nat ->
  decode.plainPrefix fuel s = List.length s.
Proof.
  induction s as [|c s IH]; intros fuel H Hn.
  - destruct fuel; reflexivity.
  - destruct fuel as [|fuel]; [cbn in Hn; lia|].
    cbn [forallb] in H. apply andb_true_iff in H as [Hc Hs].
    unfold printable, plain in Hc.
    rewrite !andb_true_iff, !negb_true_iff in Hc.
    destruct Hc as [[[H1 H2] H3] H4].
    cbn [decode.plainPrefix]. rewrite H1, H2, H3, H4. cbn [orb].
    cbn [List.length] in *. rewrite IH by (assumption || lia). reflexivity.
Qed.

Lemma unquoteBytes_printable s :
  forallb printable s = true -> decode.unquoteBytes s = Some s.
Proof.
  intros H. unfold decode.unquoteBytes.
  rewrite plainPrefix_printable by (assumption || lia).
  rewrite Nat.eqb_refl. reflexivity.
Qed.

Lemma firstValue_insert_body name email :
  forallb printable name = true -> forallb printable email = true ->
  firstValue (insert_body name email)
  = Some (json.Object [(B "name", json.String name);
                       (B "email", json.String email)]).
Proof.
  intros Hn He. unfold firstValue.
  change (insert_body name email)
    with ("{"%char :: dquote :: B "name" ++ dquote :: ":"%char :: dquote
            :: name ++ dquote :: ","%char :: dquote :: B "email" ++ dquote
            :: ":"%char :: dquote :: email ++ dquote :: "}"%char :: []).
  match goal with
  | |- context [(2 * List.length (?c :: ?l) + 2)%nat] =>
      replace (2 * List.length (c :: l) + 2)%nat
        with (S (S (S (S (2 * List.length l)))))
        by (cbn [List.length]; lia)
  end.
  cbn [json.skipSpace]. replace (json.isSpace "{") with false by reflexivity.
  cbn [json.parseValue]. rewrite Ascii.eqb_refl.
  change (json.maxNestingDepth <=? 0) with false. cbv iota.
  cbn [json.skipSpace]. replace (json.isSpace dquote) with false by reflexivity.
  change (Ascii.eqb dquote "}") with false. cbv iota.
  rewrite (parseMembers_string_step _ 1 (B "name") name)
    by (try reflexivity; apply printable_plain; assumption).
  change (Ascii.eqb "," ",") with true. cbv iota.
  cbn [json.skipSpace]. replace (json.isSpace dquote) with false by reflexivity.
  rewrite (parseMembers_string_step _ 1 (B "email") email)
    by (try reflexivity; apply printable_plain; assumption).
  reflexivity.
Qed.

(** X9: what [insertHandler] answers, by the first JSON value of the
    body.  It always answers.  The status is 400, and the database is
    not asked, when the body does not begin with a JSON value, when this
    value is neither an object nor null, or when a member named like one
    of the five fields of [User] (in any letter case) holds something
    other than a string or null, also for the fields id, created_at and
    updated_at that are not inserted.  Otherwise the row is inserted with
    the last string given for name and for email, each empty when there
    is none: null, an empty object and misspelt names insert a row with
    empty name and email. *)
Theorem X9_insert_answer (db : InsertDB) (body : bytes) :
  insertHandler db body
  = Some match firstValue body with
         | None => mkInsertResponse StatusBadRequest (InsertError SyntaxError)
         | Some (json.Object ms) =>
             if existsb badUserMember ms
             then mkInsertResponse StatusBadRequest
                                   (InsertError UnmarshalTypeError)
             else insertRow db (lastString "name" ms) (lastString "email" ms)
         | Some json.Null => insertRow db [] []
         | Some _ =>
             mkInsertResponse StatusBadRequest (InsertError UnmarshalTypeError)
         end.
Proof.
  rewrite insertHandler_firstValue.
  destruct (firstValue body) as [v|]; [|reflexivity].
  destruct v; try reflexivity.
Qed.

(** X10: the body that the client posts, an object with a name and an
    email of printable ASCII without quote and backslash, inserts exactly
    this name and this email, and the answer is the row the database
    returns for them, with status 200, its created_at in the field
    UpdatedAt and its updated_at in the field CreatedAt. *)
Theorem X10_insert_client_body (db : InsertDB) (name email : bytes)
        (row : users.Row) :
  forallb printable name = true -> forallb printable email = true ->
  db name email = Ok (users.columns row) ->
  insertHandler db (insert_body name email)
  = Some (mkInsertResponse StatusOK (InsertUser (scanned row)))
  /\ CreatedAt (scanned row) = users.updated_at row
  /\ UpdatedAt (scanned row) = users.created_at row.
Proof.
  intros Hn He Hdb. split; [|split; reflexivity].
  rewrite insertHandler_firstValue, firstValue_insert_body by assumption.
  assert (En : lastString "name" [(B "name", json.String name);
                                  (B "email", json.String email)] = name).
  { unfold lastString. cbn [fold_left]. unfold takes. cbn [fst snd].
    rewrite (unquoteBytes_printable name) by assumption.
    change (decode.unquoteBytes (B "name")) with (Some (B "name")).
    change (decode.unquoteBytes (B "email")) with (Some (B "email")).
    reflexivity. }
  assert (Ee : lastString "email" [(B "name", json.String name);
                                   (B "email", json.String email)] = email).
  { unfold lastString. cbn [fold_left]. unfold takes. cbn [fst snd].
    rewrite (unquoteBytes_printable email) by assumption.
    change (decode.unquoteBytes (B "name")) with (Some (B "name")).
    change (decode.unquoteBytes (B "email")) with (Some (B "email")).
    reflexivity. }
  rewrite En, Ee.
  replace (existsb badUserMember _) with false by reflexivity.
  unfold insertRow. rewrite Hdb. reflexivity.
Qed.

Lemma X10_witness :
  insertHandler ex_insertdb
    (insert_body (B "User01") (B "user01@example.com"))
  = Some (mkInsertResponse StatusOK
            (InsertUser
               (scanned (users.mkRow (B "6f1c") (B "User01")
                                     (B "user01@example.com")
                                     (B "2023-11-14 22:13:20")
                                     (B "2023-11-14 22:13:20")))))
  /\ CreatedAt (scanned (users.mkRow (B "6f1c") (B "User01")
                                     (B "user01@example.com")
                                     (B "2023-11-14 22:13:20")
                                     (B "2023-11-14 22:13:20")))
     = B "2023-11-14 22:13:20"
  /\ UpdatedAt (scanned (users.mkRow (B "6f1c") (B "User01")
                                     (B "user01@example.com")
                                     (B "2023-11-14 22:13:20")
                                     (B "2023-11-14 22:13:20")))
     = B "2023-11-14 22:13:20".
Proof.
  apply (X10_insert_client_body ex_insertdb (B "User01")
           (B "user01@example.com")).
  - vm_compute. reflexivity.
  - vm_compute. reflexivity.
  - reflexivity.
Defined.

(** ** What follows the first value *)

(** More budget does not change what the parser returns. *)
Lemma parse_fuel_mono fuel :
  (forall depth s v r fuel',
      json.parseValue fuel depth s = json.POk v r -> (fuel <= fuel')%nat ->
      json.parseValue fuel' depth s = json.POk v r)
  /\ (forall depth s acc v r fuel',
         json.parseElems fuel depth s acc = json.POk v r ->
         (fuel <= fuel')%nat ->
         json.parseElems fuel' depth s acc = json.POk v r)
  /\ (forall depth s acc v r fuel',
         json.parseMembers fuel depth s acc = json.POk v r ->
         (fuel <= fuel')%nat ->
         json.parseMembers fuel' depth s acc = json.POk v r).
Proof.
  induction fuel as [|fuel (IHv & IHe & IHm)].
  { repeat split; intros; discriminate. }
  split; [|split].
  - intros depth s v r fuel' E Hf.
    destruct fuel' as [|fuel']; [lia|]. apply le_S_n in Hf.
    cbn [json.parseValue] in E |- *.
    destruct s as [|c s']; [discriminate|].
    destruct (Ascii.eqb c "{").
    { destruct (json.maxNestingDepth <=? depth); [discriminate|].
      destruct (json.skipSpace s') as [|c1 r1]; [discriminate|].
      destruct (Ascii.eqb c1 "}"); [exact E|]. eapply IHm; eassumption. }
    destruct (Ascii.eqb c "[").
    { destruct (json.maxNestingDepth <=? depth); [discriminate|].
      destruct (json.skipSpace s') as [|c1 r1]; [discriminate|].
      destruct (Ascii.eqb c1 "]"); [exact E|]. eapply IHe; eassumption. }
    exact E.
  - intros depth s acc v r fuel' E Hf.
    destruct fuel' as [|fuel']; [lia|]. apply le_S_n in Hf.
    cbn [json.parseElems] in E |- *.
    destruct (json.parseValue fuel depth s) as [x r0| |] eqn:Ev;
      try discriminate.
    rewrite (IHv _ _ _ _ fuel' Ev Hf).
    destruct (json.skipSpace r0) as [|c r1]; [discriminate|].
    destruct (Ascii.eqb c ","); [eapply IHe; eassumption | exact E].
  - intros depth s acc v r fuel' E Hf.
    destruct fuel' as [|fuel']; [lia|]. apply le_S_n in Hf.
    cbn [json.parseMembers] in E |- *.
    destruct s as [|q s']; [discriminate|].
    destruct (Ascii.eqb q dquote); [|discriminate].
    destruct (json.scanString s' []) as [[key r1]|]; [|discriminate].
    destruct (json.skipSpace r1) as [|c r2]; [discriminate|].
    destruct (Ascii.eqb c ":"); [|discriminate].
    destruct (json.parseValue fuel depth (json.skipSpace r2))
      as [x r3| |] eqn:Ev; try discriminate.
    rewrite (IHv _ _ _ _ fuel' Ev Hf).
    destruct (json.skipSpace r3) as [|c' r4]; [discriminate|].
    destruct (Ascii.eqb c' ","); [eapply IHm; eassumption | exact E].
Qed.

Lemma skipSpace_app s j c r :
  json.skipSpace s = c :: r -> json.skipSpace (s ++ j) = c :: r ++ j.
Proof.
  induction s as [|a s IH]; [discriminate|].
  cbn [json.skipSpace app]. destruct (json.isSpace a); [exact IH|].
  intros H. inversion H. reflexivity.
Qed.

Lemma scanString_app s j : forall acc raw r,
  json.scanString s acc = Some (raw, r) ->
  json.scanString (s ++ j) acc = Some (raw, r ++ j).
Proof.
  assert (H : forall n s acc raw r,
             (List.length s <= n)%nat ->
             json.scanString s acc = Some (raw, r) ->
             json.scanString (s ++ j) acc = Some (raw, r ++ j)).
  { clear s. induction n as [|n IH]; intros s acc raw r Hn E.
    - destruct s; [discriminate | cbn in Hn; lia].
    - destruct s as [|c s']; [discriminate|].
      cbn [json.scanString app] in E |- *. cbn [List.length] in Hn.
      destruct (Ascii.eqb c dquote); [inversion E; reflexivity|].
      destruct (Ascii.eqb c "\").
      + destruct s' as [|e r1]; [discriminate|]. cbn [app].
        destruct (json.isSimpleEscape e).
        { apply IH; [cbn [List.length] in Hn; lia | exact E]. }
        destruct (Ascii.eqb e "u"); [|discriminate].
        destruct r1 as [|h1 [|h2 [|h3 [|h4 r2]]]]; try discriminate.
        cbn [app].
        destruct (isHex h1 && isHex h2 && isHex h3 && isHex h4);
          [|discriminate].
        apply IH; [cbn [List.length] in Hn; lia | exact E].
      + destruct (byteZ c <? 32); [discriminate|].
        apply IH; [lia | exact E]. }
  intros acc raw r. apply (H (List.length s)). lia.
Qed.

Lemma stripPrefix_app p j : forall s r,
  json.stripPrefix p s = Some r -> json.stripPrefix p (s ++ j) = Some (r ++ j).
Proof.
  induction p as [|a p IH]; intros s r E.
  - cbn in E |- *. inversion E. reflexivity.
  - destruct s as [|b s]; [discriminate|]. cbn [json.stripPrefix app] in E |- *.
    destruct (Ascii.eqb a b); [apply IH, E | discriminate].
Qed.

Lemma scanDigits_ext s j : forall ds r,
  json.scanDigits s = (ds, r) -> r <> [] ->
  json.scanDigits (s ++ j) = (ds, r ++ j).
Proof.
  induction s as [|c s IH]; intros ds r E Hr.
  - inversion E. subst. congruence.
  - cbn [json.scanDigits app] in E |- *. destruct (isDigit c).
    + destruct (json.scanDigits s) as [ds' r'] eqn:Es. inversion E. subst.
      rewrite (IH ds' r eq_refl Hr). reflexivity.
    + inversion E. subst. reflexivity.
Qed.

Lemma scanExp_ext s j ep r :
  json.scanExp s = Some (ep, r) -> r <> [] ->
  json.scanExp (s ++ j) = Some (ep, r ++ j).
Proof.
  intros E Hr. destruct s as [|e s]; [inversion E; subst; congruence|].
  cbn [json.scanExp app] in E |- *.
  destruct (Ascii.eqb e "e" || Ascii.eqb e "E");
    [|inversion E; subst; reflexivity].
  destruct s as [|g s1].
  - cbn in E. discriminate.
  - cbn [app].
    destruct (Ascii.eqb g "+" || Ascii.eqb g "-").
    + destruct (json.scanDigits s1) as [ds r2] eqn:Ed.
      destruct ds as [|d ds]; [discriminate|]. inversion E. subst.
      rewrite (scanDigits_ext _ j _ _ Ed Hr). reflexivity.
    + destruct (json.scanDigits (g :: s1)) as [ds r2] eqn:Ed.
      destruct ds as [|d ds]; [discriminate|]. inversion E. subst.
      change (g :: s1 ++ j) with ((g :: s1) ++ j).
      rewrite (scanDigits_ext _ j _ _ Ed Hr). reflexivity.
Qed.

Lemma scanExp_rest s ep r : json.scanExp s = Some (ep, r) -> r <> [] -> s <> [].
Proof. intros E Hr ->. inversion E. congruence. Qed.

Lemma scanFrac_ext s j fp r :
  json.scanFrac s = Some (fp, r) -> r <> [] ->
  json.scanFrac (s ++ j) = Some (fp, r ++ j).
Proof.
  intros E Hr. destruct s as [|d s]; [inversion E; subst; congruence|].
  cbn [json.scanFrac app] in E |- *.
  destruct (Ascii.eqb d "."); [|inversion E; subst; reflexivity].
  destruct (json.scanDigits s) as [ds r'] eqn:Ed.
  destruct ds as [|x ds]; [discriminate|]. inversion E. subst.
  rewrite (scanDigits_ext _ j _ _ Ed Hr). reflexivity.
Qed.

Lemma scanFrac_rest s fp r :
  json.scanFrac s = Some (fp, r) -> r <> [] -> s <> [].
Proof. intros E Hr ->. inversion E. congruence. Qed.

Lemma scanInt_ext s j ip r :
  json.scanInt s = Some (ip, r) -> r <> [] ->
  json.scanInt (s ++ j) = Some (ip, r ++ j).
Proof.
  intros E Hr. destruct s as [|c s]; [discriminate|].
  cbn [json.scanInt app] in E |- *.
  destruct (Ascii.eqb c "0"); [inversion E; subst; reflexivity|].
  destruct (in_range "1" "9" c); [|discriminate].
  destruct (json.scanDigits s) as [ds r'] eqn:Ed. inversion E. subst.
  rewrite (scanDigits_ext _ j _ _ Ed Hr). reflexivity.
Qed.

Lemma scanNumber_ext s j lit r :
  json.scanNumber s = Some (lit, r) -> r <> [] ->
  json.scanNumber (s ++ j) = Some (lit, r ++ j).
Proof.
  unfold json.scanNumber. intros E Hr.
  destruct (json.scanSign s) as [sign s1] eqn:Esg.
  destruct (json.scanInt s1) as [[ip s2]|] eqn:Ei; [|discriminate].
  destruct (json.scanFrac s2) as [[fp s3]|] eqn:Ef; [|discriminate].
  destruct (json.scanExp s3) as [[ep s4]|] eqn:Ee; [|discriminate].
  inversion E. subst.
  pose proof (scanExp_rest _ _ _ Ee Hr) as H3.
  pose proof (scanFrac_rest _ _ _ Ef H3) as H2.
  assert (Esg' : json.scanSign (s ++ j) = (sign, s1 ++ j)).
  { destruct s as [|c s]; [inversion Esg; subst; discriminate|].
    cbn [json.scanSign app] in Esg |- *.
    destruct (Ascii.eqb c "-"); inversion Esg; subst; reflexivity. }
  rewrite Esg', (scanInt_ext _ j _ _ Ei H2), (scanFrac_ext _ j _ _ Ef H3),
    (scanExp_ext _ j _ _ Ee Hr).
  reflexivity.
Qed.

Lemma parseValue_nil fuel depth v r :
  json.parseValue fuel depth [] <> json.POk v r.
Proof. destruct fuel; discriminate. Qed.

Lemma parseElems_nil fuel depth acc v r :
  json.parseElems fuel depth [] acc <> json.POk v r.
Proof.
  destruct fuel as [|fuel]; [discriminate|]. cbn [json.parseElems].
  destruct fuel; discriminate.
Qed.

Lemma parseMembers_nil fuel depth acc v r :
  json.parseMembers fuel depth [] acc <> json.POk v r.
Proof. destruct fuel; discriminate. Qed.

Lemma skipSpace_app_nonempty s j :
  json.skipSpace s <> [] -> json.skipSpace (s ++ j) = json.skipSpace s ++ j.
Proof.
  intros H. destruct (json.skipSpace s) as [|c r] eqn:E; [congruence|].
  apply skipSpace_app, E.
Qed.

(** Bytes after a value do not change it: a number has to be followed by
    something of its own, every other value ends by itself. *)
Lemma parse_ext j fuel :
  (forall depth s v r,
      json.parseValue fuel depth s = json.POk v r ->
      (forall lit, v = json.Number lit -> r <> []) ->
      json.parseValue fuel depth (s ++ j) = json.POk v (r ++ j))
  /\ (forall depth s acc v r,
         json.parseElems fuel depth s acc = json.POk v r ->
         json.parseElems fuel depth (s ++ j) acc = json.POk v (r ++ j))
  /\ (forall depth s acc v r,
         json.parseMembers fuel depth s acc = json.POk v r ->
         json.parseMembers fuel depth (s ++ j) acc = json.POk v (r ++ j)).
Proof.
  induction fuel as [|fuel (IHv & IHe & IHm)].
  { repeat split; intros; discriminate. }
  split; [|split].
  - intros depth s v r E Hd.
    cbn [json.parseValue] in E.
    destruct s as [|c s']; [discriminate|].
    change ((c :: s') ++ j) with (c :: s' ++ j).
    cbn [json.parseValue].
    destruct (Ascii.eqb c "{").
    { destruct (json.maxNestingDepth <=? depth); [discriminate|].
      destruct (json.skipSpace s') as [|c1 r1] eqn:Es; [discriminate|].
      rewrite (skipSpace_app _ j _ _ Es).
      destruct (Ascii.eqb c1 "}"); [inversion E; reflexivity|].
      apply (IHm _ _ _ _ _ E). }
    destruct (Ascii.eqb c "[").
    { destruct (json.maxNestingDepth <=? depth); [discriminate|].
      destruct (json.skipSpace s') as [|c1 r1] eqn:Es; [discriminate|].
      rewrite (skipSpace_app _ j _ _ Es).
      destruct (Ascii.eqb c1 "]"); [inversion E; reflexivity|].
      apply (IHe _ _ _ _ _ E). }
    destruct (Ascii.eqb c dquote).
    { destruct (json.scanString s' []) as [[raw r1]|] eqn:Es; [|discriminate].
      rewrite (scanString_app _ j _ _ _ Es). inversion E. reflexivity. }
    destruct (Ascii.eqb c "-" || isDigit c).
    { destruct (json.scanNumber (c :: s')) as [[lit r1]|] eqn:Es;
        [|discriminate].
      inversion E. subst.
      change (c :: s' ++ j) with ((c :: s') ++ j).
      rewrite (scanNumber_ext _ j _ _ Es (Hd lit eq_refl)). reflexivity. }
    destruct (Ascii.eqb c "t").
    { destruct (json.stripPrefix _ (c :: s')) as [r1|] eqn:Es; [|discriminate].
      change (c :: s' ++ j) with ((c :: s') ++ j).
      rewrite (stripPrefix_app _ j _ _ Es). inversion E. reflexivity. }
    destruct (Ascii.eqb c "f").
    { destruct (json.stripPrefix _ (c :: s')) as [r1|] eqn:Es; [|discriminate].
      change (c :: s' ++ j) with ((c :: s') ++ j).
      rewrite (stripPrefix_app _ j _ _ Es). inversion E. reflexivity. }
    destruct (Ascii.eqb c "n"); [|discriminate].
    destruct (json.stripPrefix _ (c :: s')) as [r1|] eqn:Es; [|discriminate].
    change (c :: s' ++ j) with ((c :: s') ++ j).
    rewrite (stripPrefix_app _ j _ _ Es). inversion E. reflexivity.
  - intros depth s acc v r E. cbn [json.parseElems] in E |- *.
    destruct (json.parseValue fuel depth s) as [x r0| |] eqn:Ev;
      try discriminate.
    destruct (json.skipSpace r0) as [|c r1] eqn:Es; [discriminate|].
    rewrite (IHv _ _ _ _ Ev)
      by (intros lit _ ->; discriminate Es).
    rewrite (skipSpace_app _ j _ _ Es).
    destruct (Ascii.eqb c ",").
    + rewrite skipSpace_app_nonempty.
      * apply (IHe _ _ _ _ _ E).
      * intros H. rewrite H in E. exact (parseElems_nil _ _ _ _ _ E).
    + destruct (Ascii.eqb c "]"); [|discriminate].
      inversion E. reflexivity.
  - intros depth s acc v r E. cbn [json.parseMembers] in E.
    destruct s as [|q s']; [discriminate|].
    change ((q :: s') ++ j) with (q :: s' ++ j). cbn [json.parseMembers].
    destruct (Ascii.eqb q dquote); [|discriminate].
    destruct (json.scanString s' []) as [[key r1]|] eqn:Ek; [|discriminate].
    rewrite (scanString_app _ j _ _ _ Ek).
    destruct (json.skipSpace r1) as [|c r2] eqn:Es1; [discriminate|].
    rewrite (skipSpace_app _ j _ _ Es1).
    destruct (Ascii.eqb c ":"); [|discriminate].
    destruct (json.parseValue fuel depth (json.skipSpace r2))
      as [x r3| |] eqn:Ev; try discriminate.
    rewrite skipSpace_app_nonempty
      by (intros H; rewrite H in Ev; exact (parseValue_nil _ _ _ _ Ev)).
    destruct (json.skipSpace r3) as [|c' r4] eqn:Es3; [discriminate|].
    rewrite (IHv _ _ _ _ Ev)
      by (intros lit _ ->; discriminate Es3).
    rewrite (skipSpace_app _ j _ _ Es3).
    destruct (Ascii.eqb c' ",").
    + rewrite skipSpace_app_nonempty.
      * apply (IHm _ _ _ _ _ E).
      * intros H. rewrite H in E. exact (parseMembers_nil _ _ _ _ _ E).
    + destruct (Ascii.eqb c' "}"); [|discriminate].
      inversion E. reflexivity.
Qed.

Lemma firstValue_app body junk v :
  firstValue body = Some v -> (forall lit, v <> json.Number lit) ->
  firstValue (body ++ junk) = Some v.
Proof.
  unfold firstValue. intros E Hv.
  destruct (json.parseValue _ 0 (json.skipSpace body)) as [x r| |] eqn:Ep;
    try discriminate.
  inversion E. subst x.
  rewrite skipSpace_app_nonempty
    by (intros H; rewrite H in Ep; exact (parseValue_nil _ _ _ _ Ep)).
  apply (proj1 (parse_fuel_mono _)) with (fuel' := (2 * List.length (body ++ junk) + 2)%nat) in Ep;
    [|rewrite length_app; lia].
  rewrite (proj1 (parse_ext junk _) _ _ _ _ Ep); [reflexivity|].
  intros lit Hl. exfalso. exact (Hv lit Hl).
Qed.

(** X11: what follows the first value of the body is not read.  When
    the body begins with a JSON value that is not a number, the answer
    stays the same whatever bytes are put after the body, a second
    object or text that is no JSON at all. *)
Theorem X11_insert_ignores_rest (db : InsertDB) (body junk : bytes)
        (v : json.value) :
  firstValue body = Some v -> (forall lit, v <> json.Number lit) ->
  insertHandler db (body ++ junk) = insertHandler db body.
Proof.
  intros E Hv. rewrite !insertHandler_firstValue.
  rewrite (firstValue_app body junk v E Hv), E. reflexivity.
Qed.

Lemma X11_witness :
  insertHandler ex_insertdb
    (insert_body (B "Joe") (B "joe@example.com") ++ Q "{'name':'Ann'} and more")
  = insertHandler ex_insertdb (insert_body (B "Joe") (B "joe@example.com")).
Proof.
  apply (X11_insert_ignores_rest ex_insertdb
           (insert_body (B "Joe") (B "joe@example.com"))
           (Q "{'name':'Ann'} and more")
           (json.Object [(B "name", json.String (B "Joe"));
                         (B "email", json.String (B "joe@example.com"))])).
  - vm_compute. reflexivity.
  - intros lit H. discriminate H.
Defined.

(** ** The instant a page is read at *)

Lemma statement_asOf_vars vars m :
  statement_asOf (listHandler_statement vars m) = tableInPointOfTime vars.
Proof.
  unfold listHandler_statement.
  destruct (time.Time_IsZero (onlyNewerThan vars)); reflexivity.
Qed.

(** X12: the pages of one reading are not read at the same wall clock.
    The first page is read as of the start of the request printed in
    UTC; the page fetched with the next-page token of that response is
    read as of the same second printed in the local zone, so the two
    texts that reach the database differ by the offset of the local zone
    and agree only where that zone is UTC. *)
Theorem X12_as_of_wall_clock (db : DB) (c c' : Clock) (m localOffset : Z)
        (l : ListResponse) (n : NextPageToken.t) :
  time.wf (now_start c) -> time.wf (now_issue c) -> in_int64 m ->
  listHandler db c (first_request m) = mkResponse StatusOK (BodyJSON l) ->
  NextPageToken_ l = Some n ->
  time.Time_Before (seconds (NextPageToken.ValidUntil n)) (now_check c')
  = false ->
  exists tok vars vars',
    listHandler_cursor c (first_request m) = inr vars
    /\ NextPageToken_text n = Ok tok
    /\ listHandler_cursor c' (next_request m tok) = inr vars'
    /\ wallClock localOffset
         (statement_asOf (listHandler_statement vars m))
       = time.sec (now_start c)
    /\ wallClock localOffset
         (statement_asOf (listHandler_statement vars' m))
       = time.sec (now_start c) + localOffset.
Proof.
  intros Hstart Hissue Hm Hresp Hn Hvalid.
  assert (Hok : StatusCode (listHandler db c (first_request m)) = StatusOK)
    by (rewrite Hresp; reflexivity).
  destruct (listHandler_ok db c _ Hok) as (vars & users & Ec & _ & El).
  rewrite Hresp in El. injection El as El. subst l.
  rewrite cursor_first_request in Ec. inversion Ec. subst vars. clear Ec.
  cbn [NextPageToken_] in Hn. unfold listHandler_continuation in Hn.
  cbn [tableInPointOfTime onlyNewerThan offset nextPageToken syncToken] in Hn.
  destruct ((len users =? 0) || (len users <? _)); cbn [fst] in Hn;
    [discriminate|].
  inversion Hn. subst n. clear Hn.
  set (n := NextPageToken.mk _ _ _ _) in *.
  assert (Hw : NextPageToken_wf n).
  { split; [exact Hstart|]. split; [apply zero_wf|].
    split; [apply wrap64_range | apply AddDate_wf, Hissue]. }
  exists (base64.Encode (NextPageToken_json n)). eexists. eexists.
  split; [apply cursor_first_request|].
  split; [apply NextPageToken_text_eq|].
  split.
  - rewrite cursor_next_request by exact Hw. rewrite Hvalid. reflexivity.
  - rewrite !statement_asOf_vars. cbn [tableInPointOfTime].
    unfold wallClock, seconds. cbn. split; lia.
Qed.

Lemma X12_witness :
  exists tok vars vars',
    listHandler_cursor ex_clock (first_request 5) = inr vars
    /\ NextPageToken_text
         (NextPageToken.mk (time.Time_UTC (now_start ex_clock)) time.zero 5
                           (time.Time_AddDate_days (local_zone ex_clock)
                                                   (now_issue ex_clock) 1))
       = Ok tok
    /\ listHandler_cursor ex_clock (next_request 5 tok) = inr vars'
    /\ wallClock 3600 (statement_asOf (listHandler_statement vars 5))
       = time.sec (now_start ex_clock)
    /\ wallClock 3600 (statement_asOf (listHandler_statement vars' 5))
       = time.sec (now_start ex_clock) + 3600.
Proof.
  apply (X12_as_of_wall_clock ex_db ex_clock ex_clock 5 3600 ex_first_page).
  - vm_compute. split; [split|split]; discriminate.
  - vm_compute. split; [split|split]; discriminate.
  - vm_compute. split; discriminate.
  - vm_compute. reflexivity.
  - reflexivity.
  - vm_compute. reflexivity.
Defined.
